(** * Face enrollment and verification server (server.js): embedding
    utilities, augmentation, profile construction and the match decision.

    The JavaScript source computes on IEEE-754 binary64 numbers.  The
    functions of the source are written once, over an interface [Number] of
    the arithmetic they use, and read at two instances:
    - [JS.float_Number]: Rocq's primitive binary64 floats, the arithmetic
      the program really runs on (executable);
    - [Exact.xreal_Number]: the same operations without rounding, on the
      reals extended with the two infinities and NaN.

    Outside the model: the HTTP layer and multer's own limits, the failures
    of the file system, of the image library and of the ONNX session, and
    the serialization of a response ([res.json] writes an infinite number
    as [null]). The directory [data] is a finite map from the name to the
    profile written under it.

    The loop of [getEmbeddingFromBuffer] that fills the input tensor is
    modelled on its own in [Tensor], over the bytes of the raw buffer and
    with the session as a function of the tensor data. *)

From Stdlib Require Import List ZArith Bool Lia Floats Reals Lra.
From stdpp Require Import gmap strings.

Import ListNotations.
Local Open Scope list_scope.

(** ** The arithmetic of JavaScript numbers used by server.js *)

Class Number (num : Type) := {
  zero : num;
  pinf : num;                       (* Infinity, Number.POSITIVE_INFINITY *)
  ninf : num;                       (* -Infinity *)
  nan : num;                        (* what arithmetic on [undefined] gives *)
  add : num -> num -> num;
  sub : num -> num -> num;
  mul : num -> num -> num;
  div : num -> num -> num;
  sqrt : num -> num;                (* Math.sqrt *)
  floor : num -> num;               (* Math.floor *)
  min2 : num -> num -> num;         (* Math.min, two arguments *)
  ltb : num -> num -> bool;         (* a < b; a > b is [ltb b a] *)
  leb : num -> num -> bool;         (* a <= b; a >= b is [leb b a] *)
  ofNat : nat -> num                (* an array length, a counter, a literal *)
}.

(** A call either returns or throws (the only exception the core itself can
    raise is the [TypeError] of reading a property of [undefined]). *)
Inductive outcome (A : Type) : Type :=
| Returns (a : A)
| Throws.
Arguments Returns {A} a.
Arguments Throws {A}.

#[global] Instance outcome_bind : MBind outcome := fun A B k m =>
  match m with
  | Returns a => k a
  | Throws => Throws
  end.

Section Core.
Context {num : Type} `{Number num}.

(** [!x] on a number: true for 0, -0 and NaN. *)
Definition falsy (x : num) : bool := negb (ltb x zero || ltb zero x).

(** [Number.isFinite(x)]: neither NaN nor an infinity. *)
Definition isFinite (x : num) : bool := ltb ninf x && ltb x pinf.

(** [x ** 2], taken as the correctly rounded product [x * x]. *)
Definition pow2 (x : num) : num := mul x x.

(** [v[i]] inside an arithmetic expression: past the end the element is
    [undefined], which [+], [-] and [*] turn into NaN. *)
Definition at_ (v : list num) (i : nat) : num := nth i v nan.

(** *** Embedding utilities *)

Definition sumSquares (embedding : list num) : num :=
  fold_left (fun sum val => add sum (mul val val)) embedding zero.

Definition normalizeEmbedding (embedding : list num) : list num :=
  let norm := sqrt (sumSquares embedding) in
  if falsy norm || negb (isFinite norm) then embedding
  else map (fun val => div val norm) embedding.

Definition euclideanDistance (a b : list num) : num :=
  sqrt (fold_left (fun sum i => add sum (pow2 (sub (at_ a i) (at_ b i))))
                  (seq 0 (length a)) zero).

Definition cosineSimilarity (a b : list num) : num :=
  fold_left (fun dot i => add dot (mul (at_ a i) (at_ b i)))
            (seq 0 (length a)) zero.

Definition averageEmbeddings (embeddings : list (list num)) : outcome (list num) :=
  match embeddings with
  | [] => Throws                    (* embeddings[0].length on undefined *)
  | first :: _ =>
      let length_ := length first in
      let sum :=
        fold_left
          (fun sum emb => map (fun i => add (at_ sum i) (at_ emb i)) (seq 0 length_))
          embeddings (repeat zero length_) in
      Returns (map (fun v => div v (ofNat (length embeddings))) sum)
  end.

(** *** Build person profile *)

Record Profile : Type := {
  embeddings : list (list num);
  centroid : list num;
  maxIntraDistance : num;
  minIntraSimilarity : num
}.

Definition intraStep (centroid_ : list num) (acc : num * num) (emb : list num)
  : num * num :=
  let distance := euclideanDistance emb centroid_ in
  let similarity := cosineSimilarity emb centroid_ in
  (if ltb (fst acc) distance then distance else fst acc,
   if ltb similarity (snd acc) then similarity else snd acc).

Definition buildPersonProfile (embeddings_ : list (list num)) : outcome Profile :=
  avg ← averageEmbeddings embeddings_;
  let centroid_ := normalizeEmbedding avg in
  let stats := fold_left (intraStep centroid_) embeddings_ (zero, pinf) in
  Returns {| embeddings := embeddings_;
             centroid := centroid_;
             maxIntraDistance := fst stats;
             minIntraSimilarity := snd stats |}.

(** *** Augmentation (register and find)

    The image library (sharp) and the ONNX session are outside the program:
    they are taken as functions of the image path and of the pixel buffer.
    Their own failures (an unreadable image, a rejected crop) are not
    modelled. *)

Record Metadata : Type := {
  width : option num;               (* metadata.width, possibly undefined *)
  height : option num
}.

Record Region : Type := {
  left : num;
  top : num;
  region_width : num;
  region_height : num
}.

Class Collaborators (Path Buffer : Type) : Type := {
  (* sharp(imagePath).removeAlpha().metadata() *)
  metadata : Path -> Metadata;
  (* sharp(imagePath).resize(112, 112).removeAlpha().raw().toBuffer() *)
  preprocessTo112 : Path -> Buffer;
  (* image.clone().extract(region).resize(112, 112).raw().toBuffer() *)
  extractTo112 : Path -> Region -> Buffer;
  (* pixel rescaling, then arcfaceSession.run, then Array.from(output.data) *)
  getEmbeddingFromBuffer : Buffer -> list num
}.

Context {Path Buffer : Type} `{Collaborators Path Buffer}.

(** A decimal literal with two digits: the correctly rounded quotient. *)
Definition hundredths (n : nat) : num := div (ofNat n) (ofNat 100).

Definition ratios : list num := [hundredths 92; hundredths 85].

(** Truth value of an optional number ([undefined], 0 and NaN are false). *)
Definition truthy (x : option num) : bool :=
  match x with
  | Some v => negb (falsy v)
  | None => false
  end.

Definition centerCrop (width_ height_ ratio : num) : Region :=
  let square := min2 width_ height_ in
  let side := floor (mul square ratio) in
  {| left := floor (div (sub width_ side) (ofNat 2));
     top := floor (div (sub height_ side) (ofNat 2));
     region_width := side;
     region_height := side |}.

Definition augmentedBuffers (imagePath : Path) : list Buffer :=
  let md := metadata imagePath in
  preprocessTo112 imagePath ::
  match width md, height md with
  | Some width_, Some height_ =>
      if truthy (width md) && truthy (height md)
      then map (fun ratio => extractTo112 imagePath (centerCrop width_ height_ ratio))
               ratios
      else []
  | _, _ => []
  end.

Definition getAugmentedEmbeddings (imagePath : Path) : list (list num) :=
  map (fun buffer => normalizeEmbedding (getEmbeddingFromBuffer buffer))
      (augmentedBuffers imagePath).

(** *** Configuration, profile files and responses *)

Record Config : Type := {
  DISTANCE_THRESHOLD : num;
  COSINE_THRESHOLD : num;
  REQUIRED_VARIANT_MATCHES : num
}.

Definition defaultConfig : Config :=
  {| DISTANCE_THRESHOLD := hundredths 95;
     COSINE_THRESHOLD := hundredths 62;
     REQUIRED_VARIANT_MATCHES := ofNat 1 |}.

(** What the find endpoint reads of a number that went through
    [JSON.stringify] and [JSON.parse]: NaN and the infinities are written as
    [null], which [-] and [*] read as 0, and -0 is written as 0. *)
Definition jsonNumber (x : num) : num :=
  if isFinite x && negb (falsy x) then x else zero.

(** The two fields of a profile file the find endpoint uses. *)
Definition parsedEmbeddings (p : Profile) : list (list num) :=
  map (map jsonNumber) (embeddings p).

Definition parsedCentroid (p : Profile) : list num :=
  map jsonNumber (centroid p).

(** The accumulators of the pairwise sweep. *)
Record Tally : Type := {
  minDistance : num;
  maxSimilarity : num;
  variantMatches : nat
}.

Inductive Body : Type :=
| MessageOnly (message : string)
| Registered (message : string) (samplesStored : nat)
             (maxIntraDistance_ minIntraSimilarity_ : num)
| Verdict (message : string) (tally : Tally)
          (centroidDistance centroidSimilarity : num)
          (thresholds_distance thresholds_cosine : num).

Record Response : Type := {
  status : nat;
  body : Body
}.

Definition json (b : Body) : Response := {| status := 200; body := b |}.
Definition status400 (b : Body) : Response := {| status := 400; body := b |}.

(** [!name] on a form field. *)
Definition missingName (name : option string) : bool :=
  match name with
  | Some n => if decide (n = EmptyString) then true else false
  | None => true
  end.

(** [!req.files || req.files.length === 0]. *)
Definition noFiles (files : option (list Path)) : bool :=
  match files with
  | Some fs => Nat.eqb (length fs) 0
  | None => true
  end.

(** *** Register endpoint

    The directory [data] is a map from the person's name to the profile
    written under it. *)
Definition register (store : gmap string Profile)
    (name : option string) (files : option (list Path))
  : outcome (Response * gmap string Profile) :=
  if missingName name then
    Returns (status400 (MessageOnly "Name is required"), store)
  else if noFiles files then
    Returns (status400 (MessageOnly "At least one image required"), store)
  else
    let embeddings_ := flat_map getAugmentedEmbeddings (default [] files) in
    profile ← buildPersonProfile embeddings_;
    Returns (json (Registered "Person Registered" (length embeddings_)
                              (maxIntraDistance profile)
                              (minIntraSimilarity profile)),
             <[default EmptyString name := profile]> store).

(** *** Find endpoint *)

Definition sweepStep (cfg : Config) (query : list num) (acc : Tally)
    (saved : list num) : Tally :=
  let distance := euclideanDistance saved query in
  let similarity := cosineSimilarity saved query in
  {| minDistance :=
       if ltb distance (minDistance acc) then distance else minDistance acc;
     maxSimilarity :=
       if ltb (maxSimilarity acc) similarity then similarity
       else maxSimilarity acc;
     variantMatches :=
       if leb distance (DISTANCE_THRESHOLD cfg) &&
          leb (COSINE_THRESHOLD cfg) similarity
       then S (variantMatches acc) else variantMatches acc |}.

Definition sweep (cfg : Config) (queryEmbeddings saved : list (list num)) : Tally :=
  fold_left
    (fun acc query => fold_left (sweepStep cfg query) saved acc)
    queryEmbeddings
    {| minDistance := pinf; maxSimilarity := ninf; variantMatches := 0 |}.

(** [f(profile.centroid, queryEmbeddings[0])] for the two loops over the
    indices of the centroid: with no query embedding the second argument is
    [undefined], and the first pass of the loop body throws. *)
Definition againstFirst (f : list num -> list num -> num)
    (centroid_ : list num) (queryEmbeddings : list (list num)) : outcome num :=
  match queryEmbeddings, centroid_ with
  | first :: _, _ => Returns (f centroid_ first)
  | [], [] => Returns (f [] [])
  | [], _ :: _ => Throws
  end.

Definition isMatch (cfg : Config) (t : Tally) : bool :=
  leb (minDistance t) (DISTANCE_THRESHOLD cfg) &&
  leb (COSINE_THRESHOLD cfg) (maxSimilarity t) &&
  leb (REQUIRED_VARIANT_MATCHES cfg) (ofNat (variantMatches t)).

Definition find (cfg : Config) (store : gmap string Profile)
    (name : option string) (file : option Path) : outcome Response :=
  if missingName name then
    Returns (status400 (MessageOnly "Name required"))
  else
    match file with
    | None => Returns (status400 (MessageOnly "Image required"))
    | Some path =>
        match store !! default EmptyString name with
        | None => Returns (json (MessageOnly "Person not registered"))
        | Some profile =>
            let queryEmbeddings := getAugmentedEmbeddings path in
            let t := sweep cfg queryEmbeddings (parsedEmbeddings profile) in
            centroidDistance ←
              againstFirst euclideanDistance (parsedCentroid profile) queryEmbeddings;
            centroidSimilarity ←
              againstFirst cosineSimilarity (parsedCentroid profile) queryEmbeddings;
            Returns (json (Verdict
                             (if isMatch cfg t then "Person Found"
                              else "Person Not Found")
                             t centroidDistance centroidSimilarity
                             (DISTANCE_THRESHOLD cfg) (COSINE_THRESHOLD cfg)))
        end
    end.

End Core.

(** ** The arithmetic the program runs on: binary64 *)

Module JS.

Definition two52 : float := 4503599627370496%float.

(** [Math.floor]: below 2^52 in magnitude, adding and removing 2^52 rounds
    to an integer, which is then corrected downwards; every other double is
    an integer, an infinity or NaN, and is returned as it is. (The sign of a
    zero result is not tracked.) *)
Definition Math_floor (x : float) : float :=
  if (PrimFloat.abs x <? two52)%float then
    let r := if (x <? 0)%float then ((x - two52) + two52)%float
             else ((x + two52) - two52)%float in
    if (x <? r)%float then (r - 1)%float else r
  else x.

(** [Math.min(a, b)]: NaN when either argument is. *)
Definition Math_min (a b : float) : float :=
  if PrimFloat.is_nan a || PrimFloat.is_nan b then PrimFloat.nan
  else if (b <? a)%float then b else a.

(** A non-negative integer below 2^53 as a double (exact). *)
Definition of_nat (n : nat) : float :=
  PrimFloat.of_uint63 (Uint63.of_Z (Z.of_nat n)).

#[global] Instance float_Number : Number float := {|
  zero := PrimFloat.zero;
  pinf := PrimFloat.infinity;
  ninf := PrimFloat.neg_infinity;
  nan := PrimFloat.nan;
  add := PrimFloat.add;
  sub := PrimFloat.sub;
  mul := PrimFloat.mul;
  div := PrimFloat.div;
  sqrt := PrimFloat.sqrt;
  floor := Math_floor;
  min2 := Math_min;
  ltb := PrimFloat.ltb;
  leb := PrimFloat.leb;
  ofNat := of_nat
|}.

End JS.


(** ** The same arithmetic without rounding

    Real numbers extended with the two infinities and NaN; every operation
    is the IEEE-754 one with the rounding step removed (there is one zero,
    read as +0 where a sign is needed). *)

Module Exact.

Inductive xreal : Type :=
| Fin (r : R)
| PInf
| NInf
| NaN.

Definition Rltb (a b : R) : bool := if Rlt_dec a b then true else false.
Definition Rleb (a b : R) : bool := if Rle_dec a b then true else false.

Definition xadd (x y : xreal) : xreal :=
  match x, y with
  | NaN, _ | _, NaN => NaN
  | Fin a, Fin b => Fin (a + b)
  | PInf, NInf | NInf, PInf => NaN
  | PInf, _ | _, PInf => PInf
  | NInf, _ | _, NInf => NInf
  end.

Definition xopp (x : xreal) : xreal :=
  match x with
  | Fin a => Fin (- a)
  | PInf => NInf
  | NInf => PInf
  | NaN => NaN
  end.

Definition xsub (x y : xreal) : xreal := xadd x (xopp y).

(** An infinity (positive or not) times a finite number. *)
Definition infTimes (positive_ : bool) (a : R) : xreal :=
  if Rltb 0 a then (if positive_ then PInf else NInf)
  else if Rltb a 0 then (if positive_ then NInf else PInf)
  else NaN.

Definition xmul (x y : xreal) : xreal :=
  match x, y with
  | NaN, _ | _, NaN => NaN
  | Fin a, Fin b => Fin (a * b)
  | PInf, Fin a | Fin a, PInf => infTimes true a
  | NInf, Fin a | Fin a, NInf => infTimes false a
  | PInf, PInf | NInf, NInf => PInf
  | PInf, NInf | NInf, PInf => NInf
  end.

Definition xdiv (x y : xreal) : xreal :=
  match x, y with
  | NaN, _ | _, NaN => NaN
  | Fin a, Fin b =>
      if Rltb b 0 || Rltb 0 b then Fin (a / b) else infTimes true a
  | Fin _, (PInf | NInf) => Fin 0
  | PInf, Fin b => if Rltb b 0 then NInf else PInf
  | NInf, Fin b => if Rltb b 0 then PInf else NInf
  | (PInf | NInf), (PInf | NInf) => NaN
  end.

Definition xsqrt (x : xreal) : xreal :=
  match x with
  | Fin a => if Rltb a 0 then NaN else Fin (R_sqrt.sqrt a)
  | PInf => PInf
  | NInf | NaN => NaN
  end.

Definition xfloor (x : xreal) : xreal :=
  match x with
  | Fin a => Fin (IZR (Int_part a))
  | _ => x
  end.

Definition xmin (x y : xreal) : xreal :=
  match x, y with
  | NaN, _ | _, NaN => NaN
  | Fin a, Fin b => Fin (Rmin a b)
  | NInf, _ | _, NInf => NInf
  | PInf, z | z, PInf => z
  end.

Definition xltb (x y : xreal) : bool :=
  match x, y with
  | NaN, _ | _, NaN => false
  | Fin a, Fin b => Rltb a b
  | _, NInf | PInf, _ => false
  | NInf, _ | _, PInf => true
  end.

Definition xleb (x y : xreal) : bool :=
  match x, y with
  | NaN, _ | _, NaN => false
  | Fin a, Fin b => Rleb a b
  | NInf, _ | _, PInf => true
  | _, NInf | PInf, _ => false
  end.

#[global] Instance xreal_Number : Number xreal := {|
  zero := Fin 0;
  pinf := PInf;
  ninf := NInf;
  nan := NaN;
  add := xadd;
  sub := xsub;
  mul := xmul;
  div := xdiv;
  sqrt := xsqrt;
  floor := xfloor;
  min2 := xmin;
  ltb := xltb;
  leb := xleb;
  ofNat := fun n => Fin (INR n)
|}.

(** *** Vectors of reals, to state what the exact instance computes *)

Local Open Scope R_scope.

(** A vector of finite numbers. *)
Definition fin (rs : list R) : list xreal := map Fin rs.

(** [z + h x1 + ... + h xn], accumulated from the left. *)
Definition sumOver {A : Type} (h : A -> R) (l : list A) (z : R) : R :=
  fold_left (fun acc x => acc + h x) l z.

Definition sumsqR (v : list R) : R := sumOver (fun x => x * x) v 0.

Definition dotR (a b : list R) : R :=
  sumOver (fun p => fst p * snd p) (combine a b) 0.

Definition sqdistR (a b : list R) : R :=
  sumOver (fun p => (fst p + - snd p) * (fst p + - snd p)) (combine a b) 0.

(** The Euclidean norm of a vector of reals. *)
Definition normR (v : list R) : R := R_sqrt.sqrt (sumsqR v).

(** The element-wise sum of two vectors, and the element-wise mean of a
    collection of vectors as long as its first one. *)
Definition zipAdd (s e : list R) : list R :=
  map (fun p => fst p + snd p) (combine s e).

Definition meanR (es : list (list R)) : list R :=
  match es with
  | [] => []
  | e :: _ =>
      map (fun x => x / INR (length es)) (fold_left zipAdd es (repeat 0 (length e)))
  end.

Local Close Scope R_scope.

End Exact.

(** * Notions used to state the properties *)

(** ** Properties of the comparisons

    What the folds that track a minimum or a maximum need of [<] and [<=].
    [leb x x = true] says that [x] is a number (not NaN). *)

Class NumberOrder (num : Type) `{Number num} : Prop := {
  ltb_irrefl : forall x : num, ltb x x = false;
  ltb_number_l : forall x y : num, ltb x y = true -> leb x x = true;
  ltb_number_r : forall x y : num, ltb x y = true -> leb y y = true;
  ltb_leb_trans : forall x y z : num,
    ltb x y = true -> leb y z = true -> leb x z = true;
  leb_ltb_trans : forall x y z : num,
    leb x y = true -> ltb y z = true -> leb x z = true;
  leb_total : forall x y : num,
    leb x x = true -> leb y y = true -> ltb x y = false -> leb y x = true;
  leb_zero_zero : leb (zero : num) zero = true;
  leb_pinf_pinf : leb (pinf : num) pinf = true;
  leb_ninf_ninf : leb (ninf : num) ninf = true;
  leb_pinf_zero : leb (pinf : num) zero = false;
  leb_pinf_top : forall x : num, leb x x = true -> leb x pinf = true;
  leb_ninf_bottom : forall x : num, leb x x = true -> leb ninf x = true;
  sqrt_nonneg : forall x : num, ltb (sqrt x) zero = false
}.

(** [m] is the least (greatest) of the numbers of [xs]: it is one of them
    and no element that is a number is below (above) it. *)
Definition least {num : Type} `{Number num} (m : num) (xs : list num) : Prop :=
  In m xs /\ leb m m = true /\
  forall x, In x xs -> leb x x = true -> leb m x = true.

Definition greatest {num : Type} `{Number num} (m : num) (xs : list num) : Prop :=
  In m xs /\ leb m m = true /\
  forall x, In x xs -> leb x x = true -> leb x m = true.

(** [x] is a number (not NaN). *)
Definition isNumber {num : Type} `{Number num} (x : num) : bool := leb x x.

(** [m] is the minimum (maximum) of the numbers among [xs]: no number of
    [xs] is below (above) it and it equals one of them. *)
Definition minimumOf {num : Type} `{Number num} (m : num) (xs : list num) : Prop :=
  (forall x, In x xs -> isNumber x = true -> leb m x = true) /\
  (exists x, In x xs /\ leb x m = true /\ leb m x = true).

Definition maximumOf {num : Type} `{Number num} (m : num) (xs : list num) : Prop :=
  (forall x, In x xs -> isNumber x = true -> leb x m = true) /\
  (exists x, In x xs /\ leb x m = true /\ leb m x = true).

Section Notions.
Context {num : Type} `{Number num}.

(** One pass of [if (d < m) m = d] and of [if (d > m) m = d]. *)
Definition keepMin (m d : num) : num := if ltb d m then d else m.
Definition keepMax (m d : num) : num := if ltb m d then d else m.

(** Every (query variant, stored variant) pair, in the order of the loops. *)
Definition pairs (queryEmbeddings saved : list (list num))
  : list (list num * list num) :=
  flat_map (fun query => map (fun s => (query, s)) saved) queryEmbeddings.

Definition pairDistance (p : list num * list num) : num :=
  euclideanDistance (snd p) (fst p).

Definition pairSimilarity (p : list num * list num) : num :=
  cosineSimilarity (snd p) (fst p).

(** The joint test of one pair. *)
Definition passes (cfg : Config) (p : list num * list num) : bool :=
  leb (pairDistance p) (DISTANCE_THRESHOLD cfg) &&
  leb (COSINE_THRESHOLD cfg) (pairSimilarity p).

Definition pairStep (cfg : Config) (acc : Tally) (p : list num * list num) : Tally :=
  sweepStep cfg (fst p) acc (snd p).

(** The sum of the products of paired elements, accumulated from the left
    starting at 0: the dot product as the loop computes it. *)
Definition dotProduct (a b : list num) : num :=
  fold_left (fun dot p => add dot (mul (fst p) (snd p))) (combine a b) zero.

(** The sum of the squared differences of paired elements. *)
Definition squaredDistance (a b : list num) : num :=
  fold_left (fun sum p => add sum (pow2 (sub (fst p) (snd p)))) (combine a b) zero.

Context {Path Buffer : Type} `{Collaborators (num := num) Path Buffer}.

(** The embedding of the full image, resized to the extractor's input. *)
Definition fullImageEmbedding (imagePath : Path) : list num :=
  normalizeEmbedding (getEmbeddingFromBuffer (preprocessTo112 imagePath)).

(** The embedding of the centered crop at [ratio]. *)
Definition cropEmbedding (imagePath : Path) (width_ height_ ratio : num) : list num :=
  normalizeEmbedding
    (getEmbeddingFromBuffer
       (extractTo112 imagePath (centerCrop width_ height_ ratio))).

(** Both dimensions were read and neither is 0 or NaN. *)
Definition dimensionsKnown (imagePath : Path) : bool :=
  truthy (width (metadata imagePath)) && truthy (height (metadata imagePath)).

(** The profile directories that enrollment can produce. *)
Inductive reachable : gmap string Profile -> Prop :=
| reachable_empty : reachable ∅
| reachable_register (store store' : gmap string Profile)
    (name : option string) (files : option (list Path)) (resp : Response) :
    reachable store ->
    register store name files = Returns (resp, store') ->
    reachable store'.

End Notions.

(** ** A stand-in for the collaborators, to run the endpoints on doubles

    A photo carries the vector the extractor returns for it and the size
    its metadata reports; crops see the same vector. *)

Module Demo.

Record Photo : Type := {
  vector : list float;
  size : option (float * float)
}.

#[global] Instance demo : Collaborators (num := float) Photo (list float) := {|
  metadata p := {| width := fst <$> size p; height := snd <$> size p |};
  preprocessTo112 p := vector p;
  extractTo112 p _ := vector p;
  getEmbeddingFromBuffer b := b
|}.

(** The same stand-in in exact arithmetic: an image is the vector of reals
    the extractor returns for it, and no size is known. *)
#[global] Instance exactDemo
  : Collaborators (num := Exact.xreal) (list R) (list Exact.xreal) := {|
  metadata _ := {| width := None; height := None |};
  preprocessTo112 p := Exact.fin p;
  extractTo112 p _ := Exact.fin p;
  getEmbeddingFromBuffer b := b
|}.

Definition plain (v : list float) : Photo := {| vector := v; size := None |}.
Definition sized (v : list float) (w h : float) : Photo :=
  {| vector := v; size := Some (w, h) |}.


Definition aliceProfile : Profile (num := float) :=
  {| embeddings := [[1; 0]%float];
     centroid := [1; 0]%float;
     maxIntraDistance := 0%float;
     minIntraSimilarity := 1%float |}.

Definition demoStore : gmap string (Profile (num := float)) :=
  <["alice"%string := aliceProfile]> ∅.

(** The default similarity and count thresholds, with a distance
    threshold of 0. *)
Definition zeroDistanceConfig : Config (num := float) :=
  {| DISTANCE_THRESHOLD := 0%float;
     COSINE_THRESHOLD := COSINE_THRESHOLD defaultConfig;
     REQUIRED_VARIANT_MATCHES := REQUIRED_VARIANT_MATCHES defaultConfig |}.


Definition exactProfile : Profile (num := Exact.xreal) :=
  {| embeddings := [Exact.fin [1; 0]%R];
     centroid := Exact.fin [1; 0]%R;
     maxIntraDistance := Exact.Fin 0;
     minIntraSimilarity := Exact.Fin 1 |}.

Definition exactStore : gmap string (Profile (num := Exact.xreal)) :=
  <["alice"%string := exactProfile]> ∅.

Definition exactZeroConfig : Config (num := Exact.xreal) :=
  {| DISTANCE_THRESHOLD := Exact.Fin 0;
     COSINE_THRESHOLD := COSINE_THRESHOLD defaultConfig;
     REQUIRED_VARIANT_MATCHES := REQUIRED_VARIANT_MATCHES defaultConfig |}.

(** A profile with one stored variant close to (1, 0) but short, and one
    aligned with it but far. *)
Definition splitProfile : Profile (num := float) :=
  {| embeddings := [[0.5; 0]%float; [8; 0]%float];
     centroid := [1; 0]%float;
     maxIntraDistance := 7%float;
     minIntraSimilarity := 0.5%float |}.

End Demo.

(** ** The input tensor of the extractor

    [getEmbeddingFromBuffer] fills a [Float32Array] from the raw pixel
    buffer before it runs the session. The buffer is a sequence of bytes;
    a read past its end is [undefined], which the subtraction turns into
    NaN, and a store past the end of the typed array is dropped. A number
    stored in a [Float32Array] is rounded to binary32. *)

Module Tensor.
Import JS.

(** Rounding to the nearest binary32 value, ties to even, and the value
    read back as a double. *)
Definition to_binary32 (f : spec_float) : spec_float :=
  match f with
  | S754_finite s m e => binary_round 24 128 s m e
  | _ => f
  end.

Definition to_binary64 (f : spec_float) : spec_float :=
  match f with
  | S754_finite s m e => binary_round prec emax s m e
  | _ => f
  end.

(** What a [Float32Array] holds after [x] is stored in it. *)
Definition fround (x : float) : float :=
  SF2Prim (to_binary64 (to_binary32 (Prim2SF x))).

(** An element of the raw buffer as a number. *)
Definition byteValue (b : Init.Byte.byte) : float := of_nat (Strings.Byte.to_nat b).

(** [rawBuffer[i]] inside the subtraction. *)
Definition channel (rawBuffer : list Init.Byte.byte) (i : nat) : float :=
  match rawBuffer !! i with
  | Some b => byteValue b
  | None => PrimFloat.nan
  end.

(** [(v - 127.5) / 128.0], as the [Float32Array] holds it. *)
Definition rescale (v : float) : float := fround ((v - 127.5) / 128)%float.

(** One pass of the loop body at index [i]. *)
Definition fillPixel (rawBuffer : list Init.Byte.byte) (floatData : list float) (i : nat)
  : list float :=
  let r := channel rawBuffer i in
  let g := channel rawBuffer (i + 1) in
  let b := channel rawBuffer (i + 2) in
  <[i + 2 := rescale r]> (<[i + 1 := rescale g]> (<[i := rescale b]> floatData)).

(** The values [i] takes in [for (let i = 0; i < n; i += 3)]. *)
Definition loopIndices (n : nat) : list nat :=
  map (fun k => 3 * k) (seq 0 ((n + 2) / 3)).

(** [floatData] when the loop ends. *)
Definition floatDataOf (rawBuffer : list Init.Byte.byte) : list float :=
  fold_left (fillPixel rawBuffer) (loopIndices (length rawBuffer))
            (repeat 0%float (length rawBuffer)).


(** The index whose channel ends up at index [j]: the same pixel, the
    channels in the opposite order. *)
Definition mirror (j : nat) : nat := 3 * (j / 3) + (2 - j mod 3).



End Tensor.

(** ** The side of the crop, on doubles and on integers *)

Module JSCrop.
Import JS.

(** The double of an integer below 2^63. *)
Definition ofZ (z : Z) : float := PrimFloat.of_uint63 (Uint63.of_Z z).

(** The same double, bit for bit. *)
Definition sameDouble (x y : float) : bool :=
  match Prim2SF x, Prim2SF y with
  | S754_zero s, S754_zero s' => Bool.eqb s s'
  | S754_infinity s, S754_infinity s' => Bool.eqb s s'
  | S754_nan, S754_nan => true
  | S754_finite s m e, S754_finite s' m' e' =>
      Bool.eqb s s' && Pos.eqb m m' && Z.eqb e e'
  | _, _ => false
  end.

(** [Math.floor(square * ratio)] for a square of [z] pixels and the ratio
    [k]/100 is the integer quotient of [z * k] by 100. *)
Definition sideAgrees (k : nat) (z : Z) : bool :=
  sameDouble (Math_floor (ofZ z * hundredths k)) (ofZ (z * Z.of_nat k / 100)).

(** [f] holds of the [n] integers from [z] on. *)
Fixpoint allFrom (f : Z -> bool) (n : nat) (z : Z) : bool :=
  match n with
  | 0 => true
  | S n' => f z && allFrom f n' (z + 1)
  end.

End JSCrop.

(** ** A configuration whose distance threshold is not a number

    [Number(...)] of an environment variable that does not parse is NaN. *)

Definition nanDistanceConfig : Config (num := float) :=
  {| DISTANCE_THRESHOLD := PrimFloat.nan;
     COSINE_THRESHOLD := COSINE_THRESHOLD defaultConfig;
     REQUIRED_VARIANT_MATCHES := REQUIRED_VARIANT_MATCHES defaultConfig |}.

(** * Lemmas *)

(** ** The comparisons of the two instances *)

Module JSOrder.
Import JS.

Ltac compare_cases :=
  repeat match goal with
  | |- context [Z.compare ?a ?b] => destruct (Z.compare_spec a b); simpl
  | |- context [Pos.compare_cont Eq ?a ?b] =>
      change (Pos.compare_cont Eq a b) with (Pos.compare a b);
      destruct (Pos.compare_spec a b); simpl
  | H : context [Z.compare ?a ?b] |- _ =>
      destruct (Z.compare_spec a b); simpl in H
  | H : context [Pos.compare_cont Eq ?a ?b] |- _ =>
      change (Pos.compare_cont Eq a b) with (Pos.compare a b) in H;
      destruct (Pos.compare_spec a b); simpl in H
  end.

(** Decides a statement about [<?] and [<=?] on doubles through their
    specification on sign, mantissa and exponent. *)
Ltac float_order :=
  intros;
  rewrite ?ltb_spec, ?leb_spec in *;
  unfold SFltb, SFleb, SFcompare in *;
  repeat match goal with
  | |- context [Prim2SF ?x] => destruct (Prim2SF x) as [[]|[]| |[] ? ?]
  | H : context [Prim2SF ?x] |- _ => destruct (Prim2SF x) as [[]|[]| |[] ? ?]
  end;
  simpl in *; try congruence; compare_cases; try congruence; try lia.

Lemma float_ltb_irrefl (x : float) : (x <? x)%float = false.
Proof. float_order. Qed.

Lemma float_ltb_number_l (x y : float) :
  (x <? y)%float = true -> (x <=? x)%float = true.
Proof. float_order. Qed.

Lemma float_ltb_number_r (x y : float) :
  (x <? y)%float = true -> (y <=? y)%float = true.
Proof. float_order. Qed.

Lemma float_ltb_leb_trans (x y z : float) :
  (x <? y)%float = true -> (y <=? z)%float = true -> (x <=? z)%float = true.
Proof. float_order. Qed.

Lemma float_leb_ltb_trans (x y z : float) :
  (x <=? y)%float = true -> (y <? z)%float = true -> (x <=? z)%float = true.
Proof. float_order. Qed.

Lemma float_leb_total (x y : float) :
  (x <=? x)%float = true -> (y <=? y)%float = true ->
  (x <? y)%float = false -> (y <=? x)%float = true.
Proof. float_order. Qed.

Lemma float_leb_pinf_top (x : float) :
  (x <=? x)%float = true -> (x <=? PrimFloat.infinity)%float = true.
Proof.
  rewrite !leb_spec. change (Prim2SF PrimFloat.infinity) with (S754_infinity false).
  unfold SFleb, SFcompare.
  destruct (Prim2SF x) as [[]|[]| |[] ? ?]; simpl; congruence.
Qed.

Lemma float_leb_ninf_bottom (x : float) :
  (x <=? x)%float = true -> (PrimFloat.neg_infinity <=? x)%float = true.
Proof.
  rewrite !leb_spec.
  change (Prim2SF PrimFloat.neg_infinity) with (S754_infinity true).
  unfold SFleb, SFcompare.
  destruct (Prim2SF x) as [[]|[]| |[] ? ?]; simpl; congruence.
Qed.

(** Rounding keeps the sign it is given. *)
Lemma binary_round_aux_sign (s : bool) (m e : Z) (l : location) :
  match binary_round_aux prec emax s m e l with
  | S754_zero s' | S754_infinity s' | S754_finite s' _ _ => s' = s
  | S754_nan => True
  end.
Proof.
  unfold binary_round_aux.
  destruct (shr_fexp prec emax m e l) as [mrs' e'].
  destruct (shr_fexp prec emax _ e' loc_Exact) as [mrs'' e''].
  destruct (shr_m mrs''); [reflexivity| |exact I].
  destruct (Z.leb _ _); reflexivity.
Qed.

Lemma float_sqrt_nonneg (x : float) : (PrimFloat.sqrt x <? 0)%float = false.
Proof.
  rewrite ltb_spec, sqrt_spec.
  change (Prim2SF 0) with (S754_zero false).
  unfold SF64sqrt, SFsqrt.
  destruct (Prim2SF x) as [s|[]| |[] m e]; try reflexivity.
  destruct (SFsqrt_core_binary prec emax (Z.pos m) e) as [[mz ez] lz].
  pose proof (binary_round_aux_sign false mz ez lz) as Hs.
  destruct (binary_round_aux prec emax false mz ez lz) as [s'|s'| |s' m' e'];
    try reflexivity; subst s'; reflexivity.
Qed.

#[global] Instance float_NumberOrder : NumberOrder float.
Proof.
  constructor; simpl.
  - exact float_ltb_irrefl.
  - exact float_ltb_number_l.
  - exact float_ltb_number_r.
  - exact float_ltb_leb_trans.
  - exact float_leb_ltb_trans.
  - exact float_leb_total.
  - reflexivity.
  - reflexivity.
  - reflexivity.
  - reflexivity.
  - exact float_leb_pinf_top.
  - exact float_leb_ninf_bottom.
  - exact float_sqrt_nonneg.
Qed.

End JSOrder.

Module ExactOrder.
Import Exact.

Lemma Rltb_true (a b : R) : Rltb a b = true <-> (a < b)%R.
Proof. unfold Rltb. destruct (Rlt_dec a b); split; (congruence || tauto). Qed.

Lemma Rltb_false (a b : R) : Rltb a b = false <-> (b <= a)%R.
Proof.
  unfold Rltb. destruct (Rlt_dec a b); split; try congruence; try lra.
Qed.

Lemma Rleb_true (a b : R) : Rleb a b = true <-> (a <= b)%R.
Proof. unfold Rleb. destruct (Rle_dec a b); split; (congruence || tauto). Qed.

Lemma Rleb_false (a b : R) : Rleb a b = false <-> (b < a)%R.
Proof.
  unfold Rleb. destruct (Rle_dec a b); split; try congruence; try lra.
Qed.

Ltac xreal_order :=
  intros;
  repeat match goal with
  | x : xreal |- _ => destruct x
  end;
  simpl in *; try congruence;
  rewrite ?Rltb_true, ?Rltb_false, ?Rleb_true, ?Rleb_false in *;
  try lra.

#[global] Instance xreal_NumberOrder : NumberOrder xreal.
Proof.
  constructor; try solve [xreal_order].
  intros [a| | |]; simpl; try reflexivity.
  destruct (Rltb a 0) eqn:Ha; simpl; [reflexivity|].
  apply Rltb_false. apply sqrt_pos.
Qed.

End ExactOrder.

(** ** Running minimum and maximum *)

Section Extremes.
Context {num : Type} `{NumberOrder num}.

Lemma least_step (m d : num) (xs : list num) :
  least m xs -> least (keepMin m d) (xs ++ [d]).
Proof.
  intros (Hin & Hnum & Hlow). unfold keepMin.
  destruct (ltb d m) eqn:Hlt; repeat split.
  - apply in_or_app. right. now left.
  - eapply ltb_number_l; eassumption.
  - intros x Hx Hxnum. apply in_app_or in Hx as [Hx | [<- | []]].
    + eapply ltb_leb_trans; [eassumption | now apply Hlow].
    + exact Hxnum.
  - apply in_or_app. now left.
  - exact Hnum.
  - intros x Hx Hxnum. apply in_app_or in Hx as [Hx | [<- | []]].
    + now apply Hlow.
    + now apply leb_total.
Qed.

Lemma greatest_step (m d : num) (xs : list num) :
  greatest m xs -> greatest (keepMax m d) (xs ++ [d]).
Proof.
  intros (Hin & Hnum & Hup). unfold keepMax.
  destruct (ltb m d) eqn:Hlt; repeat split.
  - apply in_or_app. right. now left.
  - eapply ltb_number_r; eassumption.
  - intros x Hx Hxnum. apply in_app_or in Hx as [Hx | [<- | []]].
    + eapply leb_ltb_trans; [now apply Hup | eassumption].
    + exact Hxnum.
  - apply in_or_app. now left.
  - exact Hnum.
  - intros x Hx Hxnum. apply in_app_or in Hx as [Hx | [<- | []]].
    + now apply Hup.
    + now apply leb_total.
Qed.

Lemma fold_keepMin_least (ds seen : list num) (m : num) :
  least m seen -> least (fold_left keepMin ds m) (seen ++ ds).
Proof.
  revert seen m. induction ds as [|d ds IH]; intros seen m Hm; simpl.
  - now rewrite app_nil_r.
  - change (d :: ds) with ([d] ++ ds). rewrite app_assoc.
    apply IH. now apply least_step.
Qed.

Lemma fold_keepMax_greatest (ds seen : list num) (m : num) :
  greatest m seen -> greatest (fold_left keepMax ds m) (seen ++ ds).
Proof.
  revert seen m. induction ds as [|d ds IH]; intros seen m Hm; simpl.
  - now rewrite app_nil_r.
  - change (d :: ds) with ([d] ++ ds). rewrite app_assoc.
    apply IH. now apply greatest_step.
Qed.

Lemma least_singleton (m : num) : leb m m = true -> least m [m].
Proof.
  intros Hm. repeat split; [now left | exact Hm |].
  intros x [<- | []] _. exact Hm.
Qed.

Lemma greatest_singleton (m : num) : leb m m = true -> greatest m [m].
Proof.
  intros Hm. repeat split; [now left | exact Hm |].
  intros x [<- | []] _. exact Hm.
Qed.

Lemma running_min (ds : list num) (m : num) :
  leb m m = true -> least (fold_left keepMin ds m) (m :: ds).
Proof.
  intros Hm. apply (fold_keepMin_least ds [m] m). now apply least_singleton.
Qed.

Lemma running_max (ds : list num) (m : num) :
  leb m m = true -> greatest (fold_left keepMax ds m) (m :: ds).
Proof.
  intros Hm. apply (fold_keepMax_greatest ds [m] m). now apply greatest_singleton.
Qed.

Lemma least_minimumOf (m top : num) (ds : list num) :
  (forall x, leb x x = true -> leb x top = true) ->
  least m (top :: ds) ->
  (exists d, In d ds /\ isNumber d = true) -> minimumOf m ds.
Proof.
  intros Htop (Hin & Hnum & Hlow) (d & Hd & Hdnum). split.
  - intros x Hx Hxnum. apply Hlow; [now right | exact Hxnum].
  - destruct Hin as [<- | Hin].
    + exists d. split; [exact Hd|]. split; [now apply Htop|].
      apply Hlow; [now right | exact Hdnum].
    + exists m. now repeat split.
Qed.

Lemma greatest_maximumOf (m bottom : num) (ds : list num) :
  (forall x, In x ds -> leb x x = true -> leb bottom x = true) ->
  greatest m (bottom :: ds) ->
  (exists d, In d ds /\ isNumber d = true) -> maximumOf m ds.
Proof.
  intros Hbottom (Hin & Hnum & Hup) (d & Hd & Hdnum). split.
  - intros x Hx Hxnum. apply Hup; [now right | exact Hxnum].
  - destruct Hin as [<- | Hin].
    + exists d. split; [exact Hd|]. split.
      * apply Hup; [now right | exact Hdnum].
      * now apply Hbottom.
    + exists m. now repeat split.
Qed.

(** With no number among the candidates the starting value stays. *)
Lemma least_no_number (m top : num) (ds : list num) :
  least m (top :: ds) -> (forall d, In d ds -> isNumber d = false) -> m = top.
Proof.
  intros (Hin & Hnum & _) Hnone. destruct Hin as [<- | Hin]; [reflexivity|].
  apply Hnone in Hin. unfold isNumber in Hin. congruence.
Qed.

Lemma greatest_no_number (m bottom : num) (ds : list num) :
  greatest m (bottom :: ds) -> (forall d, In d ds -> isNumber d = false) ->
  m = bottom.
Proof.
  intros (Hin & Hnum & _) Hnone. destruct Hin as [<- | Hin]; [reflexivity|].
  apply Hnone in Hin. unfold isNumber in Hin. congruence.
Qed.

End Extremes.

(** ** The pairwise sweep as a pass over the list of pairs *)

Section Pairs.
Context {num : Type} `{Number num}.

Lemma fold_inner (cfg : Config) (query : list num) (saved : list (list num))
    (acc : Tally) :
  fold_left (sweepStep cfg query) saved acc =
  fold_left (pairStep cfg) (map (fun s => (query, s)) saved) acc.
Proof.
  revert acc. induction saved as [|s saved IH]; intros acc; simpl; [reflexivity|].
  apply IH.
Qed.

Lemma fold_outer (cfg : Config) (queryEmbeddings saved : list (list num))
    (acc : Tally) :
  fold_left (fun acc query => fold_left (sweepStep cfg query) saved acc)
            queryEmbeddings acc =
  fold_left (pairStep cfg) (pairs queryEmbeddings saved) acc.
Proof.
  revert acc. induction queryEmbeddings as [|q qs IH]; intros acc; simpl;
    [reflexivity|].
  rewrite fold_left_app, IH. f_equal. apply fold_inner.
Qed.

Lemma fold_minDistance (cfg : Config) (ps : list (list num * list num)) (acc : Tally) :
  minDistance (fold_left (pairStep cfg) ps acc) =
  fold_left keepMin (map pairDistance ps) (minDistance acc).
Proof.
  revert acc. induction ps as [|p ps IH]; intros acc; simpl; [reflexivity|].
  now rewrite IH.
Qed.

Lemma fold_maxSimilarity (cfg : Config) (ps : list (list num * list num)) (acc : Tally) :
  maxSimilarity (fold_left (pairStep cfg) ps acc) =
  fold_left keepMax (map pairSimilarity ps) (maxSimilarity acc).
Proof.
  revert acc. induction ps as [|p ps IH]; intros acc; simpl; [reflexivity|].
  now rewrite IH.
Qed.

Lemma fold_variantMatches (cfg : Config) (ps : list (list num * list num)) (acc : Tally) :
  variantMatches (fold_left (pairStep cfg) ps acc) =
  variantMatches acc + length (List.filter (passes cfg) ps).
Proof.
  revert acc. induction ps as [|p ps IH]; intros acc; simpl; [lia|].
  rewrite IH. unfold pairStep, sweepStep, passes, pairDistance, pairSimilarity.
  simpl. destruct (_ && _); simpl; lia.
Qed.

Lemma sweep_minDistance (cfg : Config) (queryEmbeddings saved : list (list num)) :
  minDistance (sweep cfg queryEmbeddings saved) =
  fold_left keepMin (map pairDistance (pairs queryEmbeddings saved)) pinf.
Proof. unfold sweep. now rewrite fold_outer, fold_minDistance. Qed.

Lemma sweep_maxSimilarity (cfg : Config) (queryEmbeddings saved : list (list num)) :
  maxSimilarity (sweep cfg queryEmbeddings saved) =
  fold_left keepMax (map pairSimilarity (pairs queryEmbeddings saved)) ninf.
Proof. unfold sweep. now rewrite fold_outer, fold_maxSimilarity. Qed.

Lemma sweep_variantMatches (cfg : Config) (queryEmbeddings saved : list (list num)) :
  variantMatches (sweep cfg queryEmbeddings saved) =
  length (List.filter (passes cfg) (pairs queryEmbeddings saved)).
Proof. unfold sweep. now rewrite fold_outer, fold_variantMatches. Qed.

Lemma in_pairs (queryEmbeddings saved : list (list num)) (p : list num * list num) :
  In p (pairs queryEmbeddings saved) <->
  In (fst p) queryEmbeddings /\ In (snd p) saved.
Proof.
  unfold pairs. rewrite in_flat_map. split.
  - intros (q & Hq & Hp). apply in_map_iff in Hp as (s & <- & Hs). now split.
  - intros [Hq Hs]. exists (fst p). split; [exact Hq|].
    apply in_map_iff. exists (snd p). split; [now destruct p | exact Hs].
Qed.

End Pairs.

(** ** The two endpoints, case by case *)

Section Endpoints.
Context {num : Type} `{Number num}.
Context {Path Buffer : Type} `{Collaborators (num := num) Path Buffer}.

Lemma augmented_first (imagePath : Path) :
  exists rest, getAugmentedEmbeddings imagePath = fullImageEmbedding imagePath :: rest.
Proof. unfold getAugmentedEmbeddings, augmentedBuffers. simpl. eauto. Qed.

Lemma augmented_unknown (imagePath : Path) :
  dimensionsKnown imagePath = false ->
  getAugmentedEmbeddings imagePath = [fullImageEmbedding imagePath].
Proof.
  unfold dimensionsKnown, getAugmentedEmbeddings, augmentedBuffers.
  intros Hk. destruct (width (metadata imagePath)), (height (metadata imagePath));
    try reflexivity.
  now rewrite Hk.
Qed.

Lemma augmented_known (imagePath : Path) :
  dimensionsKnown imagePath = true ->
  exists width_ height_,
    width (metadata imagePath) = Some width_ /\
    height (metadata imagePath) = Some height_ /\
    getAugmentedEmbeddings imagePath =
      [fullImageEmbedding imagePath;
       cropEmbedding imagePath width_ height_ (hundredths 92);
       cropEmbedding imagePath width_ height_ (hundredths 85)].
Proof.
  unfold dimensionsKnown, getAugmentedEmbeddings, augmentedBuffers.
  intros Hk.
  destruct (width (metadata imagePath)) as [w|] eqn:Hw; [|discriminate].
  destruct (height (metadata imagePath)) as [h|] eqn:Hh;
    [|now rewrite andb_false_r in Hk].
  exists w, h. rewrite Hk. now repeat split.
Qed.

Lemma flat_map_augmented_nonempty (fs : list Path) :
  fs <> [] -> flat_map getAugmentedEmbeddings fs <> [].
Proof.
  destruct fs as [|f fs]; [congruence|]. intros _. cbn [flat_map].
  destruct (augmented_first f) as [rest ->]. discriminate.
Qed.


Lemma averageEmbeddings_returns (e : list num) (es : list (list num)) :
  exists avg, averageEmbeddings (e :: es) = Returns avg.
Proof. unfold averageEmbeddings. eauto. Qed.

Lemma buildPersonProfile_returns (e : list num) (es : list (list num)) :
  exists avg,
    averageEmbeddings (e :: es) = Returns avg /\
    buildPersonProfile (e :: es) =
      Returns {| embeddings := e :: es;
                 centroid := normalizeEmbedding avg;
                 maxIntraDistance :=
                   fst (fold_left (intraStep (normalizeEmbedding avg)) (e :: es)
                                  (zero, pinf));
                 minIntraSimilarity :=
                   snd (fold_left (intraStep (normalizeEmbedding avg)) (e :: es)
                                  (zero, pinf)) |}.
Proof.
  destruct (averageEmbeddings_returns e es) as [avg Havg].
  exists avg. split; [exact Havg|].
  unfold buildPersonProfile. rewrite Havg. reflexivity.
Qed.

Lemma missingName_false (name : option string) :
  missingName name = false <-> exists n, name = Some n /\ n <> EmptyString.
Proof.
  unfold missingName. destruct name as [n|].
  - destruct (decide (n = EmptyString)) as [->|Hn]; split.
    + discriminate.
    + intros (n & [= <-] & Hn). congruence.
    + eauto.
    + reflexivity.
  - split; [discriminate | intros (n & Hn & _); discriminate].
Qed.

Lemma noFiles_false (files : option (list Path)) :
  noFiles files = false <-> exists fs, files = Some fs /\ fs <> [].
Proof.
  unfold noFiles. destruct files as [[|f fs]|]; simpl; split;
    try discriminate; try reflexivity.
  - intros (fs & [= <-] & Hfs). congruence.
  - intros _. eauto.
  - intros (fs & Hfs & _). discriminate.
Qed.

(** An accepted enrollment: the profile of all variants of all images is
    built, written under the name, and reported. *)
Lemma register_accepted (store : gmap string Profile) (n : string) (fs : list Path) :
  n <> EmptyString -> fs <> [] ->
  exists profile,
    buildPersonProfile (flat_map getAugmentedEmbeddings fs) = Returns profile /\
    register store (Some n) (Some fs) =
      Returns (json (Registered "Person Registered"
                                (length (flat_map getAugmentedEmbeddings fs))
                                (maxIntraDistance profile)
                                (minIntraSimilarity profile)),
               <[n := profile]> store).
Proof.
  intros Hn Hfs. unfold register.
  assert (missingName (Some n) = false) as -> by (apply missingName_false; eauto).
  assert (noFiles (Some fs) = false) as -> by (apply noFiles_false; eauto).
  simpl.
  destruct (flat_map getAugmentedEmbeddings fs) as [|e es] eqn:Hemb;
    [now apply flat_map_augmented_nonempty in Hemb|].
  destruct (buildPersonProfile_returns e es) as (avg & _ & ->).
  eexists. split; reflexivity.
Qed.

Lemma againstFirst_returns (f : list num -> list num -> num)
    (centroid_ first : list num) (rest : list (list num)) :
  againstFirst f centroid_ (first :: rest) = Returns (f centroid_ first).
Proof. reflexivity. Qed.

(** A verification against a stored profile. *)
Lemma find_registered (cfg : Config) (store : gmap string Profile)
    (n : string) (imagePath : Path) (profile : Profile) :
  n <> EmptyString -> store !! n = Some profile ->
  find cfg store (Some n) (Some imagePath) =
    let t := sweep cfg (getAugmentedEmbeddings imagePath) (parsedEmbeddings profile) in
    Returns (json (Verdict
                     (if isMatch cfg t then "Person Found" else "Person Not Found")
                     t
                     (euclideanDistance (parsedCentroid profile)
                                        (fullImageEmbedding imagePath))
                     (cosineSimilarity (parsedCentroid profile)
                                       (fullImageEmbedding imagePath))
                     (DISTANCE_THRESHOLD cfg) (COSINE_THRESHOLD cfg))).
Proof.
  intros Hn Hp. unfold find.
  assert (missingName (Some n) = false) as -> by (apply missingName_false; eauto).
  simpl. rewrite Hp.
  destruct (augmented_first imagePath) as [rest ->].
  reflexivity.
Qed.

End Endpoints.

(** ** Rejected and accepted requests *)

Section Requests.
Context {num : Type} `{Number num}.
Context {Path Buffer : Type} `{Collaborators (num := num) Path Buffer}.

Lemma register_rejects_name (store : gmap string Profile)
    (name : option string) (files : option (list Path)) :
  name = None \/ name = Some EmptyString ->
  register store name files =
    Returns (status400 (MessageOnly "Name is required"), store).
Proof. intros [-> | ->]; reflexivity. Qed.

Lemma register_rejects_files (store : gmap string Profile)
    (n : string) (files : option (list Path)) :
  n <> EmptyString -> files = None \/ files = Some [] ->
  register store (Some n) files =
    Returns (status400 (MessageOnly "At least one image required"), store).
Proof.
  intros Hn Hf. unfold register.
  assert (missingName (Some n) = false) as -> by (apply missingName_false; eauto).
  destruct Hf as [-> | ->]; reflexivity.
Qed.

Lemma find_rejects_name (cfg : Config) (store : gmap string Profile)
    (name : option string) (file : option Path) :
  name = None \/ name = Some EmptyString ->
  find cfg store name file = Returns (status400 (MessageOnly "Name required")).
Proof. intros [-> | ->]; reflexivity. Qed.

Lemma find_rejects_file (cfg : Config) (store : gmap string Profile) (n : string) :
  n <> EmptyString ->
  find cfg store (Some n) None = Returns (status400 (MessageOnly "Image required")).
Proof.
  intros Hn. unfold find.
  assert (missingName (Some n) = false) as -> by (apply missingName_false; eauto).
  reflexivity.
Qed.

Lemma name_cases (name : option string) :
  (name = None \/ name = Some EmptyString) \/
  exists n, name = Some n /\ n <> EmptyString.
Proof.
  destruct name as [n|]; [|now left; left].
  destruct (decide (n = EmptyString)) as [->|Hn]; [now left; right | right; eauto].
Qed.

Lemma files_cases (files : option (list Path)) :
  (files = None \/ files = Some []) \/ exists fs, files = Some fs /\ fs <> [].
Proof.
  destruct files as [[|f fs]|]; [now left; right | right | now left; left].
  exists (f :: fs). now split.
Qed.

(** What an enrollment does to the directory: nothing, or one profile
    built from at least one embedding is written under the name. *)
Lemma register_inv (store store' : gmap string Profile)
    (name : option string) (files : option (list Path)) (resp : Response) :
  register store name files = Returns (resp, store') ->
  (status resp = 400 /\ store' = store) \/
  exists n fs profile,
    name = Some n /\ n <> EmptyString /\ files = Some fs /\ fs <> [] /\
    buildPersonProfile (flat_map getAugmentedEmbeddings fs) = Returns profile /\
    status resp = 200 /\ store' = <[n := profile]> store.
Proof.
  intros Hr.
  destruct (name_cases name) as [Hname | (n & -> & Hn)].
  { rewrite (register_rejects_name _ _ _ Hname) in Hr.
    injection Hr as <- <-. now left. }
  destruct (files_cases files) as [Hfiles | (fs & -> & Hfs)].
  { rewrite (register_rejects_files _ _ _ Hn Hfiles) in Hr.
    injection Hr as <- <-. now left. }
  destruct (register_accepted store n fs Hn Hfs) as (profile & Hb & Hreg).
  rewrite Hreg in Hr. injection Hr as <- <-.
  right. exists n, fs, profile. now repeat split.
Qed.

Lemma register_returns (store : gmap string Profile)
    (name : option string) (files : option (list Path)) :
  exists r, register store name files = Returns r.
Proof.
  destruct (name_cases name) as [Hname | (n & -> & Hn)].
  { rewrite (register_rejects_name _ _ _ Hname). eauto. }
  destruct (files_cases files) as [Hfiles | (fs & -> & Hfs)].
  { rewrite (register_rejects_files _ _ _ Hn Hfiles). eauto. }
  destruct (register_accepted store n fs Hn Hfs) as (profile & _ & ->). eauto.
Qed.

Lemma find_not_stored (cfg : Config) (store : gmap string Profile)
    (n : string) (imagePath : Path) :
  n <> EmptyString -> store !! n = None ->
  find cfg store (Some n) (Some imagePath) =
    Returns (json (MessageOnly "Person not registered")).
Proof.
  intros Hn Hp. unfold find.
  assert (missingName (Some n) = false) as -> by (apply missingName_false; eauto).
  simpl. now rewrite Hp.
Qed.

Lemma find_returns (cfg : Config) (store : gmap string Profile)
    (name : option string) (file : option Path) :
  exists r, find cfg store name file = Returns r.
Proof.
  destruct (name_cases name) as [Hname | (n & -> & Hn)].
  { rewrite (find_rejects_name _ _ _ _ Hname). eauto. }
  destruct file as [imagePath|]; [|rewrite (find_rejects_file _ _ _ Hn); eauto].
  destruct (store !! n) as [profile|] eqn:Hp.
  - rewrite (find_registered _ _ _ _ _ Hn Hp). eauto.
  - rewrite (find_not_stored _ _ _ _ Hn Hp). eauto.
Qed.

Lemma reachable_profile (store : gmap string Profile) (n : string) (profile : Profile) :
  reachable store -> store !! n = Some profile ->
  exists fs : list Path,
    fs <> [] /\
    buildPersonProfile (flat_map getAugmentedEmbeddings fs) = Returns profile.
Proof.
  intros Hreach. revert n profile.
  induction Hreach as [|store store' name files resp _ IH Hreg]; intros n profile Hp.
  - rewrite lookup_empty in Hp. discriminate.
  - apply register_inv in Hreg
      as [[_ ->] | (m & fs & built & _ & _ & _ & Hfs & Hb & _ & ->)];
      [now apply (IH n)|].
    destruct (decide (m = n)) as [->|Hmn].
    + rewrite lookup_insert_eq in Hp. injection Hp as <-. eauto.
    + rewrite lookup_insert_ne in Hp by exact Hmn. now apply (IH n).
Qed.

Lemma buildPersonProfile_embeddings (es : list (list num)) (profile : Profile) :
  buildPersonProfile es = Returns profile -> es <> [] /\ embeddings profile = es.
Proof.
  destruct es as [|e es]; [discriminate|].
  destruct (buildPersonProfile_returns e es) as (avg & _ & ->).
  intros [= <-]. now split.
Qed.

End Requests.

(** ** The loops over indices as passes over the paired elements *)

Section IndexLoops.
Context {num : Type} `{Number num}.

Lemma indexed_pairs (a b : list num) :
  length a = length b ->
  map (fun i => (at_ a i, at_ b i)) (seq 0 (length a)) = combine a b.
Proof.
  revert b. induction a as [|x a IH]; intros [|y b] Hlen; try discriminate;
    [reflexivity|].
  cbn [length seq map combine]. f_equal.
  rewrite <- seq_shift, map_map. apply IH. simpl in Hlen. lia.
Qed.

Lemma indexed_self (a : list num) :
  map (at_ a) (seq 0 (length a)) = a.
Proof.
  induction a as [|x a IH]; [reflexivity|].
  cbn [length seq map]. f_equal.
  rewrite <- seq_shift, map_map. exact IH.
Qed.

Lemma fold_left_indexed {A B C : Type} (f : A -> B -> A) (g : C -> B)
    (l : list C) (z : A) :
  fold_left (fun acc i => f acc (g i)) l z = fold_left f (map g l) z.
Proof.
  revert z. induction l as [|i l IH]; intros z; simpl; [reflexivity | apply IH].
Qed.

Lemma cosineSimilarity_dotProduct (a b : list num) :
  length a = length b -> cosineSimilarity a b = dotProduct a b.
Proof.
  intros Hlen. unfold cosineSimilarity, dotProduct.
  rewrite <- (indexed_pairs a b Hlen).
  exact (fold_left_indexed (fun dot p => add dot (mul (fst p) (snd p)))
                           (fun i => (at_ a i, at_ b i)) _ _).
Qed.

Lemma euclideanDistance_squaredDistance (a b : list num) :
  length a = length b -> euclideanDistance a b = sqrt (squaredDistance a b).
Proof.
  intros Hlen. unfold euclideanDistance, squaredDistance. f_equal.
  rewrite <- (indexed_pairs a b Hlen).
  exact (fold_left_indexed (fun sum p => add sum (pow2 (sub (fst p) (snd p))))
                           (fun i => (at_ a i, at_ b i)) _ _).
Qed.

Lemma combine_self (v : list num) : combine v v = map (fun x => (x, x)) v.
Proof. induction v as [|x v IH]; simpl; [reflexivity | now rewrite IH]. Qed.


End IndexLoops.

(** ** The embedding utilities in exact arithmetic *)

Module ExactFacts.
Import Exact ExactOrder.
Local Open Scope R_scope.

Lemma sumOver_shift {A : Type} (h : A -> R) (l : list A) (z : R) :
  sumOver h l z = z + sumOver h l 0.
Proof.
  unfold sumOver. revert z. induction l as [|x l IH]; intros z; simpl; [lra|].
  rewrite (IH (z + h x)), (IH (0 + h x)). lra.
Qed.

Lemma sumOver_cons {A : Type} (h : A -> R) (x : A) (l : list A) :
  sumOver h (x :: l) 0 = h x + sumOver h l 0.
Proof.
  unfold sumOver at 1. simpl. fold (sumOver h l (0 + h x)).
  rewrite sumOver_shift. lra.
Qed.

Lemma sumOver_nonneg {A : Type} (h : A -> R) (l : list A) :
  (forall x, 0 <= h x) -> 0 <= sumOver h l 0.
Proof.
  intros Hh. induction l as [|x l IH]; [unfold sumOver; simpl; lra|].
  rewrite sumOver_cons. specialize (Hh x). lra.
Qed.

Lemma sumOver_zero {A : Type} (h : A -> R) (l : list A) :
  (forall x, 0 <= h x) -> sumOver h l 0 = 0 -> forall x, In x l -> h x = 0.
Proof.
  intros Hh. induction l as [|y l IH]; intros Hsum x Hx; [destruct Hx|].
  rewrite sumOver_cons in Hsum.
  pose proof (Hh y) as Hy. pose proof (sumOver_nonneg h l Hh) as Hl.
  destruct Hx as [<- | Hx]; [lra|]. apply IH; [lra | exact Hx].
Qed.

Lemma sumOver_ext {A : Type} (h k : A -> R) (l : list A) (z : R) :
  (forall x, In x l -> h x = k x) -> sumOver h l z = sumOver k l z.
Proof.
  unfold sumOver. revert z. induction l as [|x l IH]; intros z Hext; simpl;
    [reflexivity|].
  rewrite (Hext x) by now left. apply IH. intros y Hy. apply Hext. now right.
Qed.

Lemma sumOver_scale {A : Type} (c : R) (h : A -> R) (l : list A) :
  sumOver (fun x => c * h x) l 0 = c * sumOver h l 0.
Proof.
  induction l as [|x l IH]; [unfold sumOver; simpl; lra|].
  rewrite !sumOver_cons, IH. lra.
Qed.

Lemma sumOver_map {A B : Type} (h : B -> R) (g : A -> B) (l : list A) (z : R) :
  sumOver h (map g l) z = sumOver (fun x => h (g x)) l z.
Proof.
  unfold sumOver. revert z. induction l as [|x l IH]; intros z; simpl;
    [reflexivity | apply IH].
Qed.

Lemma square_nonneg (x : R) : 0 <= x * x.
Proof. nra. Qed.

Lemma sumsqR_nonneg (v : list R) : 0 <= sumsqR v.
Proof. apply sumOver_nonneg. intros x. apply square_nonneg. Qed.

Lemma sqdistR_nonneg (a b : list R) : 0 <= sqdistR a b.
Proof. apply sumOver_nonneg. intros p. apply square_nonneg. Qed.

(** A left fold of additions over finite numbers stays finite. *)
Lemma fold_xadd_fin {A : Type} (g : A -> xreal) (h : A -> R) (l : list A) (z : R) :
  (forall x, In x l -> g x = Fin (h x)) ->
  fold_left (fun acc x => xadd acc (g x)) l (Fin z) = Fin (sumOver h l z).
Proof.
  unfold sumOver. revert z. induction l as [|x l IH]; intros z Hg; simpl;
    [reflexivity|].
  rewrite (Hg x) by now left. simpl. apply IH. intros y Hy. apply Hg. now right.
Qed.

Lemma combine_fin (a b : list R) :
  combine (fin a) (fin b) = map (fun p => (Fin (fst p), Fin (snd p))) (combine a b).
Proof.
  revert b. induction a as [|x a IH]; intros [|y b]; simpl; try reflexivity.
  now rewrite <- IH.
Qed.

Lemma length_fin (v : list R) : length (fin v) = length v.
Proof. apply length_map. Qed.

Lemma sumSquares_fin (v : list R) : sumSquares (fin v) = Fin (sumsqR v).
Proof.
  unfold sumSquares, fin, sumsqR. simpl.
  rewrite <- (fold_left_indexed (fun sum val => xadd sum (xmul val val)) Fin v (Fin 0)).
  now apply (fold_xadd_fin (fun x => xmul (Fin x) (Fin x)) (fun x => x * x)).
Qed.

Lemma dotProduct_fin (a b : list R) : dotProduct (fin a) (fin b) = Fin (dotR a b).
Proof.
  unfold dotProduct, dotR. rewrite combine_fin. simpl.
  rewrite <- (fold_left_indexed (fun dot p => xadd dot (xmul (fst p) (snd p)))
                                (fun p => (Fin (fst p), Fin (snd p)))
                                (combine a b) (Fin 0)).
  now apply (fold_xadd_fin (fun p => xmul (Fin (fst p)) (Fin (snd p)))
                           (fun p => fst p * snd p)).
Qed.

Lemma squaredDistance_fin (a b : list R) :
  squaredDistance (fin a) (fin b) = Fin (sqdistR a b).
Proof.
  unfold squaredDistance, sqdistR, pow2. rewrite combine_fin. simpl.
  rewrite <- (fold_left_indexed
                (fun sum p => xadd sum (xmul (xsub (fst p) (snd p))
                                             (xsub (fst p) (snd p))))
                (fun p => (Fin (fst p), Fin (snd p)))
                (combine a b) (Fin 0)).
  now apply (fold_xadd_fin
               (fun p => xmul (xsub (Fin (fst p)) (Fin (snd p)))
                              (xsub (Fin (fst p)) (Fin (snd p))))
               (fun p => (fst p + - snd p) * (fst p + - snd p))).
Qed.

Lemma xsqrt_nonneg (x : R) : 0 <= x -> xsqrt (Fin x) = Fin (R_sqrt.sqrt x).
Proof.
  intros Hx. simpl. destruct (Rltb x 0) eqn:Hlt; [|reflexivity].
  apply Rltb_true in Hlt. lra.
Qed.

Lemma cosineSimilarity_fin (a b : list R) :
  length a = length b -> cosineSimilarity (fin a) (fin b) = Fin (dotR a b).
Proof.
  intros Hlen. rewrite cosineSimilarity_dotProduct by now rewrite !length_fin.
  apply dotProduct_fin.
Qed.

Lemma euclideanDistance_fin (a b : list R) :
  length a = length b ->
  euclideanDistance (fin a) (fin b) = Fin (R_sqrt.sqrt (sqdistR a b)).
Proof.
  intros Hlen.
  rewrite euclideanDistance_squaredDistance by now rewrite !length_fin.
  rewrite squaredDistance_fin. apply xsqrt_nonneg, sqdistR_nonneg.
Qed.

Lemma sqdistR_cons (x y : R) (a b : list R) :
  sqdistR (x :: a) (y :: b) = (x + - y) * (x + - y) + sqdistR a b.
Proof. unfold sqdistR. simpl combine. now rewrite sumOver_cons. Qed.

Lemma sqdistR_zero (a b : list R) :
  length a = length b -> sqdistR a b = 0 -> a = b.
Proof.
  revert b. induction a as [|x a IH]; intros [|y b] Hlen Hsum; try discriminate;
    [reflexivity|].
  rewrite sqdistR_cons in Hsum.
  pose proof (square_nonneg (x + - y)) as Hsq.
  pose proof (sqdistR_nonneg a b) as Hrest.
  assert (x = y) as -> by nra.
  f_equal. apply IH; [simpl in Hlen; lia | lra].
Qed.

Lemma sqdistR_self (a : list R) : sqdistR a a = 0.
Proof.
  induction a as [|x a IH]; [reflexivity|]. rewrite sqdistR_cons, IH. lra.
Qed.

(** Two different vectors of the same length are at a positive distance. *)
Lemma distance_positive (a b : list R) :
  length a = length b -> a <> b ->
  xleb (euclideanDistance (fin a) (fin b)) (Fin 0) = false.
Proof.
  intros Hlen Hne. rewrite euclideanDistance_fin by exact Hlen. simpl.
  apply Rleb_false. apply sqrt_lt_R0.
  pose proof (sqdistR_nonneg a b) as Hnn.
  destruct (Req_dec_T (sqdistR a b) 0) as [Hz|Hnz]; [|lra].
  now apply sqdistR_zero in Hz.
Qed.

Lemma sumsqR_zero (v : list R) : sumsqR v = 0 -> forall x, In x v -> x = 0.
Proof.
  intros Hsum x Hx.
  pose proof (sumOver_zero (fun x => x * x) v square_nonneg Hsum x Hx) as Hsq.
  simpl in Hsq. nra.
Qed.

Lemma sumsqR_of_zeros (v : list R) : (forall x, In x v -> x = 0) -> sumsqR v = 0.
Proof.
  induction v as [|x v IH]; intros Hz; [reflexivity|].
  unfold sumsqR. rewrite sumOver_cons. fold (sumsqR v).
  rewrite IH by (intros y Hy; apply Hz; now right).
  rewrite (Hz x) by now left. lra.
Qed.

Lemma falsy_fin (x : R) : falsy (Fin x) = true <-> x = 0.
Proof.
  unfold falsy. simpl. rewrite negb_true_iff, orb_false_iff, !Rltb_false. lra.
Qed.

Lemma isFinite_fin (x : R) : isFinite (Fin x) = true.
Proof. reflexivity. Qed.

Lemma xdiv_fin (x n : R) : n <> 0 -> xdiv (Fin x) (Fin n) = Fin (x / n).
Proof.
  intros Hn. simpl.
  destruct (Rltb n 0) eqn:Hneg; [reflexivity|].
  destruct (Rltb 0 n) eqn:Hpos; [reflexivity|].
  apply Rltb_false in Hneg, Hpos. lra.
Qed.

Lemma norm_fin (v : list R) : sqrt (sumSquares (fin v)) = Fin (normR v).
Proof. rewrite sumSquares_fin. exact (xsqrt_nonneg _ (sumsqR_nonneg v)). Qed.

Lemma normalize_fin_zero (v : list R) :
  sumsqR v = 0 -> normalizeEmbedding (fin v) = fin v.
Proof.
  intros Hz. unfold normalizeEmbedding.
  rewrite norm_fin. unfold normR. rewrite Hz, sqrt_0.
  assert (falsy (Fin 0) = true) as -> by now apply falsy_fin.
  reflexivity.
Qed.

Lemma normalize_fin (v : list R) :
  sumsqR v <> 0 ->
  normalizeEmbedding (fin v) = fin (map (fun x => x / normR v) v).
Proof.
  intros Hnz. unfold normalizeEmbedding.
  pose proof (sumsqR_nonneg v) as Hnn.
  rewrite norm_fin.
  assert (0 < normR v) as Hpos by (apply sqrt_lt_R0; lra).
  assert (falsy (Fin (normR v)) = false) as ->.
  { destruct (falsy (Fin (normR v))) eqn:Hf; [|reflexivity].
    apply falsy_fin in Hf. lra. }
  rewrite isFinite_fin. simpl. unfold fin. rewrite !map_map.
  apply map_ext. intros x. apply xdiv_fin. lra.
Qed.

Lemma sumsqR_scaled (c : R) (v : list R) :
  sumsqR (map (fun x => x / c) v) = sumsqR v / (c * c).
Proof.
  unfold sumsqR. rewrite sumOver_map.
  destruct (Req_dec_T c 0) as [-> | Hc].
  - rewrite (sumOver_ext _ (fun x => 0 * (x * x))).
    + rewrite sumOver_scale. unfold Rdiv. rewrite Rmult_0_r, Rinv_0. lra.
    + intros x _. unfold Rdiv. rewrite Rinv_0. lra.
  - rewrite (sumOver_ext _ (fun x => / (c * c) * (x * x))).
    + rewrite sumOver_scale. unfold Rdiv. lra.
    + intros x _. field. exact Hc.
Qed.

(** In exact arithmetic a vector that is not all zeros is normalized to
    norm 1. *)
Lemma normalized_norm (v : list R) :
  sumsqR v <> 0 ->
  sqrt (sumSquares (normalizeEmbedding (fin v))) = Fin 1.
Proof.
  intros Hnz. pose proof (sumsqR_nonneg v) as Hnn.
  rewrite normalize_fin by exact Hnz.
  rewrite norm_fin. unfold normR at 1.
  rewrite sumsqR_scaled. unfold normR.
  rewrite sqrt_def by exact Hnn.
  replace (sumsqR v / sumsqR v) with 1 by (field; exact Hnz).
  now rewrite sqrt_1.
Qed.

(** *** The average and the profile of identical embeddings *)

Lemma length_zipAdd (s e : list R) :
  length s = length e -> length (zipAdd s e) = length s.
Proof.
  intros Hlen. unfold zipAdd. rewrite length_map, length_combine. lia.
Qed.

Lemma sum_step_fin (s e : list R) :
  length s = length e ->
  map (fun i => xadd (at_ (fin s) i) (at_ (fin e) i)) (seq 0 (length s)) =
  fin (zipAdd s e).
Proof.
  intros Hlen.
  pose proof (indexed_pairs (fin s) (fin e)) as Hpairs.
  rewrite !length_fin in Hpairs. specialize (Hpairs Hlen).
  transitivity (map (fun p => xadd (fst p) (snd p))
                    (map (fun i => (at_ (fin s) i, at_ (fin e) i))
                         (seq 0 (length s)))).
  { now rewrite map_map. }
  rewrite Hpairs, combine_fin. unfold fin, zipAdd. now rewrite !map_map.
Qed.

Lemma sum_fold_fin (L : nat) (es : list (list R)) (s : list R) :
  length s = L -> (forall e, In e es -> length e = L) ->
  fold_left (fun sum emb => map (fun i => add (at_ sum i) (at_ emb i)) (seq 0 L))
            (map fin es) (fin s) =
  fin (fold_left zipAdd es s).
Proof.
  revert s. induction es as [|e es IH]; intros s Hs Hes; simpl; [reflexivity|].
  assert (length s = length e) as Hse by (rewrite (Hes e) by (now left); exact Hs).
  rewrite <- Hs at 1. rewrite (sum_step_fin s e Hse).
  apply IH; [rewrite length_zipAdd by exact Hse; exact Hs|].
  intros e' He'. apply Hes. now right.
Qed.

Lemma INR_length_pos {A : Type} (x : A) (l : list A) : 0 < INR (length (x :: l)).
Proof. apply lt_0_INR. simpl. lia. Qed.

(** In exact arithmetic the average of vectors of one length is their
    element-wise mean. *)
Lemma average_fin (e : list R) (es : list (list R)) :
  (forall e', In e' es -> length e' = length e) ->
  averageEmbeddings (map fin (e :: es)) = Returns (fin (meanR (e :: es))).
Proof.
  intros Hes. unfold averageEmbeddings, meanR.
  cbn [map]. rewrite length_fin.
  change (repeat zero (length e)) with (repeat (Fin 0) (length e)).
  replace (repeat (Fin 0) (length e)) with (fin (repeat 0 (length e)))
    by apply map_repeat.
  change (fin e :: map fin es) with (map fin (e :: es)).
  rewrite (sum_fold_fin (length e) (e :: es) (repeat 0 (length e)));
    [|apply repeat_length|].
  - f_equal. unfold fin. rewrite !map_map. apply map_ext. intros x.
    rewrite length_map. simpl ofNat. apply xdiv_fin.
    pose proof (INR_length_pos e es). lra.
  - intros e' [<- | He']; [reflexivity | now apply Hes].
Qed.

Lemma zipAdd_scaled (c : R) (e : list R) :
  zipAdd (map (fun x => c * x) e) e = map (fun x => (c + 1) * x) e.
Proof.
  unfold zipAdd. induction e as [|x e IH]; simpl; [reflexivity|].
  rewrite IH. f_equal. lra.
Qed.

Lemma sum_of_copies (e : list R) (k : nat) (c : R) :
  fold_left zipAdd (repeat e k) (map (fun x => c * x) e) =
  map (fun x => (c + INR k) * x) e.
Proof.
  revert c. induction k as [|k IH]; intros c.
  - simpl. apply map_ext. intros x. lra.
  - cbn [repeat fold_left]. rewrite zipAdd_scaled, IH.
    apply map_ext. intros x. rewrite S_INR. lra.
Qed.

Lemma mean_of_copies (e : list R) (k : nat) : meanR (repeat e (S k)) = e.
Proof.
  unfold meanR. cbn [repeat]. change (e :: repeat e k) with (repeat e (S k)).
  replace (repeat 0 (length e)) with (map (fun x => 0 * x) e).
  - rewrite sum_of_copies, map_map, repeat_length.
    rewrite <- (map_id e) at 2. apply map_ext. intros x.
    pose proof (lt_0_INR (S k) ltac:(lia)). field. lra.
  - induction e as [|x e IH]; simpl; [reflexivity|]. rewrite IH. f_equal. lra.
Qed.

Lemma normalize_unit (e : list R) : sumsqR e = 1 -> normalizeEmbedding (fin e) = fin e.
Proof.
  intros Hu. rewrite normalize_fin by lra. unfold normR. rewrite Hu, sqrt_1.
  f_equal. rewrite <- (map_id e) at 2. apply map_ext. intros x. field.
Qed.

Lemma dotR_self (e : list R) : dotR e e = sumsqR e.
Proof.
  unfold dotR, sumsqR. rewrite combine_self.
  exact (sumOver_map (fun p => fst p * snd p) (fun x => (x, x)) e 0).
Qed.

Lemma intraStep_unit (e : list R) (m : xreal * xreal) :
  sumsqR e = 1 -> (m = (Fin 0, PInf) \/ m = (Fin 0, Fin 1)) ->
  intraStep (fin e) m (fin e) = (Fin 0, Fin 1).
Proof.
  intros Hu Hm. unfold intraStep.
  rewrite euclideanDistance_fin, cosineSimilarity_fin by reflexivity.
  rewrite sqdistR_self, sqrt_0, dotR_self, Hu.
  destruct Hm as [-> | ->]; simpl.
  - assert (Rltb 0 0 = false) as -> by (apply Rltb_false; lra). reflexivity.
  - assert (Rltb 0 0 = false) as -> by (apply Rltb_false; lra).
    assert (Rltb 1 1 = false) as -> by (apply Rltb_false; lra). reflexivity.
Qed.

Lemma intra_of_copies (e : list R) (k : nat) (m : xreal * xreal) :
  sumsqR e = 1 -> (m = (Fin 0, PInf) \/ m = (Fin 0, Fin 1)) ->
  fold_left (intraStep (fin e)) (repeat (fin e) (S k)) m = (Fin 0, Fin 1).
Proof.
  intros Hu. revert m. induction k as [|k IH]; intros m Hm.
  - simpl. now apply intraStep_unit.
  - cbn [repeat fold_left]. rewrite (intraStep_unit e m Hu Hm).
    apply (IH (Fin 0, Fin 1)). now right.
Qed.

Lemma average_of_copies (e : list R) (k : nat) :
  averageEmbeddings (map fin (repeat e (S k))) = Returns (fin e).
Proof.
  rewrite <- (mean_of_copies e k) at 2.
  apply (average_fin e (repeat e k)).
  intros e' He'. now apply repeat_spec in He' as ->.
Qed.

(** In exact arithmetic the profile of [S k] copies of a vector of norm 1
    has that vector as centroid, maximal distance 0 and minimal
    similarity 1. *)
Lemma profile_of_copies (e : list R) (k : nat) :
  sumsqR e = 1 ->
  buildPersonProfile (repeat (fin e) (S k)) =
    Returns {| embeddings := repeat (fin e) (S k);
               centroid := fin e;
               maxIntraDistance := Fin 0;
               minIntraSimilarity := Fin 1 |}.
Proof.
  intros Hu. unfold buildPersonProfile.
  replace (repeat (fin e) (S k)) with (map fin (repeat e (S k)))
    by apply map_repeat.
  rewrite average_of_copies.
  cbn [mbind outcome_bind]. rewrite (normalize_unit e Hu).
  rewrite map_repeat.
  rewrite (intra_of_copies e k (zero, pinf) Hu) by now left.
  reflexivity.
Qed.

End ExactFacts.

(** ** The sweep, the decision and the dispersion statistics, for any arithmetic
    whose comparisons obey [NumberOrder] *)

Section Ordered.
Context {num : Type} `{NumberOrder num}.

Lemma sweep_characterised (cfg : Config) (queryEmbeddings saved : list (list num)) :
  least (minDistance (sweep cfg queryEmbeddings saved))
        (pinf :: map pairDistance (pairs queryEmbeddings saved)) /\
  greatest (maxSimilarity (sweep cfg queryEmbeddings saved))
           (ninf :: map pairSimilarity (pairs queryEmbeddings saved)) /\
  variantMatches (sweep cfg queryEmbeddings saved) =
    length (List.filter (passes cfg) (pairs queryEmbeddings saved)).
Proof.
  rewrite sweep_minDistance, sweep_maxSimilarity, sweep_variantMatches.
  split; [apply running_min, leb_pinf_pinf|].
  split; [apply running_max, leb_ninf_ninf | reflexivity].
Qed.

(** With a threshold of 0 the distance test cannot pass unless some pair is
    at a computed distance of 0 (or -0). *)
Lemma zero_threshold_blocks (cfg : Config) (queryEmbeddings saved : list (list num)) :
  DISTANCE_THRESHOLD cfg = zero ->
  (forall q s, In q queryEmbeddings -> In s saved ->
               leb (euclideanDistance s q) zero = false) ->
  isMatch cfg (sweep cfg queryEmbeddings saved) = false.
Proof.
  intros Hdt Hpos.
  destruct (sweep_characterised cfg queryEmbeddings saved) as ((Hin & _) & _).
  unfold isMatch. rewrite Hdt.
  assert (leb (minDistance (sweep cfg queryEmbeddings saved)) zero = false) as ->;
    [|reflexivity].
  destruct Hin as [<- | Hin]; [apply leb_pinf_zero|].
  apply in_map_iff in Hin as ([q s] & <- & Hp).
  apply in_pairs in Hp as [Hq Hs]. now apply Hpos.
Qed.

Lemma intra_max (c : list num) (es : list (list num)) (acc : num * num) :
  fst (fold_left (intraStep c) es acc) =
  fold_left keepMax (map (fun e => euclideanDistance e c) es) (fst acc).
Proof.
  revert acc. induction es as [|e es IH]; intros acc; simpl; [reflexivity|].
  now rewrite IH.
Qed.

Lemma intra_min (c : list num) (es : list (list num)) (acc : num * num) :
  snd (fold_left (intraStep c) es acc) =
  fold_left keepMin (map (fun e => cosineSimilarity e c) es) (snd acc).
Proof.
  revert acc. induction es as [|e es IH]; intros acc; simpl; [reflexivity|].
  now rewrite IH.
Qed.

Lemma distance_nonneg (a b : list num) :
  leb (euclideanDistance a b) (euclideanDistance a b) = true ->
  leb zero (euclideanDistance a b) = true.
Proof.
  intros Hnum. apply leb_total; [exact Hnum | apply leb_zero_zero |].
  unfold euclideanDistance. apply sqrt_nonneg.
Qed.

Lemma exists_in_map {A : Type} (f : A -> num) (l : list A) :
  (exists x, In x l /\ isNumber (f x) = true) ->
  exists d, In d (map f l) /\ isNumber d = true.
Proof. intros (x & Hx & Hnum). exists (f x). split; [now apply in_map | exact Hnum]. Qed.

Lemma forall_in_map {A : Type} (f : A -> num) (l : list A) :
  (forall x, In x l -> isNumber (f x) = false) ->
  forall d, In d (map f l) -> isNumber d = false.
Proof. intros Hall d Hd. apply in_map_iff in Hd as (x & <- & Hx). now apply Hall. Qed.

(** The extremes and the count of the sweep. *)
Lemma sweep_extremes (cfg : Config) (queryEmbeddings saved : list (list num)) :
  let t := sweep cfg queryEmbeddings saved in
  let ps := pairs queryEmbeddings saved in
  ((exists p, In p ps /\ isNumber (pairDistance p) = true) ->
   minimumOf (minDistance t) (map pairDistance ps)) /\
  ((forall p, In p ps -> isNumber (pairDistance p) = false) ->
   minDistance t = pinf) /\
  ((exists p, In p ps /\ isNumber (pairSimilarity p) = true) ->
   maximumOf (maxSimilarity t) (map pairSimilarity ps)) /\
  ((forall p, In p ps -> isNumber (pairSimilarity p) = false) ->
   maxSimilarity t = ninf) /\
  variantMatches t = length (List.filter (passes cfg) ps).
Proof.
  intros t ps.
  destruct (sweep_characterised cfg queryEmbeddings saved) as (Hmin & Hmax & Hcount).
  fold t ps in Hmin, Hmax, Hcount.
  split; [|split; [|split; [|split]]].
  - intros Hex. apply (least_minimumOf _ pinf); [exact leb_pinf_top | exact Hmin|].
    now apply exists_in_map.
  - intros Hnone. apply (least_no_number _ _ _ Hmin). now apply forall_in_map.
  - intros Hex. apply (greatest_maximumOf _ ninf); [|exact Hmax|].
    + intros x _. apply leb_ninf_bottom.
    + now apply exists_in_map.
  - intros Hnone. apply (greatest_no_number _ _ _ Hmax). now apply forall_in_map.
  - exact Hcount.
Qed.

(** The statistics of a built profile. *)
Lemma profile_statistics (e : list num) (es : list (list num)) :
  exists avg profile,
    averageEmbeddings (e :: es) = Returns avg /\
    buildPersonProfile (e :: es) = Returns profile /\
    embeddings profile = e :: es /\
    centroid profile = normalizeEmbedding avg /\
    let distanceTo := fun x => euclideanDistance x (centroid profile) in
    let similarityTo := fun x => cosineSimilarity x (centroid profile) in
    ((exists x, In x (e :: es) /\ isNumber (distanceTo x) = true) ->
     maximumOf (maxIntraDistance profile) (map distanceTo (e :: es))) /\
    ((forall x, In x (e :: es) -> isNumber (distanceTo x) = false) ->
     maxIntraDistance profile = zero) /\
    ((exists x, In x (e :: es) /\ isNumber (similarityTo x) = true) ->
     minimumOf (minIntraSimilarity profile) (map similarityTo (e :: es))) /\
    ((forall x, In x (e :: es) -> isNumber (similarityTo x) = false) ->
     minIntraSimilarity profile = pinf).
Proof.
  destruct (buildPersonProfile_returns e es) as (avg & Havg & Hb).
  eexists avg, _. split; [exact Havg|]. split; [exact Hb|].
  split; [reflexivity|]. split; [reflexivity|].
  intros distanceTo similarityTo.
  cbn [embeddings centroid maxIntraDistance minIntraSimilarity] in *.
  rewrite intra_max, intra_min. cbn [fst snd].
  pose proof (running_max (map distanceTo (e :: es)) zero leb_zero_zero) as Hmax.
  pose proof (running_min (map similarityTo (e :: es)) pinf leb_pinf_pinf) as Hmin.
  split; [|split; [|split]].
  - intros Hex. apply (greatest_maximumOf _ zero); [|exact Hmax|].
    + intros d Hd. apply in_map_iff in Hd as (x & <- & _). apply distance_nonneg.
    + now apply exists_in_map.
  - intros Hnone. apply (greatest_no_number _ _ _ Hmax). now apply forall_in_map.
  - intros Hex. apply (least_minimumOf _ pinf); [exact leb_pinf_top | exact Hmin|].
    now apply exists_in_map.
  - intros Hnone. apply (least_no_number _ _ _ Hmin). now apply forall_in_map.
Qed.

Context {Path Buffer : Type} `{Collaborators (num := num) Path Buffer}.

Lemma find_decision (cfg : Config) (store : gmap string Profile)
    (n : string) (imagePath : Path) (profile : Profile) :
  n <> EmptyString -> store !! n = Some profile ->
  exists message tally centroidDistance centroidSimilarity,
    find cfg store (Some n) (Some imagePath) =
      Returns (json (Verdict message tally centroidDistance centroidSimilarity
                             (DISTANCE_THRESHOLD cfg) (COSINE_THRESHOLD cfg))) /\
    tally = sweep cfg (getAugmentedEmbeddings imagePath) (parsedEmbeddings profile) /\
    (message = "Person Found"%string \/ message = "Person Not Found"%string) /\
    (message = "Person Found"%string <->
       leb (minDistance tally) (DISTANCE_THRESHOLD cfg) = true /\
       leb (COSINE_THRESHOLD cfg) (maxSimilarity tally) = true /\
       leb (REQUIRED_VARIANT_MATCHES cfg) (ofNat (variantMatches tally)) = true) /\
    (DISTANCE_THRESHOLD cfg = zero ->
     (forall q s, In q (getAugmentedEmbeddings imagePath) ->
                  In s (parsedEmbeddings profile) ->
                  leb (euclideanDistance s q) zero = false) ->
     message = "Person Not Found"%string).
Proof.
  intros Hn Hp. rewrite (find_registered cfg store n imagePath profile Hn Hp).
  cbv zeta. do 4 eexists. split; [reflexivity|]. split; [reflexivity|].
  set (t := sweep cfg _ _).
  split; [destruct (isMatch cfg t); auto|]. split.
  - unfold isMatch.
    destruct (leb (minDistance t) _), (leb _ (maxSimilarity t)), (leb _ (ofNat _));
      simpl; split; try discriminate; try tauto; intros (? & ? & ?); discriminate.
  - intros Hdt Hpos. subst t. now rewrite zero_threshold_blocks.
Qed.

End Ordered.

(** ** Facts that hold of the doubles themselves *)

Module JSFacts.
Import JS.

Lemma sumSquares_zeros (k : nat) : sumSquares (repeat 0%float k) = 0%float.
Proof. induction k as [|k IH]; [reflexivity | exact IH]. Qed.

(** The all-zero vector has computed norm 0 and is returned as it is. *)
Lemma normalize_zeros (k : nat) :
  normalizeEmbedding (repeat 0%float k) = repeat 0%float k.
Proof.
  unfold normalizeEmbedding. rewrite sumSquares_zeros. reflexivity.
Qed.

(** The quotients stand for the decimal literals of the source: they are
    the doubles nearest to 0.92, 0.85, 0.95 and 0.62. *)
Lemma decimal_literals :
  ratios = [0x1.d70a3d70a3d71p-1; 0x1.b333333333333p-1]%float /\
  defaultConfig =
    {| DISTANCE_THRESHOLD := 0x1.e666666666666p-1%float;
       COSINE_THRESHOLD := 0x1.3d70a3d70a3d7p-1%float;
       REQUIRED_VARIANT_MATCHES := 1%float |}.
Proof. split; reflexivity. Qed.

(** The crops of a 641 x 481 image: sides 442 and 408, centered with the
    odd pixel on the far side. *)
Lemma centerCrop_641_481 :
  map (centerCrop 641%float 481%float) ratios =
    [{| left := 99%float; top := 19%float;
        region_width := 442%float; region_height := 442%float |};
     {| left := 116%float; top := 36%float;
        region_width := 408%float; region_height := 408%float |}].
Proof. reflexivity. Qed.

End JSFacts.

(** ** Finite vectors read back from a profile file, in exact arithmetic *)

Module ExactStore.
Import Exact ExactOrder ExactFacts.

Lemma jsonNumber_fin (r : R) : jsonNumber (Fin r) = Fin r.
Proof.
  unfold jsonNumber. rewrite isFinite_fin. simpl andb.
  destruct (falsy (Fin r)) eqn:Hf; [|reflexivity].
  apply falsy_fin in Hf. now subst r.
Qed.

Lemma parsed_fin (v : list R) : map jsonNumber (fin v) = fin v.
Proof.
  unfold fin. rewrite map_map. apply map_ext. exact jsonNumber_fin.
Qed.

End ExactStore.

(** In exact arithmetic, with a distance threshold of 0, a query all of
    whose variants differ from every stored variant of the same length is
    not a match. *)
Lemma exact_zero_threshold {Path Buffer : Type}
    `{Collaborators (num := Exact.xreal) Path Buffer}
    (cfg : Config) (store : gmap string Profile) (n : string)
    (imagePath : Path) (profile : Profile) :
  n <> EmptyString -> store !! n = Some profile ->
  DISTANCE_THRESHOLD cfg = Exact.Fin 0 ->
  (forall q s, In q (getAugmentedEmbeddings imagePath) -> In s (embeddings profile) ->
     exists rq rs : list R,
       q = Exact.fin rq /\ s = Exact.fin rs /\
       length rq = length rs /\ rq <> rs) ->
  exists tally centroidDistance centroidSimilarity,
    find cfg store (Some n) (Some imagePath) =
      Returns (json (Verdict "Person Not Found" tally
                             centroidDistance centroidSimilarity
                             (DISTANCE_THRESHOLD cfg) (COSINE_THRESHOLD cfg))).
Proof.
  intros Hn Hp Hdt Hdiff.
  destruct (find_decision cfg store n imagePath profile Hn Hp)
    as (message & tally & cd & cs & Hfind & _ & _ & _ & Hzero).
  exists tally, cd, cs. rewrite Hfind.
  rewrite (Hzero Hdt); [reflexivity|].
  intros q s Hq Hs. unfold parsedEmbeddings in Hs.
  apply in_map_iff in Hs as (s0 & <- & Hs0).
  destruct (Hdiff q s0 Hq Hs0) as (rq & rs & -> & -> & Hlen & Hne).
  rewrite ExactStore.parsed_fin.
  apply ExactFacts.distance_positive; [lia | congruence].
Qed.

(** ** Facts about the stand-in *)

Module DemoFacts.
Import Demo.

Lemma alice_named : "alice"%string <> EmptyString.
Proof. discriminate. Qed.

Lemma alice_stored : demoStore !! "alice"%string = Some aliceProfile.
Proof. apply lookup_insert_eq. Qed.

Lemma bob_named : "bob"%string <> EmptyString.
Proof. discriminate. Qed.

Lemma bob_not_stored : demoStore !! "bob"%string = None.
Proof.
  unfold demoStore. rewrite lookup_insert_ne by discriminate. apply lookup_empty.
Qed.

Lemma tiny_differs : [1; 0]%float <> [1; 0x1p-600]%float.
Proof.
  intros Heq. apply (f_equal (fun v => nth 1 v 0%float)) in Heq. simpl in Heq.
  assert ((0 <? 0x1p-600)%float = true) as Hlt by reflexivity.
  rewrite <- Heq in Hlt. discriminate.
Qed.

Lemma orthogonal_positive :
  forall q s : list float,
    In q (getAugmentedEmbeddings (plain [0; 1]%float)) ->
    In s (parsedEmbeddings aliceProfile) ->
    leb (euclideanDistance s q) zero = false.
Proof. intros q s [<- | []] [<- | []]. reflexivity. Defined.

Lemma unit_vector_norm : Exact.normR [1; 0]%R = 1%R.
Proof.
  unfold Exact.normR, Exact.sumsqR, Exact.sumOver. simpl.
  replace (0 + 1 * 1 + 0 * 0)%R with 1%R by lra. apply sqrt_1.
Defined.

Lemma demoStore_reachable : @reachable float _ Photo (list float) demo demoStore.
Proof.
  destruct (register_accepted (∅ : gmap string Profile) "alice"
                              [plain [1; 0]%float] alice_named)
    as (profile & Hb & Hreg); [discriminate|].
  vm_compute in Hb. injection Hb as <-.
  exact (reachable_register ∅ demoStore _ _ _ reachable_empty Hreg).
Qed.

Lemma exact_alice_stored : exactStore !! "alice"%string = Some exactProfile.
Proof. apply lookup_insert_eq. Defined.

(** In exact arithmetic the normalized (0, 1) differs from the stored
    (1, 0). *)
Lemma exact_query_differs :
  forall q s : list Exact.xreal,
    In q (getAugmentedEmbeddings [0; 1]%R) -> In s (embeddings exactProfile) ->
    exists rq rs : list R,
      q = Exact.fin rq /\ s = Exact.fin rs /\ length rq = length rs /\ rq <> rs.
Proof.
  intros q s [<- | []] [<- | []].
  exists (map (fun x => (x / Exact.normR [0; 1])%R) [0; 1]%R), [1; 0]%R.
  split.
  { apply ExactFacts.normalize_fin.
    unfold Exact.sumsqR, Exact.sumOver. simpl. lra. }
  split; [reflexivity|]. split; [reflexivity|].
  intros Heq. apply (f_equal (fun v => nth 0 v 0%R)) in Heq. simpl in Heq.
  unfold Rdiv in Heq. rewrite Rmult_0_l in Heq. lra.
Defined.

End DemoFacts.

(** * More of the code

    Lemmas for the properties stated after the claims. *)

(** ** Binary64 arithmetic: symmetry, cancellation, NaN *)

Module JSArith.
Import JS.

Lemma binary_round_aux_opp (s : bool) (m e : Z) (l : location) :
  binary_round_aux prec emax (negb s) m e l = SFopp (binary_round_aux prec emax s m e l).
Proof.
  unfold binary_round_aux.
  destruct (shr_fexp prec emax m e l) as [mrs' e'].
  destruct (shr_fexp prec emax _ e' loc_Exact) as [mrs'' e''].
  destruct (shr_m mrs''); [reflexivity| |reflexivity].
  destruct (Z.leb _ _); reflexivity.
Qed.

Lemma binary_round_opp (s : bool) (m : positive) (e : Z) :
  binary_round prec emax (negb s) m e = SFopp (binary_round prec emax s m e).
Proof.
  unfold binary_round. destruct (shl_align _ _ _) as [mz ez].
  apply binary_round_aux_opp.
Qed.

Lemma binary_normalize_opp (z e : Z) :
  binary_normalize prec emax (- z) e false = 
  match z with Z0 => S754_zero false | _ => SFopp (binary_normalize prec emax z e false) end.
Proof.
  destruct z as [|p|p]; simpl; [reflexivity| |].
  - apply (binary_round_opp false).
  - apply (binary_round_opp true).
Qed.

Lemma SFmul_opp_opp (z : spec_float) :
  SF64mul (SFopp z) (SFopp z) = SF64mul z z.
Proof. destruct z as [[]|[]| |[] m e]; reflexivity. Qed.

Lemma SF_square_sub_sym (a b : spec_float) :
  SF64mul (SF64sub a b) (SF64sub a b) = SF64mul (SF64sub b a) (SF64sub b a).
Proof.
  destruct a as [sa|sa| |sa ma ea], b as [sb|sb| |sb mb eb];
    try (destruct sa; try destruct sb; reflexivity);
    try (destruct sb; reflexivity); try reflexivity.
  unfold SF64sub, SFsub. rewrite (Z.min_comm eb ea).
  set (ez := Z.min ea eb).
  set (A := cond_Zopp sa _). set (B := cond_Zopp sb _).
  replace (B - A)%Z with (- (A - B))%Z by lia.
  rewrite binary_normalize_opp.
  destruct (A - B)%Z eqn:HAB; [reflexivity| |]; symmetry; apply SFmul_opp_opp.
Qed.

Lemma square_sub_sym (x y : float) :
  ((x - y) * (x - y))%float = ((y - x) * (y - x))%float.
Proof.
  apply Prim2SF_inj. rewrite !mul_spec, !sub_spec. apply SF_square_sub_sym.
Qed.

Lemma float_mul_comm (x y : float) : (x * y)%float = (y * x)%float.
Proof.
  apply Prim2SF_inj. rewrite !mul_spec. unfold SF64mul, SFmul.
  destruct (Prim2SF x) as [sa|sa| |sa ma ea], (Prim2SF y) as [sb|sb| |sb mb eb];
    try reflexivity; rewrite ?(xorb_comm sb sa); try reflexivity.
  now rewrite (Pos.mul_comm mb ma), (Z.add_comm eb ea).
Qed.


Lemma isFinite_spec (x : float) :
  isFinite x = true ->
  (exists s, Prim2SF x = S754_zero s) \/ (exists s m e, Prim2SF x = S754_finite s m e).
Proof.
  unfold isFinite. simpl. rewrite andb_true_iff, !ltb_spec.
  change (Prim2SF PrimFloat.neg_infinity) with (S754_infinity true).
  change (Prim2SF PrimFloat.infinity) with (S754_infinity false).
  destruct (Prim2SF x) as [s|[]| |s m e]; cbn; intros [? ?]; try discriminate; eauto.
Qed.

Lemma sub_self (x : float) : isFinite x = true -> (x - x)%float = 0%float.
Proof.
  intros Hfin. apply Prim2SF_inj. rewrite sub_spec.
  change (Prim2SF 0) with (S754_zero false).
  destruct (isFinite_spec x Hfin) as [[s ->] | (s & m & e & ->)].
  - destruct s; reflexivity.
  - unfold SF64sub, SFsub. now rewrite Z.sub_diag.
Qed.

(** A stored number as the find endpoint reads it differs from the number
    by nothing. *)
Lemma sub_jsonNumber (x : float) :
  isFinite x = true -> (jsonNumber x - x)%float = 0%float.
Proof.
  intros Hfin. unfold jsonNumber. rewrite Hfin. simpl andb.
  destruct (falsy x) eqn:Hf; simpl negb; cbv iota; [|now apply sub_self].
  apply Prim2SF_inj. simpl zero. rewrite sub_spec.
  change (Prim2SF PrimFloat.zero) with (S754_zero false).
  change (Prim2SF 0) with (S754_zero false).
  unfold falsy in Hf. simpl in Hf. rewrite negb_true_iff, orb_false_iff, !ltb_spec in Hf.
  change (Prim2SF PrimFloat.zero) with (S754_zero false) in Hf.
  destruct (isFinite_spec x Hfin) as [[s ->] | (s & m & e & Hx)].
  - destruct s; reflexivity.
  - rewrite Hx in Hf. destruct s; cbn in Hf; destruct Hf; discriminate.
Qed.

Lemma nan_spec : Prim2SF PrimFloat.nan = S754_nan.
Proof. reflexivity. Qed.

Lemma add_nan_l (x : float) : (PrimFloat.nan + x)%float = PrimFloat.nan.
Proof. apply Prim2SF_inj. rewrite add_spec, nan_spec. reflexivity. Qed.

Lemma add_nan_r (x : float) : (x + PrimFloat.nan)%float = PrimFloat.nan.
Proof.
  apply Prim2SF_inj. rewrite add_spec, nan_spec.
  destruct (Prim2SF x) as [[]|[]| |[] m e]; reflexivity.
Qed.

Lemma sub_nan_l (x : float) : (PrimFloat.nan - x)%float = PrimFloat.nan.
Proof. apply Prim2SF_inj. rewrite sub_spec, nan_spec. reflexivity. Qed.

Lemma sub_nan_r (x : float) : (x - PrimFloat.nan)%float = PrimFloat.nan.
Proof.
  apply Prim2SF_inj. rewrite sub_spec, nan_spec.
  destruct (Prim2SF x) as [[]|[]| |[] m e]; reflexivity.
Qed.

Lemma mul_nan_l (x : float) : (PrimFloat.nan * x)%float = PrimFloat.nan.
Proof. apply Prim2SF_inj. rewrite mul_spec, nan_spec. reflexivity. Qed.

Lemma mul_nan_r (x : float) : (x * PrimFloat.nan)%float = PrimFloat.nan.
Proof. rewrite float_mul_comm. apply mul_nan_l. Qed.

Lemma div_nan_l (x : float) : (PrimFloat.nan / x)%float = PrimFloat.nan.
Proof. apply Prim2SF_inj. rewrite div_spec, nan_spec. reflexivity. Qed.

Lemma leb_nan_l (x : float) : (PrimFloat.nan <=? x)%float = false.
Proof. rewrite leb_spec, nan_spec. reflexivity. Qed.

Lemma leb_nan_r (x : float) : (x <=? PrimFloat.nan)%float = false.
Proof.
  rewrite leb_spec, nan_spec. unfold SFleb, SFcompare.
  destruct (Prim2SF x) as [[]|[]| |[] m e]; reflexivity.
Qed.

Lemma float_leb_trans (x y z : float) :
  (x <=? y)%float = true -> (y <=? z)%float = true -> (x <=? z)%float = true.
Proof. JSOrder.float_order. Qed.


End JSArith.

Section Folds.
Context {A B : Type}.

Lemma fold_left_ext_in (f g : A -> B -> A) (l : list B) (z : A) :
  (forall acc i, In i l -> f acc i = g acc i) ->
  fold_left f l z = fold_left g l z.
Proof.
  revert z. induction l as [|i l IH]; intros z Hfg; [reflexivity|].
  cbn [fold_left]. rewrite Hfg by now left.
  apply IH. intros acc j Hj. apply Hfg. now right.
Qed.

End Folds.

(** ** Vectors of different lengths *)

Section Truncation.
Context {num : Type} `{Number num}.

Lemma at_firstn (b : list num) (n i : nat) :
  i < n -> at_ (firstn n b) i = at_ b i.
Proof.
  intros Hi. unfold at_. rewrite nth_firstn.
  now replace (i <? n) with true by (symmetry; apply Nat.ltb_lt, Hi).
Qed.

Lemma euclideanDistance_firstn (a b : list num) :
  euclideanDistance a b = euclideanDistance a (firstn (length a) b).
Proof.
  unfold euclideanDistance. f_equal. apply fold_left_ext_in.
  intros acc i Hi. apply in_seq in Hi. now rewrite at_firstn by lia.
Qed.

Lemma cosineSimilarity_firstn (a b : list num) :
  cosineSimilarity a b = cosineSimilarity a (firstn (length a) b).
Proof.
  unfold cosineSimilarity. apply fold_left_ext_in.
  intros acc i Hi. apply in_seq in Hi. now rewrite at_firstn by lia.
Qed.

End Truncation.

(** ** Sums over doubles *)

Module JSVectors.
Import JS JSArith.

Lemma squares_sym (a b : list float) (z : float) :
  fold_left (fun sum p => add sum (pow2 (sub (fst p) (snd p)))) (combine a b) z =
  fold_left (fun sum p => add sum (pow2 (sub (fst p) (snd p)))) (combine b a) z.
Proof.
  revert b z. induction a as [|x a IH]; intros [|y b] z; try reflexivity.
  cbn [combine fold_left fst snd]. rewrite IH. do 2 f_equal.
  apply square_sub_sym.
Qed.

Lemma products_sym (a b : list float) (z : float) :
  fold_left (fun dot p => add dot (mul (fst p) (snd p))) (combine a b) z =
  fold_left (fun dot p => add dot (mul (fst p) (snd p))) (combine b a) z.
Proof.
  revert b z. induction a as [|x a IH]; intros [|y b] z; try reflexivity.
  cbn [combine fold_left fst snd]. rewrite IH. do 2 f_equal.
  apply float_mul_comm.
Qed.

Lemma squares_of_equal (l : list (float * float)) :
  (forall p, In p l -> (fst p - snd p)%float = 0%float) ->
  fold_left (fun sum p => add sum (pow2 (sub (fst p) (snd p)))) l zero = 0%float.
Proof.
  induction l as [|p l IH]; intros Hl; [reflexivity|].
  cbn [fold_left]. unfold pow2 at 2. cbn [add sub mul zero float_Number].
  rewrite (Hl p) by now left.
  change (PrimFloat.zero + 0 * 0)%float with PrimFloat.zero.
  apply IH. intros q Hq. apply Hl. now right.
Qed.

Lemma fold_from_nan {A : Type} (g : A -> float) (l : list A) :
  fold_left (fun acc i => add acc (g i)) l PrimFloat.nan = PrimFloat.nan.
Proof.
  induction l as [|i l IH]; [reflexivity|].
  cbn [fold_left]. cbn [add float_Number]. now rewrite add_nan_l.
Qed.

Lemma fold_reaches_nan (g : nat -> float) (n k : nat) (z : float) :
  n < k -> g n = PrimFloat.nan ->
  fold_left (fun acc i => add acc (g i)) (seq 0 k) z = PrimFloat.nan.
Proof.
  intros Hn Hg. replace k with (n + S (k - S n)) by lia.
  rewrite seq_app, fold_left_app. cbn [seq fold_left Nat.add].
  rewrite Hg. cbn [add float_Number]. rewrite add_nan_r. apply fold_from_nan.
Qed.

Lemma at_past_end (b : list float) (i : nat) : length b <= i -> at_ b i = PrimFloat.nan.
Proof. intros Hi. unfold at_. now rewrite nth_overflow. Qed.

End JSVectors.

(** ** NaN among the elements *)

Module JSPoison.
Import JS JSArith.

Lemma nan_term_distance (a b : list float) (i : nat) :
  i < length a -> at_ a i = PrimFloat.nan \/ at_ b i = PrimFloat.nan ->
  euclideanDistance a b = PrimFloat.nan.
Proof.
  intros Hi Hnan. unfold euclideanDistance.
  rewrite (JSVectors.fold_reaches_nan
             (fun i => pow2 (sub (at_ a i) (at_ b i))) i); [reflexivity|exact Hi|].
  unfold pow2. cbn [sub mul float_Number].
  destruct Hnan as [-> | ->].
  - now rewrite sub_nan_l, mul_nan_l.
  - now rewrite sub_nan_r, mul_nan_l.
Qed.

Lemma nan_term_similarity (a b : list float) (i : nat) :
  i < length a -> at_ a i = PrimFloat.nan \/ at_ b i = PrimFloat.nan ->
  cosineSimilarity a b = PrimFloat.nan.
Proof.
  intros Hi Hnan. unfold cosineSimilarity.
  rewrite (JSVectors.fold_reaches_nan (fun i => mul (at_ a i) (at_ b i)) i);
    [reflexivity|exact Hi|].
  cbn [mul float_Number].
  destruct Hnan as [-> | ->]; [apply mul_nan_l | apply mul_nan_r].
Qed.

End JSPoison.

(** ** When the count alone decides *)

Section CountDecides.
Context {num : Type} `{NumberOrder num}.
Hypothesis leb_trans : forall x y z : num,
  leb x y = true -> leb y z = true -> leb x z = true.
Hypothesis leb_number : forall x y : num,
  leb x y = true -> leb x x = true /\ leb y y = true.

Lemma passing_pair_bounds (cfg : Config) (queryEmbeddings saved : list (list num))
    (p : list num * list num) :
  In p (pairs queryEmbeddings saved) -> passes cfg p = true ->
  leb (minDistance (sweep cfg queryEmbeddings saved)) (DISTANCE_THRESHOLD cfg) = true /\
  leb (COSINE_THRESHOLD cfg) (maxSimilarity (sweep cfg queryEmbeddings saved)) = true.
Proof.
  intros Hp Hpass. unfold passes in Hpass. apply andb_true_iff in Hpass as [Hd Hs].
  destruct (sweep_characterised cfg queryEmbeddings saved)
    as ((_ & _ & Hmin) & (_ & _ & Hmax) & _).
  split.
  - apply (leb_trans _ (pairDistance p)); [|exact Hd].
    apply Hmin; [right; now apply in_map | apply (leb_number _ _ Hd)].
  - apply (leb_trans _ (pairSimilarity p)); [exact Hs|].
    apply Hmax; [right; now apply in_map | apply (leb_number _ _ Hs)].
Qed.

Lemma filter_nonempty {A : Type} (f : A -> bool) (l : list A) :
  length (List.filter f l) <> 0 -> exists x, In x l /\ f x = true.
Proof.
  destruct (List.filter f l) as [|x l'] eqn:Hf; [easy|]. intros _.
  exists x. apply filter_In. rewrite Hf. now left.
Qed.

Lemma count_decides (cfg : Config) (queryEmbeddings saved : list (list num)) :
  leb (REQUIRED_VARIANT_MATCHES cfg) (ofNat 0) = false ->
  isMatch cfg (sweep cfg queryEmbeddings saved) =
  leb (REQUIRED_VARIANT_MATCHES cfg)
      (ofNat (variantMatches (sweep cfg queryEmbeddings saved))).
Proof.
  intros Hreq. unfold isMatch.
  destruct (leb (REQUIRED_VARIANT_MATCHES cfg) (ofNat (variantMatches _))) eqn:Hcount;
    [|apply andb_false_r].
  assert (variantMatches (sweep cfg queryEmbeddings saved) <> 0) as Hpos.
  { intros Hzero. rewrite Hzero in Hcount. congruence. }
  rewrite sweep_variantMatches in Hpos.
  apply filter_nonempty in Hpos as (p & Hp & Hpass).
  destruct (passing_pair_bounds cfg queryEmbeddings saved p Hp Hpass) as [-> ->].
  reflexivity.
Qed.

Context {Path Buffer : Type} `{Collaborators (num := num) Path Buffer}.

Lemma find_count_decides (cfg : Config) (store : gmap string Profile)
    (n : string) (imagePath : Path) (profile : Profile) :
  n <> EmptyString -> store !! n = Some profile ->
  leb (REQUIRED_VARIANT_MATCHES cfg) (ofNat 0) = false ->
  exists message tally centroidDistance centroidSimilarity,
    find cfg store (Some n) (Some imagePath) =
      Returns (json (Verdict message tally centroidDistance centroidSimilarity
                             (DISTANCE_THRESHOLD cfg) (COSINE_THRESHOLD cfg))) /\
    tally = sweep cfg (getAugmentedEmbeddings imagePath) (parsedEmbeddings profile) /\
    (message = "Person Found"%string <->
       leb (REQUIRED_VARIANT_MATCHES cfg) (ofNat (variantMatches tally)) = true).
Proof.
  intros Hn Hp Hreq. rewrite (find_registered cfg store n imagePath profile Hn Hp).
  cbv zeta. do 4 eexists. split; [reflexivity|]. split; [reflexivity|].
  rewrite count_decides by exact Hreq.
  destruct (leb _ (ofNat (variantMatches _))); split; intros Heq;
    try reflexivity; discriminate Heq.
Qed.

End CountDecides.

Module JSCount.
Import JS JSArith.

Lemma float_leb_number (x y : float) :
  (x <=? y)%float = true -> (x <=? x)%float = true /\ (y <=? y)%float = true.
Proof. split; revert H; JSOrder.float_order. Qed.

End JSCount.

Module ExactCount.
Import Exact ExactOrder.

Lemma xleb_trans (x y z : xreal) :
  xleb x y = true -> xleb y z = true -> xleb x z = true.
Proof.
  destruct x, y, z; simpl; try easy.
  rewrite !Rleb_true. lra.
Qed.

Lemma xleb_number (x y : xreal) :
  xleb x y = true -> xleb x x = true /\ xleb y y = true.
Proof.
  destruct x, y; simpl; try easy; rewrite ?Rleb_true; intros; split; try easy; lra.
Qed.

End ExactCount.

(** ** What the responses never hold *)

Section NeverNaN.
Context {num : Type} `{NumberOrder num}.

Lemma sweep_numbers (cfg : Config) (queryEmbeddings saved : list (list num)) :
  let t := sweep cfg queryEmbeddings saved in
  isNumber (minDistance t) = true /\ leb zero (minDistance t) = true /\
  isNumber (maxSimilarity t) = true.
Proof.
  intros t.
  destruct (sweep_characterised cfg queryEmbeddings saved)
    as ((Hin & Hnum & _) & (_ & Hnum' & _) & _).
  fold t in Hin, Hnum, Hnum'.
  split; [exact Hnum|]. split; [|exact Hnum'].
  destruct Hin as [<- | Hin]; [apply leb_pinf_top, leb_zero_zero|].
  apply in_map_iff in Hin as (p & Hp & _). rewrite <- Hp in *.
  now apply distance_nonneg.
Qed.

Lemma profile_numbers (e : list num) (es : list (list num)) :
  exists profile,
    buildPersonProfile (e :: es) = Returns profile /\
    isNumber (maxIntraDistance profile) = true /\
    leb zero (maxIntraDistance profile) = true /\
    isNumber (minIntraSimilarity profile) = true.
Proof.
  destruct (buildPersonProfile_returns e es) as (avg & _ & Hb).
  eexists. split; [exact Hb|].
  cbn [maxIntraDistance minIntraSimilarity].
  rewrite intra_max, intra_min. cbn [fst snd].
  destruct (running_max (map (fun x => euclideanDistance x (normalizeEmbedding avg))
                             (e :: es)) zero leb_zero_zero) as (_ & Hnum & Hup).
  destruct (running_min (map (fun x => cosineSimilarity x (normalizeEmbedding avg))
                             (e :: es)) pinf leb_pinf_pinf) as (_ & Hnum' & _).
  split; [exact Hnum|]. split; [|exact Hnum'].
  apply Hup; [now left | apply leb_zero_zero].
Qed.

End NeverNaN.

(** ** Enrolling an image and verifying it *)

Module JSEnroll.
Import JS JSArith.

Lemma combine_parsed (a : list float) :
  combine (map jsonNumber a) a = map (fun x => (jsonNumber x, x)) a.
Proof. induction a as [|x a IH]; [reflexivity|]. cbn [map combine]. now rewrite IH. Qed.

Lemma distance_parsed_self (a : list float) :
  (forall x, In x a -> isFinite x = true) ->
  euclideanDistance (map jsonNumber a) a = 0%float.
Proof.
  intros Hfin. rewrite euclideanDistance_squaredDistance by now rewrite length_map.
  unfold squaredDistance. rewrite JSVectors.squares_of_equal; [reflexivity|].
  intros p Hp. rewrite combine_parsed in Hp. apply in_map_iff in Hp as (x & <- & Hx).
  apply sub_jsonNumber, Hfin, Hx.
Qed.

Lemma distance_self (a : list float) :
  (forall x, In x a -> isFinite x = true) -> euclideanDistance a a = 0%float.
Proof.
  intros Hfin. rewrite euclideanDistance_squaredDistance by reflexivity.
  unfold squaredDistance. rewrite JSVectors.squares_of_equal; [reflexivity|].
  intros p Hp. rewrite combine_self in Hp. apply in_map_iff in Hp as (x & <- & Hx).
  apply sub_self, Hfin, Hx.
Qed.

End JSEnroll.

(** ** The average of embeddings of uneven lengths *)

Section Average.
Context {num : Type} `{Number num}.

Lemma at_indexed (g : nat -> num) (n i : nat) :
  i < n -> at_ (map g (seq 0 n)) i = g i.
Proof.
  intros Hi. unfold at_.
  rewrite (nth_indep _ nan (g 0)) by now rewrite length_map, length_seq.
  rewrite (map_nth g (seq 0 n) 0 i), seq_nth by exact Hi. reflexivity.
Qed.

Lemma length_sum_fold (n : nat) (es : list (list num)) (s : list num) :
  length s = n ->
  length (fold_left
            (fun sum emb => map (fun i => add (at_ sum i) (at_ emb i)) (seq 0 n))
            es s) = n.
Proof.
  revert s. induction es as [|e es IH]; intros s Hs; [exact Hs|].
  cbn [fold_left]. apply IH. now rewrite length_map, length_seq.
Qed.

Lemma length_averageEmbeddings (first : list num) (rest : list (list num))
    (avg : list num) :
  averageEmbeddings (first :: rest) = Returns avg -> length avg = length first.
Proof.
  unfold averageEmbeddings. intros Havg. injection Havg as <-.
  rewrite length_map.
  apply (length_sum_fold (length first) (first :: rest)), repeat_length.
Qed.

Lemma length_normalizeEmbedding (v : list num) :
  length (normalizeEmbedding v) = length v.
Proof.
  unfold normalizeEmbedding. destruct (_ || _); [reflexivity | apply length_map].
Qed.

End Average.

Module JSAverage.
Import JS JSArith.

Lemma sum_stays_nan (n i : nat) (es : list (list float)) (s : list float) :
  i < n -> at_ s i = PrimFloat.nan ->
  at_ (fold_left
         (fun sum emb => map (fun i => add (at_ sum i) (at_ emb i)) (seq 0 n))
         es s) i = PrimFloat.nan.
Proof.
  intros Hi. revert s. induction es as [|e es IH]; intros s Hs; [exact Hs|].
  cbn [fold_left]. apply IH. rewrite at_indexed by exact Hi.
  rewrite Hs. cbn [add float_Number]. apply add_nan_l.
Qed.

Lemma sum_reaches_nan (n i : nat) (es : list (list float)) (s : list float)
    (emb : list float) :
  i < n -> In emb es -> at_ emb i = PrimFloat.nan ->
  at_ (fold_left
         (fun sum emb => map (fun i => add (at_ sum i) (at_ emb i)) (seq 0 n))
         es s) i = PrimFloat.nan.
Proof.
  intros Hi. revert s. induction es as [|e es IH]; intros s Hin Hemb; [destruct Hin|].
  cbn [fold_left]. destruct Hin as [-> | Hin].
  - apply sum_stays_nan; [exact Hi|]. rewrite at_indexed by exact Hi.
    rewrite Hemb. cbn [add float_Number]. apply add_nan_r.
  - now apply IH.
Qed.

Lemma sumSquares_from_nan (v : list float) :
  fold_left (fun sum val => add sum (mul val val)) v PrimFloat.nan = PrimFloat.nan.
Proof.
  induction v as [|x v IH]; [reflexivity|].
  cbn [fold_left]. cbn [add mul float_Number]. now rewrite add_nan_l.
Qed.

Lemma sumSquares_nan (v : list float) :
  In PrimFloat.nan v -> sumSquares v = PrimFloat.nan.
Proof.
  unfold sumSquares. generalize (zero (num := float)).
  induction v as [|x v IH]; intros z Hin; [destruct Hin|].
  cbn [fold_left]. destruct Hin as [-> | Hin]; [|now apply IH].
  cbn [add mul float_Number]. rewrite mul_nan_l, add_nan_r.
  apply sumSquares_from_nan.
Qed.

Lemma normalize_nan (v : list float) :
  In PrimFloat.nan v -> normalizeEmbedding v = v.
Proof.
  intros Hin. unfold normalizeEmbedding. now rewrite sumSquares_nan.
Qed.

Lemma average_nan (first : list float) (rest : list (list float))
    (emb : list float) (i : nat) :
  In emb (first :: rest) -> at_ emb i = PrimFloat.nan -> i < length first ->
  exists avg,
    averageEmbeddings (first :: rest) = Returns avg /\
    avg !! i = Some PrimFloat.nan.
Proof.
  intros Hin Hemb Hi. unfold averageEmbeddings.
  eexists. split; [reflexivity|].
  rewrite list_lookup_fmap.
  set (sum := fold_left _ (first :: rest) _).
  assert (at_ sum i = PrimFloat.nan) as Hsum
    by exact (sum_reaches_nan (length first) i (first :: rest) _ emb Hi Hin Hemb).
  assert (length sum = length first) as Hlen
    by (apply (length_sum_fold (length first) (first :: rest)), repeat_length).
  unfold at_ in Hsum.
  destruct (sum !! i) as [x|] eqn:Hx.
  - rewrite (nth_lookup_Some _ _ _ _ Hx) in Hsum. subst x.
    cbn [fmap option_fmap option_map]. f_equal. apply div_nan_l.
  - apply lookup_ge_None_1 in Hx. lia.
Qed.

End JSAverage.

(** ** How many variants, how many matches *)

Section Counts.
Context {num : Type} `{Number num}.

Lemma length_pairs (queryEmbeddings saved : list (list num)) :
  length (pairs queryEmbeddings saved) = length queryEmbeddings * length saved.
Proof.
  unfold pairs. induction queryEmbeddings as [|q qs IH]; [reflexivity|].
  cbn [flat_map length]. rewrite length_app, length_map, IH. lia.
Qed.

Lemma length_filter_le {A : Type} (f : A -> bool) (l : list A) :
  length (List.filter f l) <= length l.
Proof.
  induction l as [|x l IH]; [reflexivity|].
  cbn [List.filter]. destruct (f x); cbn [length]; lia.
Qed.

Lemma variantMatches_le (cfg : Config) (queryEmbeddings saved : list (list num)) :
  variantMatches (sweep cfg queryEmbeddings saved) <=
  length queryEmbeddings * length saved.
Proof.
  rewrite sweep_variantMatches, <- length_pairs. apply length_filter_le.
Qed.

Context {Path Buffer : Type} `{Collaborators (num := num) Path Buffer}.

Lemma length_augmented (imagePath : Path) :
  1 <= length (getAugmentedEmbeddings imagePath) <= 3.
Proof.
  destruct (dimensionsKnown imagePath) eqn:Hk.
  - destruct (augmented_known imagePath Hk) as (w & h & _ & _ & ->). cbn [length]. lia.
  - rewrite (augmented_unknown imagePath Hk). cbn [length]. lia.
Qed.

Lemma length_flat_map_augmented_bounds (fs : list Path) :
  length fs <= length (flat_map getAugmentedEmbeddings fs) <= 3 * length fs.
Proof.
  induction fs as [|f fs IH]; [cbn; lia|].
  cbn [flat_map length]. rewrite length_app.
  pose proof (length_augmented f). lia.
Qed.

End Counts.

(** ** More of exact arithmetic: normalizing twice, vectors of norm 1, the crop *)

Module ExactMore.
Import Exact ExactOrder ExactFacts ExactStore.
Local Open Scope R_scope.

Lemma sumsqR_normalized (v : list R) :
  sumsqR v <> 0 -> sumsqR (map (fun x => x / normR v) v) = 1.
Proof.
  intros Hnz. rewrite sumsqR_scaled. unfold normR.
  rewrite sqrt_def by apply sumsqR_nonneg. now field.
Qed.

Lemma sumsqR_nonzero (v : list R) : (exists x, In x v /\ x <> 0) -> sumsqR v <> 0.
Proof. intros (x & Hx & Hnz) Hz. apply Hnz. exact (sumsqR_zero v Hz x Hx). Qed.

(** Only a vector of finite numbers has a finite sum of squares. *)
Lemma sum_not_fin (v : list xreal) (z : xreal) :
  (forall r, z <> Fin r) ->
  forall r, fold_left (fun sum val => add sum (mul val val)) v z <> Fin r.
Proof.
  revert z. induction v as [|x v IH]; intros z Hz r; [apply Hz|].
  cbn [fold_left]. apply IH. intros r'.
  destruct z as [a| | |]; [now destruct (Hz a)| | |];
    destruct x as [b| | |]; simpl; discriminate.
Qed.

Lemma sum_fin_inv (v : list xreal) (z : xreal) (r : R) :
  fold_left (fun sum val => add sum (mul val val)) v z = Fin r ->
  exists rs, v = fin rs.
Proof.
  revert z. induction v as [|x v IH]; intros z Hsum; [now exists []|].
  cbn [fold_left] in Hsum.
  destruct (IH _ Hsum) as (rs & ->).
  destruct x as [b| | |].
  - now exists (b :: rs).
  - exfalso. revert Hsum. apply sum_not_fin. intros r'. destruct z; simpl; discriminate.
  - exfalso. revert Hsum. apply sum_not_fin. intros r'. destruct z; simpl; discriminate.
  - exfalso. revert Hsum. apply sum_not_fin. intros r'. destruct z; simpl; discriminate.
Qed.

Lemma normalize_fin_idempotent (rs : list R) :
  normalizeEmbedding (normalizeEmbedding (fin rs)) = normalizeEmbedding (fin rs).
Proof.
  destruct (Req_dec_T (sumsqR rs) 0) as [Hz | Hnz].
  - now rewrite !normalize_fin_zero by exact Hz.
  - rewrite normalize_fin by exact Hnz. apply normalize_unit, sumsqR_normalized, Hnz.
Qed.

Lemma normalize_not_fin (v : list xreal) :
  (forall r, sumSquares v <> Fin r) -> normalizeEmbedding v = v.
Proof.
  intros Hs. unfold normalizeEmbedding.
  destruct (sumSquares v) as [s| | |]; [now destruct (Hs s)|reflexivity..].
Qed.

Lemma normalize_idempotent (v : list xreal) :
  normalizeEmbedding (normalizeEmbedding v) = normalizeEmbedding v.
Proof.
  destruct (sumSquares v) as [s| | |] eqn:Hs.
  - destruct (sum_fin_inv v _ s Hs) as (rs & ->). apply normalize_fin_idempotent.
  - now rewrite !(normalize_not_fin v) by (intros r; rewrite Hs; discriminate).
  - now rewrite !(normalize_not_fin v) by (intros r; rewrite Hs; discriminate).
  - now rewrite !(normalize_not_fin v) by (intros r; rewrite Hs; discriminate).
Qed.

(** *** Vectors of norm 1 *)

Lemma sumsqR_cons (x : R) (v : list R) : sumsqR (x :: v) = x * x + sumsqR v.
Proof. unfold sumsqR. apply (sumOver_cons (fun x => x * x)). Qed.

Lemma dotR_cons (x y : R) (a b : list R) :
  dotR (x :: a) (y :: b) = x * y + dotR a b.
Proof. unfold dotR. cbn [combine]. now rewrite sumOver_cons. Qed.

Lemma sqdistR_expand (a b : list R) :
  length a = length b -> sqdistR a b = sumsqR a + sumsqR b - 2 * dotR a b.
Proof.
  revert b. induction a as [|x a IH]; intros [|y b] Hlen; try discriminate Hlen.
  - unfold sqdistR, sumsqR, dotR, sumOver. simpl. lra.
  - injection Hlen as Hlen.
    rewrite sqdistR_cons, !sumsqR_cons, dotR_cons, (IH b Hlen). lra.
Qed.

Lemma hundredths_fin (k : nat) : hundredths k = Fin (INR k / 100).
Proof.
  unfold hundredths. cbn [div ofNat xreal_Number].
  rewrite xdiv_fin; [|apply not_0_INR; discriminate].
  do 2 f_equal. rewrite INR_IZR_INZ. reflexivity.
Qed.

Lemma unit_distance (a b : list R) :
  length a = length b -> sumsqR a = 1 -> sumsqR b = 1 ->
  euclideanDistance (fin a) (fin b) = Fin (R_sqrt.sqrt (2 - 2 * dotR a b)).
Proof.
  intros Hlen Ha Hb. rewrite euclideanDistance_fin by exact Hlen.
  rewrite sqdistR_expand by exact Hlen. rewrite Ha, Hb.
  replace (1 + 1 - 2 * dotR a b) with (2 - 2 * dotR a b) by lra. reflexivity.
Qed.

Lemma sqrt_within (x : R) : x <= 76 / 100 -> R_sqrt.sqrt x <= 95 / 100.
Proof.
  intros Hx. rewrite <- (sqrt_square (95 / 100)) by lra.
  apply sqrt_le_1_alt. lra.
Qed.

Lemma unit_passes (a b : list R) :
  length a = length b -> sumsqR a = 1 -> sumsqR b = 1 ->
  passes defaultConfig (fin b, fin a) = true <-> 62 / 100 <= dotR a b.
Proof.
  intros Hlen Ha Hb. unfold passes, pairDistance, pairSimilarity. cbn [fst snd].
  rewrite unit_distance, cosineSimilarity_fin by assumption.
  cbn [DISTANCE_THRESHOLD COSINE_THRESHOLD defaultConfig].
  rewrite !hundredths_fin. cbn [leb xreal_Number xleb].
  rewrite andb_true_iff, !Rleb_true.
  replace (INR 95) with 95 by (rewrite INR_IZR_INZ; reflexivity).
  replace (INR 62) with 62 by (rewrite INR_IZR_INZ; reflexivity).
  split; [tauto|]. intros Hs. split; [|exact Hs].
  apply sqrt_within. lra.
Qed.

(** *** The crop region on image sizes *)

Lemma Int_part_quotient (a b : nat) :
  (0 < b)%nat -> Int_part (INR a / INR b) = Z.of_nat (a / b).
Proof.
  intros Hb. symmetry. apply Int_part_spec. rewrite <- INR_IZR_INZ.
  pose proof (Nat.div_mod_eq a b) as Hdm.
  pose proof (Nat.mod_upper_bound a b ltac:(lia)) as Hr.
  assert (0 < INR b) as Hb' by (apply lt_0_INR, Hb).
  assert (INR a = INR b * INR (a / b) + INR (a mod b)) as Ha
    by (rewrite <- mult_INR, <- plus_INR; f_equal; exact Hdm).
  assert (0 <= INR (a mod b) < INR b) as [Hr0 Hr1]
    by (split; [apply pos_INR | apply lt_INR, Hr]).
  assert (INR a / INR b = INR (a / b) + INR (a mod b) / INR b) as ->
    by (rewrite Ha; field; lra).
  assert (0 <= INR (a mod b) / INR b < 1) as [Hq0 Hq1].
  { split.
    - apply Rmult_le_pos; [exact Hr0 | left; now apply Rinv_0_lt_compat].
    - apply (Rmult_lt_reg_r (INR b)); [exact Hb'|].
      unfold Rdiv. rewrite Rmult_assoc, Rinv_l by lra. lra. }
  lra.
Qed.

Lemma Rmin_INR (a b : nat) : Rmin (INR a) (INR b) = INR (Nat.min a b).
Proof.
  destruct (Nat.le_ge_cases a b) as [Hab | Hab].
  - rewrite Nat.min_l, Rmin_left by (try apply le_INR; exact Hab). reflexivity.
  - rewrite Nat.min_r, Rmin_right by (try apply le_INR; exact Hab). reflexivity.
Qed.

Lemma floor_half (w s : nat) :
  (s <= w)%nat ->
  floor (div (sub (ofNat w) (ofNat s)) (ofNat 2)) = (ofNat ((w - s) / 2) : xreal).
Proof.
  intros Hs. cbn [floor div sub ofNat xreal_Number xsub xadd xopp].
  rewrite xdiv_fin by (apply not_0_INR; discriminate).
  cbn [xfloor]. f_equal.
  replace (INR w + - INR s) with (INR (w - s)) by (rewrite minus_INR by exact Hs; lra).
  rewrite Int_part_quotient by lia. now rewrite <- INR_IZR_INZ.
Qed.

Lemma floor_side (m k : nat) :
  floor (mul (ofNat m) (hundredths k)) = (ofNat (m * k / 100) : xreal).
Proof.
  rewrite hundredths_fin. cbn [floor mul ofNat xreal_Number xmul xfloor]. f_equal.
  replace (INR m * (INR k / 100)) with (INR (m * k) / INR 100).
  - rewrite Int_part_quotient by lia. now rewrite <- INR_IZR_INZ.
  - rewrite mult_INR. replace (INR 100) with 100
      by (rewrite INR_IZR_INZ; reflexivity). field.
Qed.

Lemma centerCrop_sizes (w h k : nat) :
  (k <= 100)%nat ->
  let side := (Nat.min w h * k / 100)%nat in
  centerCrop (ofNat w) (ofNat h) (hundredths k) =
    {| left := (ofNat ((w - side) / 2) : xreal);
       top := ofNat ((h - side) / 2);
       region_width := ofNat side;
       region_height := ofNat side |}.
Proof.
  intros Hk side. unfold centerCrop.
  assert (min2 (ofNat w) (ofNat h) = (ofNat (Nat.min w h) : xreal)) as ->
    by (cbn [min2 ofNat xreal_Number xmin]; now rewrite Rmin_INR).
  rewrite floor_side. fold side.
  assert (side <= Nat.min w h)%nat as Hside.
  { unfold side. apply Nat.Div0.div_le_upper_bound. nia. }
  rewrite !floor_half by lia. reflexivity.
Qed.

End ExactMore.

(** ** The loop that fills the tensor *)

Module TensorFacts.
Import JS Tensor.

Lemma length_fillPixel (rawBuffer : list Init.Byte.byte) (d : list float) (i : nat) :
  length (fillPixel rawBuffer d i) = length d.
Proof. unfold fillPixel. now rewrite !length_insert. Qed.

Lemma length_fold_fillPixel (rawBuffer : list Init.Byte.byte) (l : list nat) (d : list float) :
  length (fold_left (fillPixel rawBuffer) l d) = length d.
Proof.
  revert d. induction l as [|i l IH]; intros d; [reflexivity|].
  cbn [fold_left]. now rewrite IH, length_fillPixel.
Qed.

Lemma mirror_decompose (j : nat) :
  j = 3 * (j / 3) + j mod 3 /\ j mod 3 < 3.
Proof.
  split; [apply Nat.div_mod_eq | apply Nat.mod_upper_bound; lia].
Qed.

Lemma lookup_fillPixel (rawBuffer : list Init.Byte.byte) (d : list float) (m j : nat) :
  j < length d ->
  fillPixel rawBuffer d (3 * m) !! j =
  if Nat.eqb (j / 3) m then Some (rescale (channel rawBuffer (mirror j))) else d !! j.
Proof.
  intros Hj. destruct (mirror_decompose j) as [Hd Hr].
  unfold fillPixel, mirror.
  destruct (Nat.eqb_spec (j / 3) m) as [<-|Hne].
  - destruct (j mod 3) as [|[|[|r]]] eqn:Hm; [| | |lia].
    + rewrite list_lookup_insert_ne by lia.
      rewrite list_lookup_insert_ne by lia.
      replace (3 * (j / 3)) with j at 1 by lia.
      rewrite list_lookup_insert_eq by lia.
      do 2 f_equal.
    + rewrite list_lookup_insert_ne by lia.
      replace (3 * (j / 3) + 1) with j at 1 by lia.
      rewrite list_lookup_insert_eq by (rewrite length_insert; lia).
      do 2 f_equal.
    + replace (3 * (j / 3) + 2) with j at 1 by lia.
      rewrite list_lookup_insert_eq by (rewrite !length_insert; lia).
      do 3 f_equal. lia.
  - assert (j <> 3 * m /\ j <> 3 * m + 1 /\ j <> 3 * m + 2) as (H0 & H1 & H2).
    { repeat split; intros ->; apply Hne.
      - rewrite Nat.mul_comm. now apply Nat.div_mul.
      - symmetry. apply (Nat.div_unique _ 3 m 1); lia.
      - symmetry. apply (Nat.div_unique _ 3 m 2); lia. }
    now rewrite !list_lookup_insert_ne by lia.
Qed.

Lemma lookup_fold_fillPixel (rawBuffer : list Init.Byte.byte) (d : list float) (m j : nat) :
  j < length d ->
  fold_left (fillPixel rawBuffer) (map (fun k => 3 * k) (seq 0 m)) d !! j =
  if Nat.ltb (j / 3) m then Some (rescale (channel rawBuffer (mirror j))) else d !! j.
Proof.
  intros Hj. induction m as [|m IH]; [reflexivity|].
  rewrite seq_S, map_app, fold_left_app. cbn [map fold_left Nat.add].
  rewrite lookup_fillPixel by now rewrite length_fold_fillPixel.
  rewrite IH.
  destruct (Nat.eqb_spec (j / 3) m) as [He|Hne].
  - now replace (j / 3 <? S m) with true by (symmetry; apply Nat.ltb_lt; lia).
  - destruct (Nat.ltb_spec (j / 3) m), (Nat.ltb_spec (j / 3) (S m)); try reflexivity; lia.
Qed.

Lemma loop_reaches (n j : nat) : j < n -> j / 3 < (n + 2) / 3.
Proof.
  intros Hj.
  assert (j / 3 <= (n - 1) / 3) by (apply Nat.Div0.div_le_mono; lia).
  assert ((n - 1) / 3 < (n + 2) / 3); [|lia].
  replace (n + 2) with ((n - 1) + 1 * 3) by lia.
  rewrite Nat.div_add by lia. lia.
Qed.



Lemma length_floatDataOf (rawBuffer : list Init.Byte.byte) :
  length (floatDataOf rawBuffer) = length rawBuffer.
Proof. unfold floatDataOf. now rewrite length_fold_fillPixel, repeat_length. Qed.

Lemma lookup_floatDataOf (rawBuffer : list Init.Byte.byte) (j : nat) :
  j < length rawBuffer ->
  floatDataOf rawBuffer !! j = Some (rescale (channel rawBuffer (mirror j))).
Proof.
  intros Hj. unfold floatDataOf, loopIndices.
  rewrite lookup_fold_fillPixel by now rewrite repeat_length.
  now replace (j / 3 <? (length rawBuffer + 2) / 3) with true
    by (symmetry; apply Nat.ltb_lt, loop_reaches, Hj).
Qed.






End TensorFacts.

(** ** The crop side, checked on every square up to 65535 pixels *)

Module JSCropFacts.
Import JS JSCrop.

Lemma sameDouble_eq (x y : float) : sameDouble x y = true -> x = y.
Proof.
  unfold sameDouble. intros Hs. apply Prim2SF_inj.
  destruct (Prim2SF x) as [s|s| |s m e], (Prim2SF y) as [s'|s'| |s' m' e'];
    try discriminate Hs; try reflexivity.
  - now apply eqb_prop in Hs as ->.
  - now apply eqb_prop in Hs as ->.
  - apply andb_true_iff in Hs as [Hs He]. apply andb_true_iff in Hs as [Hs Hm].
    apply eqb_prop in Hs as ->. apply Pos.eqb_eq in Hm as ->.
    now apply Z.eqb_eq in He as ->.
Qed.

Lemma allFrom_spec (f : Z -> bool) (n : nat) (z : Z) :
  allFrom f n z = true -> forall k, (z <= k < z + Z.of_nat n)%Z -> f k = true.
Proof.
  revert z. induction n as [|n IH]; intros z Hall k Hk; [lia|].
  cbn [allFrom] in Hall. apply andb_true_iff in Hall as [Hz Hrest].
  destruct (Z.eq_dec k z) as [-> | Hne]; [exact Hz|].
  apply (IH (z + 1)%Z Hrest). lia.
Qed.

Lemma sides_checked :
  allFrom (fun z => sideAgrees 92 z && sideAgrees 85 z) (Z.to_nat 65536) 0 = true.
Proof. vm_compute. reflexivity. Qed.

Lemma side_of_square (m k : nat) :
  sideAgrees k (Z.of_nat m) = true ->
  floor (mul (ofNat m) (hundredths k)) = (ofNat (m * k / 100) : float).
Proof.
  intros Hs. apply sameDouble_eq in Hs.
  cbn [floor mul ofNat float_Number]. unfold of_nat.
  rewrite Nat2Z.inj_div, Nat2Z.inj_mul. exact Hs.
Qed.

End JSCropFacts.

(** ** Enrollment and the other names; the order of the enrolled images *)

Section Frame.
Context {num : Type} `{Number num}.
Context {Path Buffer : Type} `{Collaborators (num := num) Path Buffer}.


Lemma permuted_pairs (queryEmbeddings saved saved' : list (list num)) :
  Permutation saved saved' ->
  Permutation (pairs queryEmbeddings saved) (pairs queryEmbeddings saved').
Proof.
  intros Hp. unfold pairs.
  induction queryEmbeddings as [|q qs IH]; [constructor|].
  cbn [flat_map]. apply Permutation_app; [now apply Permutation_map | exact IH].
Qed.

Lemma permuted_filter {A : Type} (f : A -> bool) (l l' : list A) :
  Permutation l l' -> Permutation (List.filter f l) (List.filter f l').
Proof.
  induction 1 as [|x l l' _ IH|x y l|l l' l'' _ IH1 _ IH2]; cbn [List.filter].
  - constructor.
  - destruct (f x); [now constructor | exact IH].
  - destruct (f x), (f y); try reflexivity. constructor.
  - now transitivity (List.filter f l').
Qed.

Lemma permuted_variantMatches (cfg : Config)
    (queryEmbeddings saved saved' : list (list num)) :
  Permutation saved saved' ->
  variantMatches (sweep cfg queryEmbeddings saved) =
  variantMatches (sweep cfg queryEmbeddings saved').
Proof.
  intros Hp. rewrite !sweep_variantMatches.
  apply Permutation_length, permuted_filter, permuted_pairs, Hp.
Qed.

Lemma permuted_enrollment (fs fs' : list Path) :
  Permutation fs fs' ->
  Permutation (map (map jsonNumber) (flat_map getAugmentedEmbeddings fs))
              (map (map jsonNumber) (flat_map getAugmentedEmbeddings fs')).
Proof. intros Hp. now apply Permutation_map, Permutation_flat_map. Qed.

End Frame.

Section OrderOfImages.
Context {num : Type} `{NumberOrder num}.
Hypothesis leb_trans : forall x y z : num,
  leb x y = true -> leb y z = true -> leb x z = true.
Hypothesis leb_number : forall x y : num,
  leb x y = true -> leb x x = true /\ leb y y = true.
Context {Path Buffer : Type} `{Collaborators (num := num) Path Buffer}.

Lemma permuted_enrollment_verdict (cfg : Config) (store : gmap string Profile)
    (n : string) (fs fs' : list Path) (imagePath : Path) :
  n <> EmptyString -> fs <> [] -> Permutation fs fs' ->
  leb (REQUIRED_VARIANT_MATCHES cfg) (ofNat 0) = false ->
  exists resp resp' profile profile' message tally tally' cd cd' cs cs',
    register store (Some n) (Some fs) = Returns (resp, <[n := profile]> store) /\
    register store (Some n) (Some fs') = Returns (resp', <[n := profile']> store) /\
    find cfg (<[n := profile]> store) (Some n) (Some imagePath) =
      Returns (json (Verdict message tally cd cs
                             (DISTANCE_THRESHOLD cfg) (COSINE_THRESHOLD cfg))) /\
    find cfg (<[n := profile']> store) (Some n) (Some imagePath) =
      Returns (json (Verdict message tally' cd' cs'
                             (DISTANCE_THRESHOLD cfg) (COSINE_THRESHOLD cfg))) /\
    variantMatches tally = variantMatches tally'.
Proof.
  intros Hn Hfs Hperm Hreq.
  assert (fs' <> []) as Hfs'
    by (intros ->; symmetry in Hperm; apply Permutation_nil in Hperm; contradiction).
  destruct (register_accepted store n fs Hn Hfs) as (profile & Hb & Hr).
  destruct (register_accepted store n fs' Hn Hfs') as (profile' & Hb' & Hr').
  apply buildPersonProfile_embeddings in Hb as [_ Hemb].
  apply buildPersonProfile_embeddings in Hb' as [_ Hemb'].
  assert (variantMatches (sweep cfg (getAugmentedEmbeddings imagePath)
                                (parsedEmbeddings profile)) =
          variantMatches (sweep cfg (getAugmentedEmbeddings imagePath)
                                (parsedEmbeddings profile'))) as Hcount.
  { apply permuted_variantMatches. unfold parsedEmbeddings. rewrite Hemb, Hemb'.
    now apply permuted_enrollment. }
  eexists _, _, profile, profile'.
  rewrite (find_registered cfg (<[n := profile]> store) n imagePath profile Hn
             (lookup_insert_eq _ _ _)).
  rewrite (find_registered cfg (<[n := profile']> store) n imagePath profile' Hn
             (lookup_insert_eq _ _ _)).
  cbv zeta.
  rewrite !(count_decides leb_trans leb_number) by exact Hreq.
  rewrite <- Hcount.
  do 7 eexists. split; [exact Hr|]. split; [exact Hr'|].
  split; [reflexivity|]. split; [reflexivity|]. exact Hcount.
Qed.

End OrderOfImages.

(** * The claims

    Each theorem is followed by the concrete cases that bear on it: a
    counterexample on doubles where the statement of the specification does
    not hold as it stands, and an application to the stand-in. *)

Import Demo DemoFacts.

(** C1 (amended). A verification against a stored profile answers
    "Person Found" exactly when minDistance <= DISTANCE_THRESHOLD,
    maxSimilarity >= COSINE_THRESHOLD and variantMatches >=
    REQUIRED_VARIANT_MATCHES, all three read off the tally of the pairwise
    sweep (the centroid figures take no part). With DISTANCE_THRESHOLD = 0
    the answer is "Person Not Found", whatever the similarities, as soon as
    no pair is at a computed distance of 0; in exact arithmetic that is the
    case of a query whose variants all differ from every stored variant of
    the same length. *)
Theorem isMatch_decision :
  (forall (num : Type) (N : Number num) (O : NumberOrder num)
          (Path Buffer : Type) (C : Collaborators Path Buffer)
          (cfg : Config) (store : gmap string Profile) (n : string)
          (imagePath : Path) (profile : Profile),
     n <> EmptyString -> store !! n = Some profile ->
     exists message tally centroidDistance centroidSimilarity,
       find cfg store (Some n) (Some imagePath) =
         Returns (json (Verdict message tally centroidDistance centroidSimilarity
                                (DISTANCE_THRESHOLD cfg) (COSINE_THRESHOLD cfg))) /\
       tally = sweep cfg (getAugmentedEmbeddings imagePath) (parsedEmbeddings profile) /\
       (message = "Person Found"%string \/ message = "Person Not Found"%string) /\
       (message = "Person Found"%string <->
          leb (minDistance tally) (DISTANCE_THRESHOLD cfg) = true /\
          leb (COSINE_THRESHOLD cfg) (maxSimilarity tally) = true /\
          leb (REQUIRED_VARIANT_MATCHES cfg) (ofNat (variantMatches tally)) = true) /\
       (DISTANCE_THRESHOLD cfg = zero ->
        (forall q s, In q (getAugmentedEmbeddings imagePath) ->
                     In s (parsedEmbeddings profile) ->
                     leb (euclideanDistance s q) zero = false) ->
        message = "Person Not Found"%string)) /\
  (forall (Path Buffer : Type) (C : Collaborators (num := Exact.xreal) Path Buffer)
          (cfg : Config) (store : gmap string Profile) (n : string)
          (imagePath : Path) (profile : Profile),
     n <> EmptyString -> store !! n = Some profile ->
     DISTANCE_THRESHOLD cfg = Exact.Fin 0 ->
     (forall q s, In q (getAugmentedEmbeddings imagePath) -> In s (embeddings profile) ->
        exists rq rs : list R,
          q = Exact.fin rq /\ s = Exact.fin rs /\
          length rq = length rs /\ rq <> rs) ->
     exists tally centroidDistance centroidSimilarity,
       find cfg store (Some n) (Some imagePath) =
         Returns (json (Verdict "Person Not Found" tally
                                centroidDistance centroidSimilarity
                                (DISTANCE_THRESHOLD cfg) (COSINE_THRESHOLD cfg)))).
Proof.
  split.
  - intros num N O Path Buffer C. exact find_decision.
  - intros Path Buffer C. exact exact_zero_threshold.
Qed.

(** C1, counterexample. Enroll a person from an image whose embedding is
    (1, 2^-600) and verify, with DISTANCE_THRESHOLD = 0, an image whose
    embedding is (1, 0): the single query variant differs from the single
    stored variant, yet the squared difference underflows, the computed
    distance is 0 and the answer is "Person Found". *)
Lemma zero_threshold_underflow_match :
  getAugmentedEmbeddings (plain [1; 0]%float) = [[1; 0]%float] /\
  [1; 0]%float <> [1; 0x1p-600]%float /\
  exists resp profile tally centroidDistance centroidSimilarity,
    register ∅ (Some "bob"%string) (Some [plain [1; 0x1p-600]%float]) =
      Returns (resp, <["bob"%string := profile]> ∅) /\
    parsedEmbeddings profile = [[1; 0x1p-600]%float] /\
    find zeroDistanceConfig (<["bob"%string := profile]> ∅)
         (Some "bob"%string) (Some (plain [1; 0]%float)) =
      Returns (json (Verdict "Person Found" tally centroidDistance centroidSimilarity
                             0%float (COSINE_THRESHOLD defaultConfig))).
Proof.
  split; [reflexivity|]. split; [exact tiny_differs|].
  destruct (register_accepted (∅ : gmap string Profile) "bob"
                              [plain [1; 0x1p-600]%float] bob_named)
    as (profile & Hb & Hreg); [discriminate|].
  vm_compute in Hb. injection Hb as <-.
  eexists _, _, _, _, _. split; [exact Hreg|]. split; [reflexivity|].
  rewrite (find_registered zeroDistanceConfig _ "bob" (plain [1; 0]%float) _
                           bob_named (lookup_insert_eq _ _ _)).
  vm_compute. reflexivity.
Qed.

(** C1 on the stand-in: with threshold 0 the orthogonal query (0, 1) is not
    a match for the stored (1, 0), on doubles and in exact arithmetic. *)
Lemma isMatch_decision_witness :
  ("alice"%string <> EmptyString /\
   demoStore !! "alice"%string = Some aliceProfile /\
   exists tally centroidDistance centroidSimilarity,
     find zeroDistanceConfig demoStore (Some "alice"%string)
          (Some (plain [0; 1]%float)) =
       Returns (json (Verdict "Person Not Found" tally
                              centroidDistance centroidSimilarity
                              0%float (COSINE_THRESHOLD defaultConfig)))) /\
  (exactStore !! "alice"%string = Some exactProfile /\
   exists tally centroidDistance centroidSimilarity,
     find exactZeroConfig exactStore (Some "alice"%string) (Some [0; 1]%R) =
       Returns (json (Verdict "Person Not Found" tally
                              centroidDistance centroidSimilarity
                              (Exact.Fin 0) (COSINE_THRESHOLD defaultConfig)))).
Proof.
  split.
  - split; [exact alice_named|]. split; [exact alice_stored|].
    destruct (proj1 isMatch_decision float _ _ Photo (list float) demo
                    zeroDistanceConfig demoStore "alice"%string
                    (plain [0; 1]%float) aliceProfile alice_named alice_stored)
      as (message & tally & cd & cs & Hfind & _ & _ & _ & Hzero).
    exists tally, cd, cs.
    rewrite <- (Hzero eq_refl orthogonal_positive). exact Hfind.
  - split; [exact exact_alice_stored|].
    exact (proj2 isMatch_decision (list R) (list Exact.xreal) exactDemo
                 exactZeroConfig exactStore "alice"%string [0; 1]%R exactProfile
                 alice_named exact_alice_stored eq_refl exact_query_differs).
Defined.

(** C2. In a verification against a stored profile, the pairs are all the
    (query variant, stored variant) combinations. minDistance is the minimum
    of their Euclidean distances and maxSimilarity the maximum of their
    cosine similarities (over the values that are numbers; +Infinity and
    -Infinity when no pair gives one), and variantMatches is the number of
    pairs that pass distance <= DISTANCE_THRESHOLD and similarity >=
    COSINE_THRESHOLD both, on the same pair. *)
Theorem sweep_minimum_maximum_count {num : Type} `{NumberOrder num}
    {Path Buffer : Type} `{Collaborators (num := num) Path Buffer}
    (cfg : Config) (store : gmap string Profile) (n : string)
    (imagePath : Path) (profile : Profile) :
  n <> EmptyString -> store !! n = Some profile ->
  exists message tally centroidDistance centroidSimilarity,
    find cfg store (Some n) (Some imagePath) =
      Returns (json (Verdict message tally centroidDistance centroidSimilarity
                             (DISTANCE_THRESHOLD cfg) (COSINE_THRESHOLD cfg))) /\
    let ps := pairs (getAugmentedEmbeddings imagePath) (parsedEmbeddings profile) in
    (forall p, In p ps <-> In (fst p) (getAugmentedEmbeddings imagePath) /\
                           In (snd p) (parsedEmbeddings profile)) /\
    ((exists p, In p ps /\ isNumber (pairDistance p) = true) ->
     minimumOf (minDistance tally) (map pairDistance ps)) /\
    ((forall p, In p ps -> isNumber (pairDistance p) = false) ->
     minDistance tally = pinf) /\
    ((exists p, In p ps /\ isNumber (pairSimilarity p) = true) ->
     maximumOf (maxSimilarity tally) (map pairSimilarity ps)) /\
    ((forall p, In p ps -> isNumber (pairSimilarity p) = false) ->
     maxSimilarity tally = ninf) /\
    variantMatches tally = length (List.filter (passes cfg) ps).
Proof.
  intros Hn Hp.
  rewrite (find_registered cfg store n imagePath profile Hn Hp). cbv zeta.
  do 4 eexists. split; [reflexivity|].
  split; [intros p; apply in_pairs|].
  apply sweep_extremes.
Qed.

(** C2 on the stand-in: the three variants of a sized image against the one
    stored variant. *)
Lemma sweep_minimum_maximum_count_witness :
  "alice"%string <> EmptyString /\
  demoStore !! "alice"%string = Some aliceProfile /\
  exists message tally centroidDistance centroidSimilarity,
    find defaultConfig demoStore (Some "alice"%string)
         (Some (sized [3; 4]%float 640 480)) =
      Returns (json (Verdict message tally centroidDistance centroidSimilarity
                             (DISTANCE_THRESHOLD defaultConfig)
                             (COSINE_THRESHOLD defaultConfig))) /\
    let ps := pairs (getAugmentedEmbeddings (sized [3; 4]%float 640 480))
                    (parsedEmbeddings aliceProfile) in
    minimumOf (minDistance tally) (map pairDistance ps) /\
    maximumOf (maxSimilarity tally) (map pairSimilarity ps) /\
    variantMatches tally = length (List.filter (passes defaultConfig) ps).
Proof.
  split; [exact alice_named|]. split; [exact alice_stored|].
  destruct (sweep_minimum_maximum_count
              defaultConfig demoStore "alice"%string
              (sized [3; 4]%float 640 480) aliceProfile alice_named alice_stored)
    as (message & tally & cd & cs & Hfind & _ & Hmin & _ & Hmax & _ & Hcount).
  exists message, tally, cd, cs. split; [exact Hfind|].
  assert (In (fullImageEmbedding (sized [3; 4]%float 640 480), [1; 0]%float)
             (pairs (getAugmentedEmbeddings (sized [3; 4]%float 640 480))
                    (parsedEmbeddings aliceProfile))) as Hpair.
  { apply in_pairs. split; left; reflexivity. }
  split; [|split; [|exact Hcount]].
  - apply Hmin. eexists. split; [exact Hpair | reflexivity].
  - apply Hmax. eexists. split; [exact Hpair | reflexivity].
Defined.

(** The two tests are taken on the same pair: against [splitProfile] the
    query (1, 0) has a pair within the distance threshold and another pair
    above the similarity threshold, but no pair with both, and it is not a
    match under the default thresholds. *)
Lemma joint_test_on_one_pair :
  find defaultConfig (<["dave"%string := splitProfile]> ∅)
       (Some "dave"%string) (Some (plain [1; 0]%float)) =
    Returns (json (Verdict "Person Not Found"
                           {| minDistance := 0.5%float;
                              maxSimilarity := 8%float;
                              variantMatches := 0 |}
                           0%float 1%float
                           (DISTANCE_THRESHOLD defaultConfig)
                           (COSINE_THRESHOLD defaultConfig))) /\
  leb 0.5%float (DISTANCE_THRESHOLD defaultConfig) = true /\
  leb (COSINE_THRESHOLD defaultConfig) 8%float = true.
Proof.
  split; [|split; reflexivity].
  rewrite (find_registered defaultConfig _ "dave" (plain [1; 0]%float) splitProfile)
    by (discriminate || apply lookup_insert_eq).
  reflexivity.
Qed.

(** C3 (amended). Given at least one embedding, [buildPersonProfile]
    returns a profile that keeps the embeddings, whose centroid is
    [normalizeEmbedding] of their average (in exact arithmetic the
    element-wise mean), whose maxIntraDistance is the maximum of the
    Euclidean distances of the embeddings to the centroid and whose
    minIntraSimilarity is the minimum of their cosine similarities with it
    (over the values that are numbers; 0 and +Infinity when there is none).
    In exact arithmetic, one or more copies of one embedding of norm 1 give
    maxIntraDistance = 0 and minIntraSimilarity = 1. *)
Theorem profile_of_embeddings :
  (forall (num : Type) (N : Number num) (O : NumberOrder num)
          (e : list num) (es : list (list num)),
     exists avg profile,
       averageEmbeddings (e :: es) = Returns avg /\
       buildPersonProfile (e :: es) = Returns profile /\
       embeddings profile = e :: es /\
       centroid profile = normalizeEmbedding avg /\
       let distanceTo := fun x => euclideanDistance x (centroid profile) in
       let similarityTo := fun x => cosineSimilarity x (centroid profile) in
       ((exists x, In x (e :: es) /\ isNumber (distanceTo x) = true) ->
        maximumOf (maxIntraDistance profile) (map distanceTo (e :: es))) /\
       ((forall x, In x (e :: es) -> isNumber (distanceTo x) = false) ->
        maxIntraDistance profile = zero) /\
       ((exists x, In x (e :: es) /\ isNumber (similarityTo x) = true) ->
        minimumOf (minIntraSimilarity profile) (map similarityTo (e :: es))) /\
       ((forall x, In x (e :: es) -> isNumber (similarityTo x) = false) ->
        minIntraSimilarity profile = pinf)) /\
  (forall (e : list R) (es : list (list R)),
     (forall e', In e' es -> length e' = length e) ->
     averageEmbeddings (map Exact.fin (e :: es)) =
       Returns (Exact.fin (Exact.meanR (e :: es)))) /\
  (forall (e : list R) (k : nat),
     Exact.normR e = 1%R ->
     buildPersonProfile (repeat (Exact.fin e) (S k)) =
       Returns {| embeddings := repeat (Exact.fin e) (S k);
                  centroid := Exact.fin e;
                  maxIntraDistance := Exact.Fin 0;
                  minIntraSimilarity := Exact.Fin 1 |}).
Proof.
  split; [intros num N O; exact profile_statistics|].
  split; [exact ExactFacts.average_fin|].
  intros e k Hnorm. apply ExactFacts.profile_of_copies.
  unfold Exact.normR in Hnorm.
  rewrite <- (sqrt_def (Exact.sumsqR e)) by apply ExactFacts.sumsqR_nonneg.
  rewrite Hnorm. lra.
Qed.

(** C3, counterexample. The profile of one all-zero embedding has
    minIntraSimilarity 0, not 1; and on doubles the profile of three copies
    of the normalized embedding of (3, 4), whose computed norm is 1, has a
    maxIntraDistance above 0. *)
Lemma identical_embeddings_off :
  buildPersonProfile [[0; 0]%float] =
    Returns {| embeddings := [[0; 0]%float];
               centroid := [0; 0]%float;
               maxIntraDistance := 0%float;
               minIntraSimilarity := 0%float |} /\
  let e := normalizeEmbedding [3; 4]%float in
  sqrt (sumSquares e) = 1%float /\
  exists profile,
    buildPersonProfile [e; e; e] = Returns profile /\
    maxIntraDistance profile = 0x1p-53%float /\
    ltb zero (maxIntraDistance profile) = true.
Proof.
  split; [reflexivity|]. cbv zeta. split; [reflexivity|].
  eexists. split; [vm_compute; reflexivity|]. split; reflexivity.
Qed.

(** C3 on the stand-in: the profile of (1, 0) and (0, 1) on doubles, and of
    three copies of (1, 0) in exact arithmetic. *)
Lemma profile_of_embeddings_witness :
  (exists profile,
     buildPersonProfile [[1; 0]%float; [0; 1]%float] = Returns profile /\
     maximumOf (maxIntraDistance profile)
               (map (fun x => euclideanDistance x (centroid profile))
                    [[1; 0]%float; [0; 1]%float]) /\
     minimumOf (minIntraSimilarity profile)
               (map (fun x => cosineSimilarity x (centroid profile))
                    [[1; 0]%float; [0; 1]%float])) /\
  averageEmbeddings (map Exact.fin [[1; 0]%R; [0; 1]%R]) =
    Returns (Exact.fin (Exact.meanR [[1; 0]%R; [0; 1]%R])) /\
  Exact.normR [1; 0]%R = 1%R /\
  buildPersonProfile (repeat (Exact.fin [1; 0]%R) 3) =
    Returns {| embeddings := repeat (Exact.fin [1; 0]%R) 3;
               centroid := Exact.fin [1; 0]%R;
               maxIntraDistance := Exact.Fin 0;
               minIntraSimilarity := Exact.Fin 1 |}.
Proof.
  split.
  { destruct (proj1 profile_of_embeddings float _ _ [1; 0]%float [[0; 1]%float])
      as (avg & profile & Havg & Hb & _ & Hc & Hmax & _ & Hmin & _).
    vm_compute in Havg. injection Havg as <-.
    exists profile. split; [exact Hb|]. split.
    - apply Hmax. exists [1; 0]%float. split; [now left|].
      rewrite Hc. reflexivity.
    - apply Hmin. exists [1; 0]%float. split; [now left|].
      rewrite Hc. reflexivity. }
  split.
  { apply (proj1 (proj2 profile_of_embeddings) [1; 0]%R [[0; 1]%R]).
    intros e' [<- | []]. reflexivity. }
  split; [exact unit_vector_norm|].
  exact (proj2 (proj2 profile_of_embeddings) [1; 0]%R 2 unit_vector_norm).
Defined.

(** C4 (amended). [normalizeEmbedding] never throws. When the norm it
    computes (the square root of the sum of squares) is 0, NaN or infinite,
    it returns the vector as it is: this is the case of the all-zero vector.
    Otherwise it returns the vector with every element divided by that
    norm; in exact arithmetic this is so for every finite vector that is
    not all zeros, and the result then has norm 1. *)
Theorem normalize_by_computed_norm :
  (forall (num : Type) (N : Number num) (v : list num),
     (falsy (sqrt (sumSquares v)) = true \/ isFinite (sqrt (sumSquares v)) = false ->
      normalizeEmbedding v = v) /\
     (falsy (sqrt (sumSquares v)) = false -> isFinite (sqrt (sumSquares v)) = true ->
      normalizeEmbedding v = map (fun val => div val (sqrt (sumSquares v))) v)) /\
  (forall k : nat, normalizeEmbedding (repeat 0%float k) = repeat 0%float k) /\
  (forall v : list R,
     (forall x, In x v -> x = 0%R) ->
     normalizeEmbedding (Exact.fin v) = Exact.fin v) /\
  (forall v : list R,
     (exists x, In x v /\ x <> 0%R) ->
     normalizeEmbedding (Exact.fin v) =
       Exact.fin (map (fun x => (x / Exact.normR v)%R) v) /\
     sqrt (sumSquares (normalizeEmbedding (Exact.fin v))) = Exact.Fin 1).
Proof.
  split; [|split; [exact JSFacts.normalize_zeros | split]].
  - intros num N v. unfold normalizeEmbedding. split.
    + intros [-> | ->]; [reflexivity|]. now rewrite orb_true_r.
    + intros -> ->. reflexivity.
  - intros v Hz. apply ExactFacts.normalize_fin_zero.
    now apply ExactFacts.sumsqR_of_zeros.
  - intros v (x & Hx & Hnz).
    assert (Exact.sumsqR v <> 0%R) as Hsum.
    { intros Hz. apply Hnz. exact (ExactFacts.sumsqR_zero v Hz x Hx). }
    split; [now apply ExactFacts.normalize_fin | now apply ExactFacts.normalized_norm].
Qed.

(** C4, counterexample. The vectors (2^600) and (2^-600) are finite and not
    zero, but their squares overflow and underflow: the computed norm is
    infinite for the one and 0 for the other, and both are returned as they
    are, with a norm that is far from 1. Next to the underflow threshold the
    square is rounded to the smallest positive double: (1.5 * 2^-538) has
    the computed norm 2^-537 and is normalized to (0.75). *)
Lemma normalize_out_of_range_unchanged :
  (isFinite 0x1p600%float = true /\ falsy 0x1p600%float = false /\
   sqrt (sumSquares [0x1p600%float]) = PrimFloat.infinity /\
   normalizeEmbedding [0x1p600%float] = [0x1p600%float]) /\
  (isFinite 0x1p-600%float = true /\ falsy 0x1p-600%float = false /\
   sqrt (sumSquares [0x1p-600%float]) = 0%float /\
   normalizeEmbedding [0x1p-600%float] = [0x1p-600%float]) /\
  (sqrt (sumSquares [0x1.8p-538%float]) = 0x1p-537%float /\
   normalizeEmbedding [0x1.8p-538%float] = [0.75%float]).
Proof. repeat split; reflexivity. Qed.

(** C4 on the stand-in: (3, 4) is divided by its computed norm 5, and in
    exact arithmetic the result has norm 1. *)
Lemma normalize_by_computed_norm_witness :
  falsy (sqrt (sumSquares [3; 4]%float)) = false /\
  isFinite (sqrt (sumSquares [3; 4]%float)) = true /\
  normalizeEmbedding [3; 4]%float = [(3 / 5)%float; (4 / 5)%float] /\
  (exists x, In x [3; 4]%R /\ x <> 0%R) /\
  sqrt (sumSquares (normalizeEmbedding (Exact.fin [3; 4]%R))) = Exact.Fin 1.
Proof.
  assert (falsy (sqrt (sumSquares [3; 4]%float)) = false) as Hfalsy
    by reflexivity.
  assert (isFinite (sqrt (sumSquares [3; 4]%float)) = true) as Hfinite
    by reflexivity.
  split; [exact Hfalsy|]. split; [exact Hfinite|]. split.
  { rewrite (proj2 (proj1 normalize_by_computed_norm float _ [3; 4]%float)
                   Hfalsy Hfinite).
    reflexivity. }
  assert (exists x, In x [3; 4]%R /\ x <> 0%R) as Hnz.
  { exists 3%R. split; [now left | lra]. }
  split; [exact Hnz|].
  exact (proj2 (proj2 (proj2 (proj2 normalize_by_computed_norm)) [3; 4]%R Hnz)).
Defined.



(** C6. In a verification against a stored profile, centroidDistance and
    centroidSimilarity compare the stored centroid with the first query
    variant only, which is the embedding of the full image: they are the
    same whatever the other variants are. And the verdict (message and
    tally) is the same for a profile that differs in its centroid alone. *)
Theorem centroid_first_variant_only {num : Type} {N : Number num}
    {Path Buffer : Type} {C : Collaborators (num := num) Path Buffer}
    (cfg : Config) (store : gmap string Profile)
    (n : string) (imagePath : Path) (profile : Profile) :
  n <> EmptyString -> store !! n = Some profile ->
  let centroidDistance :=
    euclideanDistance (parsedCentroid profile) (fullImageEmbedding imagePath) in
  let centroidSimilarity :=
    cosineSimilarity (parsedCentroid profile) (fullImageEmbedding imagePath) in
  exists message tally,
    find cfg store (Some n) (Some imagePath) =
      Returns (json (Verdict message tally centroidDistance centroidSimilarity
                             (DISTANCE_THRESHOLD cfg) (COSINE_THRESHOLD cfg))) /\
    head (getAugmentedEmbeddings imagePath) = Some (fullImageEmbedding imagePath) /\
    (forall others : Collaborators (num := num) Path Buffer,
       @fullImageEmbedding num N Path Buffer others imagePath =
         @fullImageEmbedding num N Path Buffer C imagePath ->
       exists message' tally',
         @find num N Path Buffer others cfg store (Some n) (Some imagePath) =
           Returns (json (Verdict message' tally' centroidDistance centroidSimilarity
                                  (DISTANCE_THRESHOLD cfg) (COSINE_THRESHOLD cfg)))) /\
    (forall centroid' : list num,
       let profile' :=
         {| embeddings := embeddings profile;
            centroid := centroid';
            maxIntraDistance := maxIntraDistance profile;
            minIntraSimilarity := minIntraSimilarity profile |} in
       exists centroidDistance' centroidSimilarity',
         find cfg (<[n := profile']> store) (Some n) (Some imagePath) =
           Returns (json (Verdict message tally
                                  centroidDistance' centroidSimilarity'
                                  (DISTANCE_THRESHOLD cfg) (COSINE_THRESHOLD cfg)))).
Proof.
  intros Hn Hp centroidDistance centroidSimilarity.
  rewrite (find_registered cfg store n imagePath profile Hn Hp). cbv zeta.
  do 2 eexists. split; [reflexivity|]. split; [|split].
  - destruct (augmented_first imagePath) as [rest ->]. reflexivity.
  - intros others Hfull.
    rewrite (@find_registered num N Path Buffer others cfg store n imagePath
                              profile Hn Hp).
    cbv zeta. rewrite Hfull. do 2 eexists. reflexivity.
  - intros centroid'.
    rewrite (find_registered cfg _ n imagePath _ Hn (lookup_insert_eq _ _ _)).
    cbv zeta. do 2 eexists. reflexivity.
Qed.

(** C6 on the stand-in: a query with three variants. *)
Lemma centroid_first_variant_only_witness :
  "alice"%string <> EmptyString /\
  demoStore !! "alice"%string = Some aliceProfile /\
  exists message tally,
    find defaultConfig demoStore (Some "alice"%string)
         (Some (sized [3; 4]%float 640 480)) =
      Returns (json (Verdict message tally
                             (euclideanDistance
                                (parsedCentroid aliceProfile)
                                (fullImageEmbedding (sized [3; 4]%float 640 480)))
                             (cosineSimilarity
                                (parsedCentroid aliceProfile)
                                (fullImageEmbedding (sized [3; 4]%float 640 480)))
                             (DISTANCE_THRESHOLD defaultConfig)
                             (COSINE_THRESHOLD defaultConfig))) /\
    length (getAugmentedEmbeddings (sized [3; 4]%float 640 480)) = 3.
Proof.
  split; [exact alice_named|]. split; [exact alice_stored|].
  destruct (centroid_first_variant_only
              defaultConfig demoStore "alice"%string
              (sized [3; 4]%float 640 480) aliceProfile alice_named alice_stored)
    as (message & tally & Hfind & _).
  exists message, tally. split; [exact Hfind | reflexivity].
Defined.

(** C7. A verification that names a person with no stored profile (and
    carries a name and an image) answers with status 200 and a body that
    holds the message "Person not registered" and nothing else: it is not a
    400 response and not a verdict, and no distance, similarity or count is
    part of it. *)
Theorem find_unregistered {num : Type} `{Number num}
    {Path Buffer : Type} `{Collaborators (num := num) Path Buffer}
    (cfg : Config) (store : gmap string Profile)
    (n : string) (imagePath : Path) :
  n <> EmptyString -> store !! n = None ->
  find cfg store (Some n) (Some imagePath) =
    Returns {| status := 200; body := MessageOnly "Person not registered" |}.
Proof. intros Hn Hp. now rewrite (find_not_stored cfg store n imagePath Hn Hp). Qed.

(** C7 on the stand-in: nobody is stored under the name bob. *)
Lemma find_unregistered_witness :
  "bob"%string <> EmptyString /\
  demoStore !! "bob"%string = None /\
  find defaultConfig demoStore (Some "bob"%string) (Some (plain [1; 0]%float)) =
    Returns {| status := 200; body := MessageOnly "Person not registered" |}.
Proof.
  split; [exact bob_named|]. split; [exact bob_not_stored|].
  exact (find_unregistered defaultConfig demoStore "bob"%string
                           (plain [1; 0]%float) bob_named bob_not_stored).
Defined.

(** C8. Enrollment answers 400 when the name is missing or empty, and when
    no image is supplied; verification answers 400 when the name is missing
    or empty, and when the image is missing. In each case the answer is a
    message fixed in advance (it depends neither on the stored profiles nor
    on any image) and the directory of profiles is returned as it was. *)
Theorem invalid_requests_rejected {num : Type} `{Number num}
    {Path Buffer : Type} `{Collaborators (num := num) Path Buffer}
    (cfg : Config) (store : gmap string Profile)
    (name : option string) (files : option (list Path)) (file : option Path) :
  (name = None \/ name = Some EmptyString ->
   register store name files =
     Returns ({| status := 400; body := MessageOnly "Name is required" |}, store) /\
   find cfg store name file =
     Returns {| status := 400; body := MessageOnly "Name required" |}) /\
  (forall n, name = Some n -> n <> EmptyString ->
   (files = None \/ files = Some [] ->
    register store name files =
      Returns ({| status := 400; body := MessageOnly "At least one image required" |},
               store)) /\
   find cfg store name None =
     Returns {| status := 400; body := MessageOnly "Image required" |}).
Proof.
  split.
  - intros Hname. split.
    + exact (register_rejects_name store name files Hname).
    + exact (find_rejects_name cfg store name file Hname).
  - intros n -> Hn. split.
    + intros Hfiles. exact (register_rejects_files store n files Hn Hfiles).
    + exact (find_rejects_file cfg store n Hn).
Qed.

(** C8 on the stand-in: an empty name, an empty list of images, a missing
    query image. *)
Lemma invalid_requests_rejected_witness :
  register demoStore (Some EmptyString) (Some [plain [1; 0]%float]) =
    Returns ({| status := 400; body := MessageOnly "Name is required" |}, demoStore) /\
  register demoStore (Some "carol"%string) (Some []) =
    Returns ({| status := 400; body := MessageOnly "At least one image required" |},
             demoStore) /\
  find defaultConfig demoStore (Some "alice"%string) None =
    Returns {| status := 400; body := MessageOnly "Image required" |}.
Proof.
  split; [|split].
  - exact (proj1 (proj1 (invalid_requests_rejected
                           defaultConfig demoStore (Some EmptyString)
                           (Some [plain [1; 0]%float]) None)
                        (or_intror eq_refl))).
  - refine (proj1 (proj2 (invalid_requests_rejected
                            defaultConfig demoStore (Some "carol"%string)
                            (Some []) None)
                         "carol"%string eq_refl _)
                  (or_intror eq_refl)).
    discriminate.
  - exact (proj2 (proj2 (invalid_requests_rejected
                           defaultConfig demoStore (Some "alice"%string)
                           (Some []) None)
                        "alice"%string eq_refl alice_named)).
Defined.



(** C10. [averageEmbeddings] throws on the empty collection and returns on
    any other. The augmentation of an image is never empty, so under the
    guard of the register endpoint the collection handed to
    [buildPersonProfile] is not empty, and neither endpoint ever throws: in
    particular [queryEmbeddings[0]] is defined. Every profile in a directory
    that enrollments have built holds at least one embedding. *)
Theorem aggregated_collections_nonempty {num : Type} `{Number num}
    {Path Buffer : Type} `{Collaborators (num := num) Path Buffer} :
  (averageEmbeddings (num := num) [] = Throws /\
   forall (e : list num) (es : list (list num)),
     exists avg, averageEmbeddings (e :: es) = Returns avg) /\
  (forall imagePath : Path,
     head (getAugmentedEmbeddings imagePath) = Some (fullImageEmbedding imagePath)) /\
  (forall (fs : list Path), fs <> [] -> flat_map getAugmentedEmbeddings fs <> []) /\
  (forall (store : gmap string Profile) (name : option string)
          (files : option (list Path)),
     exists r, register store name files = Returns r) /\
  (forall (cfg : Config) (store : gmap string Profile) (name : option string)
          (file : option Path),
     exists r, find cfg store name file = Returns r) /\
  (forall (store : gmap string Profile) (n : string) (profile : Profile),
     reachable store -> store !! n = Some profile -> embeddings profile <> []).
Proof.
  split; [split; [reflexivity | exact averageEmbeddings_returns]|].
  split; [|split; [|split; [|split]]].
  - intros imagePath. destruct (augmented_first imagePath) as [rest ->]. reflexivity.
  - exact flat_map_augmented_nonempty.
  - exact register_returns.
  - exact find_returns.
  - intros store n profile Hreach Hp.
    destruct (reachable_profile store n profile Hreach Hp) as (fs & _ & Hb).
    apply buildPersonProfile_embeddings in Hb as [Hne ->]. exact Hne.
Qed.

(** C10 on the stand-in: the directory obtained by enrolling alice. *)
Lemma aggregated_collections_nonempty_witness :
  @reachable float _ Photo (list float) demo demoStore /\
  demoStore !! "alice"%string = Some aliceProfile /\
  embeddings aliceProfile <> [].
Proof.
  split; [exact demoStore_reachable|]. split; [exact alice_stored|].
  exact (proj2 (proj2 (proj2 (proj2 (proj2
           (aggregated_collections_nonempty (Path := Photo))))))
           demoStore "alice"%string aliceProfile demoStore_reachable alice_stored).
Defined.

(** * Further properties of the code

    Properties read off the source that the claims leave out: the tensor
    the extractor is run on, the vector utilities on doubles, the crop
    geometry, and what enrollment followed by verification gives. *)

Import Tensor.

(** X1. The tensor data [getEmbeddingFromBuffer] builds has one entry per
    byte of the raw buffer. Entry j holds the rescaled byte of the same
    pixel (the group of three indices j belongs to) at the mirrored
    position: the first and the third channel of every pixel are swapped
    and the second stays. When the buffer length is not a multiple of 3
    the last group is incomplete, and an entry whose mirrored index lies
    past the end of the buffer is NaN. *)
Theorem floatData_channels_mirrored (rawBuffer : list Init.Byte.byte) :
  length (floatDataOf rawBuffer) = length rawBuffer /\
  (forall j, j < length rawBuffer ->
     floatDataOf rawBuffer !! j = Some (rescale (channel rawBuffer (mirror j)))) /\
  (forall j, j < length rawBuffer -> length rawBuffer <= mirror j ->
     floatDataOf rawBuffer !! j = Some PrimFloat.nan).
Proof.
  split; [apply TensorFacts.length_floatDataOf|].
  split; [apply TensorFacts.lookup_floatDataOf|].
  intros j Hj Hout. rewrite TensorFacts.lookup_floatDataOf by exact Hj.
  unfold channel. rewrite lookup_ge_None_2 by exact Hout. reflexivity.
Qed.

(** X1 on a buffer of four bytes: one pixel and the first byte of a
    second one, whose entry is NaN. *)
Lemma floatData_channels_mirrored_witness :
  3 < length [Init.Byte.x00; Init.Byte.xff; Init.Byte.x80; Init.Byte.x01] /\
  length [Init.Byte.x00; Init.Byte.xff; Init.Byte.x80; Init.Byte.x01] <= mirror 3 /\
  floatDataOf [Init.Byte.x00; Init.Byte.xff; Init.Byte.x80; Init.Byte.x01] !! 3 =
    Some PrimFloat.nan.
Proof.
  assert (3 < length [Init.Byte.x00; Init.Byte.xff; Init.Byte.x80; Init.Byte.x01])
    as Hj by (cbn; lia).
  assert (length [Init.Byte.x00; Init.Byte.xff; Init.Byte.x80; Init.Byte.x01] <= mirror 3)
    as Hout by (cbn; lia).
  split; [exact Hj|]. split; [exact Hout|].
  exact (proj2 (proj2 (floatData_channels_mirrored
                         [Init.Byte.x00; Init.Byte.xff; Init.Byte.x80; Init.Byte.x01]))
               3 Hj Hout).
Defined.


(** X3. For every byte b the value stored in the tensor is (b - 127.5) / 128
    exactly: the division and the rounding to binary32 of the
    [Float32Array] lose nothing, the byte is recovered as v * 128 + 127.5,
    and the value lies strictly between -1 and 1. *)
Theorem rescale_byte_exact (b : Init.Byte.byte) :
  rescale (byteValue b) = ((byteValue b - 127.5) / 128)%float /\
  (rescale (byteValue b) * 128 + 127.5)%float = byteValue b /\
  (-1 <? rescale (byteValue b))%float = true /\
  (rescale (byteValue b) <? 1)%float = true.
Proof. destruct b; vm_compute; repeat split. Qed.

(** X4. On doubles, [euclideanDistance] and [cosineSimilarity] give the same
    result, bit for bit, when their two arguments of equal length are
    exchanged. *)
Theorem distance_similarity_symmetric (a b : list float) :
  length a = length b ->
  euclideanDistance a b = euclideanDistance b a /\
  cosineSimilarity a b = cosineSimilarity b a.
Proof.
  intros Hlen. split.
  - rewrite !euclideanDistance_squaredDistance by (exact Hlen || now symmetry).
    f_equal. apply JSVectors.squares_sym.
  - rewrite !cosineSimilarity_dotProduct by (exact Hlen || now symmetry).
    apply JSVectors.products_sym.
Qed.

(** X4 on a concrete case. *)
Lemma distance_similarity_symmetric_witness :
  length [3; 4]%float = length [1; 0]%float /\
  euclideanDistance [3; 4]%float [1; 0]%float =
    euclideanDistance [1; 0]%float [3; 4]%float /\
  cosineSimilarity [3; 4]%float [1; 0]%float =
    cosineSimilarity [1; 0]%float [3; 4]%float.
Proof.
  split; [reflexivity|].
  exact (distance_similarity_symmetric [3; 4]%float [1; 0]%float eq_refl).
Defined.

(** X5. On doubles, the distance of a vector of finite numbers to itself is
    0, and so is its distance to what the find endpoint reads of it in a
    profile file. *)
Theorem distance_to_itself_zero (a : list float) :
  (forall x, In x a -> isFinite x = true) ->
  euclideanDistance a a = 0%float /\
  euclideanDistance (map jsonNumber a) a = 0%float.
Proof.
  intros Hfin. split;
    [now apply JSEnroll.distance_self | now apply JSEnroll.distance_parsed_self].
Qed.

(** X5 on a concrete case. *)
Lemma distance_to_itself_zero_witness :
  (forall x, In x [3; 4]%float -> isFinite x = true) /\
  euclideanDistance [3; 4]%float [3; 4]%float = 0%float.
Proof.
  assert (forall x, In x [3; 4]%float -> isFinite x = true) as Hfin
    by (intros x [<- | [<- | []]]; reflexivity).
  split; [exact Hfin|]. exact (proj1 (distance_to_itself_zero [3; 4]%float Hfin)).
Defined.

(** X6. The loops of [euclideanDistance] and [cosineSimilarity] run over the
    indices of the first argument: what the second argument holds beyond
    them is ignored. On doubles, when an element of either argument at one
    of these indices is NaN or missing both results are NaN and the pair
    fails the joint test, whatever the thresholds; this is the case of a
    second argument shorter than the first. *)
Theorem mismatched_lengths :
  (forall (num : Type) (N : Number num) (a b : list num),
     euclideanDistance a b = euclideanDistance a (firstn (length a) b) /\
     cosineSimilarity a b = cosineSimilarity a (firstn (length a) b)) /\
  (forall (a b : list float) (i : nat),
     i < length a -> at_ a i = PrimFloat.nan \/ at_ b i = PrimFloat.nan ->
     euclideanDistance a b = PrimFloat.nan /\
     cosineSimilarity a b = PrimFloat.nan /\
     forall cfg : Config, passes cfg (b, a) = false) /\
  (forall a b : list float,
     length b < length a ->
     euclideanDistance a b = PrimFloat.nan /\
     cosineSimilarity a b = PrimFloat.nan).
Proof.
  split; [|split].
  - intros num N a b. split;
      [apply euclideanDistance_firstn | apply cosineSimilarity_firstn].
  - intros a b i Hi Hnan. split; [|split].
    + exact (JSPoison.nan_term_distance a b i Hi Hnan).
    + exact (JSPoison.nan_term_similarity a b i Hi Hnan).
    + intros cfg. unfold passes, pairDistance. cbn [fst snd].
      rewrite (JSPoison.nan_term_distance a b i Hi Hnan).
      cbn [leb JS.float_Number]. now rewrite JSArith.leb_nan_l.
  - intros a b Hlen.
    assert (at_ a (length b) = PrimFloat.nan \/ at_ b (length b) = PrimFloat.nan) as Hnan
      by (right; apply JSVectors.at_past_end; lia).
    split.
    + exact (JSPoison.nan_term_distance a b (length b) Hlen Hnan).
    + exact (JSPoison.nan_term_similarity a b (length b) Hlen Hnan).
Qed.

(** X6 on a concrete case. *)
Lemma mismatched_lengths_witness :
  euclideanDistance [1; 2]%float [1; 2; 3]%float =
    euclideanDistance [1; 2]%float [1; 2]%float /\
  length [1]%float < length [1; 2]%float /\
  euclideanDistance [1; 2]%float [1]%float = PrimFloat.nan /\
  cosineSimilarity [1; 2]%float [1]%float = PrimFloat.nan.
Proof.
  destruct mismatched_lengths as (Hcut & _ & Hshort).
  split; [exact (proj1 (Hcut float _ [1; 2]%float [1; 2; 3]%float))|].
  assert (length [1]%float < length [1; 2]%float) as Hlen by (cbn; lia).
  split; [exact Hlen|]. exact (Hshort [1; 2]%float [1]%float Hlen).
Defined.

(** X7. The average has the length of the first embedding, and so has the
    centroid of the profile. On doubles, when some later embedding is
    shorter, the average is NaN at every index that embedding lacks, and
    the centroid is then the average itself, not normalized. *)
Theorem average_of_uneven_lengths :
  (forall (num : Type) (N : Number num) (first : list num) (rest : list (list num)),
     exists avg profile,
       averageEmbeddings (first :: rest) = Returns avg /\
       buildPersonProfile (first :: rest) = Returns profile /\
       length avg = length first /\
       length (centroid profile) = length first) /\
  (forall (first : list float) (rest : list (list float)) (emb : list float) (i : nat),
     In emb rest -> length emb <= i -> i < length first ->
     exists avg profile,
       averageEmbeddings (first :: rest) = Returns avg /\
       buildPersonProfile (first :: rest) = Returns profile /\
       avg !! i = Some PrimFloat.nan /\
       centroid profile = avg).
Proof.
  split.
  - intros num N first rest.
    destruct (buildPersonProfile_returns first rest) as (avg & Havg & Hb).
    eexists avg, _. split; [exact Havg|]. split; [exact Hb|].
    pose proof (length_averageEmbeddings first rest avg Havg) as Hlen.
    split; [exact Hlen|]. cbn [centroid]. now rewrite length_normalizeEmbedding.
  - intros first rest emb i Hin Hshort Hi.
    destruct (JSAverage.average_nan first rest emb i (or_intror Hin)
                (JSVectors.at_past_end emb i Hshort) Hi) as (avg & Havg & Hnan).
    destruct (buildPersonProfile_returns first rest) as (avg' & Havg' & Hb).
    assert (avg' = avg) as -> by congruence.
    eexists avg, _. split; [exact Havg|]. split; [exact Hb|].
    split; [exact Hnan|]. cbn [centroid]. apply JSAverage.normalize_nan.
    eapply list_elem_of_In, list_elem_of_lookup_2, Hnan.
Qed.

(** X7 on a concrete case. *)
Lemma average_of_uneven_lengths_witness :
  In [3]%float [[3]%float] /\ length [3]%float <= 1 /\ 1 < length [1; 2]%float /\
  exists avg profile,
    averageEmbeddings [[1; 2]%float; [3]%float] = Returns avg /\
    buildPersonProfile [[1; 2]%float; [3]%float] = Returns profile /\
    avg !! 1 = Some PrimFloat.nan /\
    centroid profile = avg.
Proof.
  assert (In [3]%float [[3]%float]) as Hin by now left.
  assert (length [3]%float <= 1) as Hshort by (cbn; lia).
  assert (1 < length [1; 2]%float) as Hi by (cbn; lia).
  split; [exact Hin|]. split; [exact Hshort|]. split; [exact Hi|].
  exact (proj2 average_of_uneven_lengths [1; 2]%float [[3]%float] [3]%float 1
           Hin Hshort Hi).
Defined.

(** X8. In exact arithmetic [normalizeEmbedding] applied twice gives what it
    gives applied once, on every vector (also with infinite or NaN
    elements). On doubles the second pass can change the last bits, as for
    (1, 1). *)
Theorem normalize_twice_exact (v : list Exact.xreal) :
  normalizeEmbedding (normalizeEmbedding v) = normalizeEmbedding v.
Proof. apply ExactMore.normalize_idempotent. Qed.

Lemma normalize_twice_differs :
  normalizeEmbedding (normalizeEmbedding [1; 1]%float) <>
  normalizeEmbedding [1; 1]%float.
Proof.
  intros Heq. apply (f_equal (fun v => nth 0 v 0%float)) in Heq.
  apply (f_equal (fun x => PrimFloat.ltb (nth 0 (normalizeEmbedding [1; 1]%float) 0%float) x))
    in Heq.
  vm_compute in Heq. discriminate Heq.
Qed.

(** X9. In exact arithmetic, for two vectors of norm 1 and equal length the
    Euclidean distance is the square root of 2 - 2 s, where s is their dot
    product, and under the default thresholds the pair passes the joint
    test exactly when its similarity reaches COSINE_THRESHOLD: the distance
    test then adds nothing. *)
Theorem unit_vectors_one_test (a b : list R) :
  length a = length b -> Exact.sumsqR a = 1%R -> Exact.sumsqR b = 1%R ->
  euclideanDistance (Exact.fin a) (Exact.fin b) =
    Exact.Fin (R_sqrt.sqrt (2 - 2 * Exact.dotR a b)) /\
  (passes defaultConfig (Exact.fin b, Exact.fin a) = true <->
   leb (COSINE_THRESHOLD defaultConfig)
       (cosineSimilarity (Exact.fin a) (Exact.fin b)) = true).
Proof.
  intros Hlen Ha Hb. split; [now apply ExactMore.unit_distance|].
  rewrite (ExactMore.unit_passes a b Hlen Ha Hb).
  rewrite ExactFacts.cosineSimilarity_fin by exact Hlen.
  cbn [COSINE_THRESHOLD defaultConfig]. rewrite ExactMore.hundredths_fin.
  cbn [leb Exact.xreal_Number Exact.xleb]. rewrite ExactOrder.Rleb_true.
  replace (INR 62) with 62%R by (rewrite INR_IZR_INZ; reflexivity). reflexivity.
Qed.

(** X9 on a concrete case. *)
Lemma unit_vectors_one_test_witness :
  length [1; 0]%R = length [0; 1]%R /\
  Exact.sumsqR [1; 0]%R = 1%R /\ Exact.sumsqR [0; 1]%R = 1%R /\
  euclideanDistance (Exact.fin [1; 0]%R) (Exact.fin [0; 1]%R) =
    Exact.Fin (R_sqrt.sqrt (2 - 2 * Exact.dotR [1; 0]%R [0; 1]%R)).
Proof.
  assert (Exact.sumsqR [1; 0]%R = 1%R) as Ha
    by (unfold Exact.sumsqR, Exact.sumOver; simpl; lra).
  assert (Exact.sumsqR [0; 1]%R = 1%R) as Hb
    by (unfold Exact.sumsqR, Exact.sumOver; simpl; lra).
  split; [reflexivity|]. split; [exact Ha|]. split; [exact Hb|].
  exact (proj1 (unit_vectors_one_test [1; 0]%R [0; 1]%R eq_refl Ha Hb)).
Defined.

(** X10. In exact arithmetic, for an image of w by h pixels and a ratio of
    k hundredths (k <= 100) the crop is a square of side
    floor (min w h * k / 100) whose left and top offsets are
    floor ((w - side) / 2) and floor ((h - side) / 2): it lies within the
    image, and the margins on opposite sides differ by at most one pixel. *)
Theorem crop_region_within_image (w h k : nat) :
  k <= 100 ->
  exists left_ top_ side : nat,
    centerCrop (ofNat w) (ofNat h) (hundredths k) =
      {| left := (ofNat left_ : Exact.xreal); top := ofNat top_;
         region_width := ofNat side; region_height := ofNat side |} /\
    side = Nat.min w h * k / 100 /\
    left_ = (w - side) / 2 /\ top_ = (h - side) / 2 /\
    left_ + side <= w /\ top_ + side <= h /\
    left_ <= w - side - left_ <= left_ + 1 /\
    top_ <= h - side - top_ <= top_ + 1.
Proof.
  intros Hk.
  exists ((w - Nat.min w h * k / 100) / 2), ((h - Nat.min w h * k / 100) / 2),
         (Nat.min w h * k / 100).
  split; [exact (ExactMore.centerCrop_sizes w h k Hk)|].
  set (side := Nat.min w h * k / 100).
  assert (side <= Nat.min w h) as Hside
    by (unfold side; apply Nat.Div0.div_le_upper_bound; nia).
  pose proof (Nat.div_mod_eq (w - side) 2) as Hw.
  pose proof (Nat.mod_upper_bound (w - side) 2 ltac:(lia)) as Hw'.
  pose proof (Nat.div_mod_eq (h - side) 2) as Hh.
  pose proof (Nat.mod_upper_bound (h - side) 2 ltac:(lia)) as Hh'.
  repeat split; lia.
Qed.

(** X10 on a concrete case. *)
Lemma crop_region_within_image_witness :
  exists left_ top_ side : nat,
    centerCrop (ofNat 640) (ofNat 480) (hundredths 92) =
      {| left := (ofNat left_ : Exact.xreal); top := ofNat top_;
         region_width := ofNat side; region_height := ofNat side |} /\
    side = 441 /\ left_ = 99 /\ top_ = 19.
Proof.
  destruct (crop_region_within_image 640 480 92 ltac:(lia))
    as (l & t & s & Hc & Hs & Hl & Ht & _).
  exists l, t, s. split; [exact Hc|].
  assert (s = 441) as Hs' by (rewrite Hs; reflexivity).
  split; [exact Hs'|]. rewrite Hl, Ht, Hs'. split; reflexivity.
Defined.

(** X11. On doubles, whenever [Math.min(width, height)] is an integer m below
    65536, the two crops have the sides floor (92 m / 100) and
    floor (85 m / 100) of exact arithmetic: the rounding of 0.92, of 0.85
    and of the products never moves [Math.floor] to a neighbouring
    integer. *)
Theorem crop_side_on_doubles (w h : float) (m : nat) :
  (Z.of_nat m < 65536)%Z -> min2 w h = ofNat m ->
  region_width (centerCrop w h (hundredths 92)) = ofNat (m * 92 / 100) /\
  region_height (centerCrop w h (hundredths 92)) = ofNat (m * 92 / 100) /\
  region_width (centerCrop w h (hundredths 85)) = ofNat (m * 85 / 100) /\
  region_height (centerCrop w h (hundredths 85)) = ofNat (m * 85 / 100).
Proof.
  intros Hm Hmin.
  pose proof (JSCropFacts.allFrom_spec _ _ _ JSCropFacts.sides_checked (Z.of_nat m)) as Hs.
  rewrite Z2Nat.id in Hs by lia.
  specialize (Hs ltac:(lia)). apply andb_true_iff in Hs as [H92 H85].
  unfold centerCrop. cbn [region_width region_height]. rewrite Hmin.
  rewrite (JSCropFacts.side_of_square m 92 H92), (JSCropFacts.side_of_square m 85 H85).
  repeat split.
Qed.

(** X11 on a concrete case. *)
Lemma crop_side_on_doubles_witness :
  (Z.of_nat 480 < 65536)%Z /\ min2 640%float 480%float = ofNat 480 /\
  region_width (centerCrop 640%float 480%float (hundredths 92)) = ofNat (480 * 92 / 100) /\
  region_width (centerCrop 640%float 480%float (hundredths 85)) = ofNat (480 * 85 / 100).
Proof.
  assert (Z.of_nat 480 < 65536)%Z as Hm by lia.
  assert (min2 640%float 480%float = ofNat 480) as Hmin by reflexivity.
  split; [exact Hm|]. split; [exact Hmin|].
  destruct (crop_side_on_doubles 640%float 480%float 480 Hm Hmin) as (H1 & _ & H2 & _).
  split; [exact H1 | exact H2].
Defined.

(** X12. When REQUIRED_VARIANT_MATCHES is not <= 0 (the default is 1), a
    verification against a stored profile answers "Person Found" exactly
    when variantMatches >= REQUIRED_VARIANT_MATCHES: a pair that passes the
    joint test brings minDistance and maxSimilarity within their
    thresholds. On doubles and in exact arithmetic. *)
Theorem count_alone_decides :
  (forall (Path Buffer : Type) (C : Collaborators (num := float) Path Buffer)
          (cfg : Config) (store : gmap string Profile) (n : string)
          (imagePath : Path) (profile : Profile),
     n <> EmptyString -> store !! n = Some profile ->
     leb (REQUIRED_VARIANT_MATCHES cfg) (ofNat 0) = false ->
     exists message tally centroidDistance centroidSimilarity,
       find cfg store (Some n) (Some imagePath) =
         Returns (json (Verdict message tally centroidDistance centroidSimilarity
                                (DISTANCE_THRESHOLD cfg) (COSINE_THRESHOLD cfg))) /\
       tally = sweep cfg (getAugmentedEmbeddings imagePath) (parsedEmbeddings profile) /\
       (message = "Person Found"%string <->
          leb (REQUIRED_VARIANT_MATCHES cfg) (ofNat (variantMatches tally)) = true)) /\
  (forall (Path Buffer : Type) (C : Collaborators (num := Exact.xreal) Path Buffer)
          (cfg : Config) (store : gmap string Profile) (n : string)
          (imagePath : Path) (profile : Profile),
     n <> EmptyString -> store !! n = Some profile ->
     leb (REQUIRED_VARIANT_MATCHES cfg) (ofNat 0) = false ->
     exists message tally centroidDistance centroidSimilarity,
       find cfg store (Some n) (Some imagePath) =
         Returns (json (Verdict message tally centroidDistance centroidSimilarity
                                (DISTANCE_THRESHOLD cfg) (COSINE_THRESHOLD cfg))) /\
       tally = sweep cfg (getAugmentedEmbeddings imagePath) (parsedEmbeddings profile) /\
       (message = "Person Found"%string <->
          leb (REQUIRED_VARIANT_MATCHES cfg) (ofNat (variantMatches tally)) = true)) /\
  leb (REQUIRED_VARIANT_MATCHES (defaultConfig (num := float))) (ofNat 0) = false /\
  leb (REQUIRED_VARIANT_MATCHES (defaultConfig (num := Exact.xreal))) (ofNat 0) = false.
Proof.
  split; [|split; [|split]].
  - intros Path Buffer C. 
    apply (@find_count_decides float JS.float_Number JSOrder.float_NumberOrder
             JSArith.float_leb_trans JSCount.float_leb_number).
  - intros Path Buffer C.
    apply (@find_count_decides Exact.xreal Exact.xreal_Number
             ExactOrder.xreal_NumberOrder
             ExactCount.xleb_trans ExactCount.xleb_number).
  - reflexivity.
  - simpl. apply ExactOrder.Rleb_false. lra.
Qed.
(** X12 on a concrete case. *)
Lemma count_alone_decides_witness :
  "alice"%string <> EmptyString /\
  demoStore !! "alice"%string = Some aliceProfile /\
  leb (REQUIRED_VARIANT_MATCHES (defaultConfig (num := float))) (ofNat 0) = false /\
  exists message tally centroidDistance centroidSimilarity,
    find defaultConfig demoStore (Some "alice"%string) (Some (plain [3; 4]%float)) =
      Returns (json (Verdict message tally centroidDistance centroidSimilarity
                             (DISTANCE_THRESHOLD defaultConfig)
                             (COSINE_THRESHOLD defaultConfig))) /\
    (message = "Person Found"%string <->
       leb (REQUIRED_VARIANT_MATCHES (defaultConfig (num := float)))
           (ofNat (variantMatches tally)) = true).
Proof.
  assert (leb (REQUIRED_VARIANT_MATCHES (defaultConfig (num := float))) (ofNat 0) = false)
    as Hreq by reflexivity.
  split; [exact alice_named|]. split; [exact alice_stored|]. split; [exact Hreq|].
  destruct (proj1 count_alone_decides Photo (list float) demo defaultConfig demoStore
              "alice"%string (plain [3; 4]%float) aliceProfile
              alice_named alice_stored Hreq)
    as (message & tally & cd & cs & Hfind & _ & Hiff).
  exists message, tally, cd, cs. split; [exact Hfind | exact Hiff].
Defined.

(** X13. On doubles, when one of the three thresholds is NaN every
    verification against a stored profile answers "Person Not Found". *)
Theorem nan_threshold_never_matches {Path Buffer : Type}
    {C : Collaborators (num := float) Path Buffer}
    (cfg : Config) (store : gmap string Profile) (n : string)
    (imagePath : Path) (profile : Profile) :
  n <> EmptyString -> store !! n = Some profile ->
  DISTANCE_THRESHOLD cfg = PrimFloat.nan \/
  COSINE_THRESHOLD cfg = PrimFloat.nan \/
  REQUIRED_VARIANT_MATCHES cfg = PrimFloat.nan ->
  exists tally centroidDistance centroidSimilarity,
    find cfg store (Some n) (Some imagePath) =
      Returns (json (Verdict "Person Not Found" tally
                             centroidDistance centroidSimilarity
                             (DISTANCE_THRESHOLD cfg) (COSINE_THRESHOLD cfg))).
Proof.
  intros Hn Hp Hnan. rewrite (find_registered cfg store n imagePath profile Hn Hp).
  cbv zeta. do 3 eexists.
  assert (isMatch cfg (sweep cfg (getAugmentedEmbeddings imagePath)
                             (parsedEmbeddings profile)) = false) as ->; [|reflexivity].
  unfold isMatch. cbn [leb JS.float_Number].
  destruct Hnan as [-> | [-> | ->]].
  - now rewrite JSArith.leb_nan_r.
  - rewrite JSArith.leb_nan_l. apply andb_false_iff. left. apply andb_false_r.
  - rewrite JSArith.leb_nan_l. apply andb_false_r.
Qed.
(** X13 on a concrete case. *)
Lemma nan_threshold_never_matches_witness :
  "alice"%string <> EmptyString /\
  demoStore !! "alice"%string = Some aliceProfile /\
  DISTANCE_THRESHOLD nanDistanceConfig = PrimFloat.nan /\
  exists tally centroidDistance centroidSimilarity,
    find nanDistanceConfig demoStore (Some "alice"%string) (Some (plain [1; 0]%float)) =
      Returns (json (Verdict "Person Not Found" tally
                             centroidDistance centroidSimilarity
                             (DISTANCE_THRESHOLD nanDistanceConfig)
                             (COSINE_THRESHOLD nanDistanceConfig))).
Proof.
  split; [exact alice_named|]. split; [exact alice_stored|]. split; [reflexivity|].
  exact (nan_threshold_never_matches nanDistanceConfig demoStore "alice"%string
           (plain [1; 0]%float) aliceProfile alice_named alice_stored
           (or_introl eq_refl)).
Defined.

(** X14. The figures the two endpoints report are never NaN: maxIntraDistance
    and minIntraSimilarity of an enrollment, minDistance and maxSimilarity
    of a verification; and maxIntraDistance and minDistance are never
    negative. *)
Theorem reported_extremes_are_numbers {num : Type} `{NumberOrder num}
    {Path Buffer : Type} `{Collaborators (num := num) Path Buffer}
    (cfg : Config) (store : gmap string Profile) (n : string) :
  n <> EmptyString ->
  (forall fs : list Path, fs <> [] ->
     exists samplesStored maxIntra minIntra store',
       register store (Some n) (Some fs) =
         Returns (json (Registered "Person Registered" samplesStored maxIntra minIntra),
                  store') /\
       isNumber maxIntra = true /\ leb zero maxIntra = true /\
       isNumber minIntra = true) /\
  (forall (imagePath : Path) (profile : Profile),
     store !! n = Some profile ->
     exists message tally centroidDistance centroidSimilarity,
       find cfg store (Some n) (Some imagePath) =
         Returns (json (Verdict message tally centroidDistance centroidSimilarity
                                (DISTANCE_THRESHOLD cfg) (COSINE_THRESHOLD cfg))) /\
       isNumber (minDistance tally) = true /\ leb zero (minDistance tally) = true /\
       isNumber (maxSimilarity tally) = true).
Proof.
  intros Hn. split.
  - intros fs Hfs.
    destruct (register_accepted store n fs Hn Hfs) as (profile & Hb & Hr).
    destruct (flat_map getAugmentedEmbeddings fs) as [|e es] eqn:Hes;
      [now apply flat_map_augmented_nonempty in Hes|].
    destruct (profile_numbers e es) as (profile' & Hb' & Hnum).
    assert (profile' = profile) as -> by congruence.
    do 4 eexists. split; [exact Hr | exact Hnum].
  - intros imagePath profile Hp.
    rewrite (find_registered cfg store n imagePath profile Hn Hp). cbv zeta.
    do 4 eexists. split; [reflexivity|]. apply sweep_numbers.
Qed.

(** X14 on a concrete case. *)
Lemma reported_extremes_are_numbers_witness :
  "alice"%string <> EmptyString /\
  demoStore !! "alice"%string = Some aliceProfile /\
  exists message tally centroidDistance centroidSimilarity,
    find defaultConfig demoStore (Some "alice"%string)
         (Some (plain [PrimFloat.nan; 1]%float)) =
      Returns (json (Verdict message tally centroidDistance centroidSimilarity
                             (DISTANCE_THRESHOLD defaultConfig)
                             (COSINE_THRESHOLD defaultConfig))) /\
    isNumber (minDistance tally) = true /\ leb zero (minDistance tally) = true /\
    isNumber (maxSimilarity tally) = true.
Proof.
  split; [exact alice_named|]. split; [exact alice_stored|].
  exact (proj2 (reported_extremes_are_numbers (Path := Photo) defaultConfig demoStore
                  "alice"%string alice_named)
               (plain [PrimFloat.nan; 1]%float) aliceProfile alice_stored).
Defined.

(** X15. An accepted enrollment of n images stores between n and 3 n
    samples. In a verification variantMatches is at most the number of
    query variants times the number of stored embeddings, hence at most
    three times the number of stored embeddings. *)
Theorem variant_counts_bounded {num : Type} `{Number num}
    {Path Buffer : Type} `{Collaborators (num := num) Path Buffer}
    (cfg : Config) (store : gmap string Profile) (n : string) :
  n <> EmptyString ->
  (forall fs : list Path, fs <> [] ->
     exists samplesStored maxIntra minIntra store',
       register store (Some n) (Some fs) =
         Returns (json (Registered "Person Registered" samplesStored maxIntra minIntra),
                  store') /\
       length fs <= samplesStored <= 3 * length fs) /\
  (forall (imagePath : Path) (profile : Profile),
     store !! n = Some profile ->
     exists message tally centroidDistance centroidSimilarity,
       find cfg store (Some n) (Some imagePath) =
         Returns (json (Verdict message tally centroidDistance centroidSimilarity
                                (DISTANCE_THRESHOLD cfg) (COSINE_THRESHOLD cfg))) /\
       variantMatches tally <=
         length (getAugmentedEmbeddings imagePath) * length (embeddings profile) /\
       variantMatches tally <= 3 * length (embeddings profile)).
Proof.
  intros Hn. split.
  - intros fs Hfs.
    destruct (register_accepted store n fs Hn Hfs) as (profile & _ & Hr).
    do 4 eexists. split; [exact Hr|]. apply length_flat_map_augmented_bounds.
  - intros imagePath profile Hp.
    rewrite (find_registered cfg store n imagePath profile Hn Hp). cbv zeta.
    do 4 eexists. split; [reflexivity|].
    pose proof (variantMatches_le cfg (getAugmentedEmbeddings imagePath)
                  (parsedEmbeddings profile)) as Hle.
    unfold parsedEmbeddings in Hle at 2. rewrite length_map in Hle.
    split; [exact Hle|].
    pose proof (length_augmented imagePath). nia.
Qed.

(** X15 on a concrete case. *)
Lemma variant_counts_bounded_witness :
  "alice"%string <> EmptyString /\
  demoStore !! "alice"%string = Some aliceProfile /\
  exists message tally centroidDistance centroidSimilarity,
    find defaultConfig demoStore (Some "alice"%string)
         (Some (sized [3; 4]%float 640 480)) =
      Returns (json (Verdict message tally centroidDistance centroidSimilarity
                             (DISTANCE_THRESHOLD defaultConfig)
                             (COSINE_THRESHOLD defaultConfig))) /\
    variantMatches tally <= 3 * length (embeddings aliceProfile).
Proof.
  split; [exact alice_named|]. split; [exact alice_stored|].
  destruct (proj2 (variant_counts_bounded (Path := Photo) defaultConfig demoStore
                     "alice"%string alice_named)
                  (sized [3; 4]%float 640 480) aliceProfile alice_stored)
    as (message & tally & cd & cs & Hf & _ & Hle).
  exists message, tally, cd, cs. split; [exact Hf | exact Hle].
Defined.



(** X17. On doubles, verifying an image that was among the enrolled ones,
    when the normalized embedding of the full image holds finite numbers
    only, reports a minDistance that is numerically 0: the distance test
    passes under every threshold that is >= 0. *)
Theorem enrolled_image_at_distance_zero {Path Buffer : Type}
    {C : Collaborators (num := float) Path Buffer}
    (cfg : Config) (store : gmap string Profile) (n : string)
    (fs : list Path) (imagePath : Path) :
  n <> EmptyString -> In imagePath fs ->
  (forall x, In x (fullImageEmbedding imagePath) -> isFinite x = true) ->
  exists resp profile message tally centroidDistance centroidSimilarity,
    register store (Some n) (Some fs) = Returns (resp, <[n := profile]> store) /\
    find cfg (<[n := profile]> store) (Some n) (Some imagePath) =
      Returns (json (Verdict message tally centroidDistance centroidSimilarity
                             (DISTANCE_THRESHOLD cfg) (COSINE_THRESHOLD cfg))) /\
    leb (minDistance tally) zero = true /\ leb zero (minDistance tally) = true /\
    (leb zero (DISTANCE_THRESHOLD cfg) = true ->
     leb (minDistance tally) (DISTANCE_THRESHOLD cfg) = true).
Proof.
  intros Hn Hin Hfin.
  assert (fs <> []) as Hfs by (intros ->; destruct Hin).
  destruct (register_accepted store n fs Hn Hfs) as (profile & Hb & Hr).
  apply buildPersonProfile_embeddings in Hb as [_ Hemb].
  eexists _, profile. 
  rewrite (find_registered cfg (<[n := profile]> store) n imagePath profile Hn
             (lookup_insert_eq _ _ _)).
  cbv zeta. do 4 eexists. split; [exact Hr|]. split; [reflexivity|].
  set (t := sweep cfg _ _).
  destruct (sweep_characterised cfg (getAugmentedEmbeddings imagePath)
              (parsedEmbeddings profile)) as ((_ & _ & Hlow) & _).
  fold t in Hlow.
  assert (leb (minDistance t) zero = true) as Hzero.
  { set (q := fullImageEmbedding imagePath) in *.
    assert (pairDistance (q, map jsonNumber q) = zero) as Hd
      by (apply JSEnroll.distance_parsed_self, Hfin).
    assert (leb (minDistance t) (pairDistance (q, map jsonNumber q)) = true) as Hle.
    { apply Hlow.
      - right. apply in_map, in_pairs. cbn [fst snd]. split.
        + destruct (augmented_first imagePath) as (rest & ->). now left.
        + unfold parsedEmbeddings. rewrite Hemb. apply in_map, in_flat_map.
          exists imagePath. split; [exact Hin|].
          destruct (augmented_first imagePath) as (rest & ->). now left.
      - now rewrite Hd. }
    now rewrite Hd in Hle. }
  split; [exact Hzero|]. split; [apply (sweep_numbers cfg)|].
  intros Hdt. exact (JSArith.float_leb_trans _ _ _ Hzero Hdt).
Qed.

(** X17 on a concrete case. *)
Lemma enrolled_image_at_distance_zero_witness :
  exists resp profile message tally centroidDistance centroidSimilarity,
    register demoStore (Some "alice"%string)
             (Some [plain [0; 1]%float; plain [3; 4]%float]) =
      Returns (resp, <["alice"%string := profile]> demoStore) /\
    find defaultConfig (<["alice"%string := profile]> demoStore)
         (Some "alice"%string) (Some (plain [3; 4]%float)) =
      Returns (json (Verdict message tally centroidDistance centroidSimilarity
                             (DISTANCE_THRESHOLD defaultConfig)
                             (COSINE_THRESHOLD defaultConfig))) /\
    leb (minDistance tally) zero = true /\ leb zero (minDistance tally) = true.
Proof.
  assert (forall x, In x (fullImageEmbedding (plain [3; 4]%float)) -> isFinite x = true)
    as Hfin.
  { intros x [<- | [<- | []]]; reflexivity. }
  destruct (enrolled_image_at_distance_zero defaultConfig demoStore "alice"%string
              [plain [0; 1]%float; plain [3; 4]%float] (plain [3; 4]%float)
              alice_named (or_intror (or_introl eq_refl)) Hfin)
    as (resp & profile & message & tally & cd & cs & Hr & Hf & H0 & H1 & _).
  exists resp, profile, message, tally, cd, cs.
  split; [exact Hr|]. split; [exact Hf|]. split; [exact H0 | exact H1].
Defined.

(** X18. In exact arithmetic, under the default thresholds, verifying an
    image that was among the enrolled ones answers "Person Found" as soon
    as the extractor returns, for the full image, a vector of finite
    numbers that is not all zeros. On doubles the conclusion can fail when
    the squares underflow, as for the vector (2^-600). *)
Theorem enrolled_image_found {Path Buffer : Type}
    {C : Collaborators (num := Exact.xreal) Path Buffer}
    (store : gmap string Profile) (n : string) (fs : list Path) (imagePath : Path)
    (v : list R) :
  n <> EmptyString -> In imagePath fs ->
  getEmbeddingFromBuffer (preprocessTo112 imagePath) = Exact.fin v ->
  (exists x, In x v /\ x <> 0%R) ->
  exists resp profile tally centroidDistance centroidSimilarity,
    register store (Some n) (Some fs) = Returns (resp, <[n := profile]> store) /\
    find defaultConfig (<[n := profile]> store) (Some n) (Some imagePath) =
      Returns (json (Verdict "Person Found" tally centroidDistance centroidSimilarity
                             (DISTANCE_THRESHOLD defaultConfig)
                             (COSINE_THRESHOLD defaultConfig))).
Proof.
  intros Hn Hin Hv Hnz.
  assert (fs <> []) as Hfs by (intros ->; destruct Hin).
  destruct (register_accepted store n fs Hn Hfs) as (profile & Hb & Hr).
  apply buildPersonProfile_embeddings in Hb as [_ Hemb].
  eexists _, profile.
  rewrite (find_registered defaultConfig (<[n := profile]> store) n imagePath profile Hn
             (lookup_insert_eq _ _ _)).
  cbv zeta. do 3 eexists. split; [exact Hr|].
  set (t := sweep defaultConfig _ _).
  assert (isMatch defaultConfig t = true) as ->; [|reflexivity].
  apply ExactMore.sumsqR_nonzero in Hnz.
  set (u := map (fun x => (x / Exact.normR v)%R) v).
  assert (fullImageEmbedding imagePath = Exact.fin u) as Hq
    by (unfold fullImageEmbedding; rewrite Hv; now apply ExactFacts.normalize_fin).
  assert (Exact.sumsqR u = 1%R) as Hu by now apply ExactMore.sumsqR_normalized.
  assert (In (Exact.fin u) (getAugmentedEmbeddings imagePath)) as Hqin
    by (destruct (augmented_first imagePath) as (rest & ->); left; exact Hq).
  assert (In (Exact.fin u, Exact.fin u)
             (pairs (getAugmentedEmbeddings imagePath) (parsedEmbeddings profile))) as Hp.
  { apply in_pairs. cbn [fst snd]. split; [exact Hqin|].
    rewrite <- (ExactStore.parsed_fin u). unfold parsedEmbeddings. rewrite Hemb.
    apply in_map, in_flat_map. exists imagePath. split; [exact Hin | exact Hqin]. }
  assert (passes defaultConfig (Exact.fin u, Exact.fin u) = true) as Hpass.
  { apply (ExactMore.unit_passes u u eq_refl Hu Hu).
    rewrite ExactFacts.dotR_self, Hu. lra. }
  subst t.
  rewrite (@count_decides Exact.xreal Exact.xreal_Number ExactOrder.xreal_NumberOrder
             ExactCount.xleb_trans ExactCount.xleb_number).
  - rewrite sweep_variantMatches.
    assert (In (Exact.fin u, Exact.fin u)
               (List.filter (passes defaultConfig)
                  (pairs (getAugmentedEmbeddings imagePath) (parsedEmbeddings profile))))
      as Hf by (apply filter_In; split; [exact Hp | exact Hpass]).
    destruct (List.filter _ _) as [|p ps]; [destruct Hf|].
    cbn [REQUIRED_VARIANT_MATCHES defaultConfig leb ofNat Exact.xreal_Number Exact.xleb].
    apply ExactOrder.Rleb_true, le_INR. cbn [length]. lia.
  - cbn [REQUIRED_VARIANT_MATCHES defaultConfig leb ofNat Exact.xreal_Number Exact.xleb].
    apply ExactOrder.Rleb_false. simpl. lra.
Qed.

(** X18 on a concrete case. *)
Lemma enrolled_image_found_witness :
  exists resp profile tally centroidDistance centroidSimilarity,
    register exactStore (Some "alice"%string) (Some [[3; 4]%R]) =
      Returns (resp, <["alice"%string := profile]> exactStore) /\
    find defaultConfig (<["alice"%string := profile]> exactStore)
         (Some "alice"%string) (Some [3; 4]%R) =
      Returns (json (Verdict "Person Found" tally centroidDistance centroidSimilarity
                             (DISTANCE_THRESHOLD defaultConfig)
                             (COSINE_THRESHOLD defaultConfig))).
Proof.
  refine (enrolled_image_found (C := exactDemo) exactStore "alice"%string
            [[3; 4]%R] [3; 4]%R [3; 4]%R alice_named (or_introl eq_refl) eq_refl _).
  exists 3%R. split; [now left | lra].
Defined.

(** On doubles the squares of a tiny vector underflow: it is enrolled as
    it is, its similarity with itself is 0, and it is not found. *)
Lemma enrolled_tiny_image_not_found :
  exists resp profile tally centroidDistance centroidSimilarity,
    register ∅ (Some "bob"%string) (Some [plain [0x1p-600]%float]) =
      Returns (resp, <["bob"%string := profile]> ∅) /\
    find defaultConfig (<["bob"%string := profile]> ∅)
         (Some "bob"%string) (Some (plain [0x1p-600]%float)) =
      Returns (json (Verdict "Person Not Found" tally centroidDistance centroidSimilarity
                             (DISTANCE_THRESHOLD defaultConfig)
                             (COSINE_THRESHOLD defaultConfig))).
Proof.
  destruct (register_accepted (Path := Photo) ∅ "bob"%string [plain [0x1p-600]%float]
              bob_named ltac:(discriminate)) as (profile & Hb & Hr).
  eexists _, profile. 
  rewrite (find_registered defaultConfig (<["bob"%string := profile]> ∅) "bob"%string
             (plain [0x1p-600]%float) profile bob_named (lookup_insert_eq _ _ _)).
  cbv zeta. do 3 eexists. split; [exact Hr|].
  apply buildPersonProfile_embeddings in Hb as [_ Hemb].
  unfold parsedEmbeddings. rewrite Hemb. reflexivity.
Qed.



(** X20. When REQUIRED_VARIANT_MATCHES is not <= 0, the order in which the
    images of an enrollment are given changes neither variantMatches nor
    the message of any later verification of that person (the centroid and
    the order of the stored embeddings may differ). On doubles and in exact
    arithmetic. *)
Theorem enrollment_order_irrelevant :
  (forall (Path Buffer : Type) (C : Collaborators (num := float) Path Buffer)
          (cfg : Config) (store : gmap string Profile) (n : string)
          (fs fs' : list Path) (imagePath : Path),
     n <> EmptyString -> fs <> [] -> Permutation fs fs' ->
     leb (REQUIRED_VARIANT_MATCHES cfg) (ofNat 0) = false ->
     exists resp resp' profile profile' message tally tally' cd cd' cs cs',
       register store (Some n) (Some fs) = Returns (resp, <[n := profile]> store) /\
       register store (Some n) (Some fs') = Returns (resp', <[n := profile']> store) /\
       find cfg (<[n := profile]> store) (Some n) (Some imagePath) =
         Returns (json (Verdict message tally cd cs
                                (DISTANCE_THRESHOLD cfg) (COSINE_THRESHOLD cfg))) /\
       find cfg (<[n := profile']> store) (Some n) (Some imagePath) =
         Returns (json (Verdict message tally' cd' cs'
                                (DISTANCE_THRESHOLD cfg) (COSINE_THRESHOLD cfg))) /\
       variantMatches tally = variantMatches tally') /\
  (forall (Path Buffer : Type) (C : Collaborators (num := Exact.xreal) Path Buffer)
          (cfg : Config) (store : gmap string Profile) (n : string)
          (fs fs' : list Path) (imagePath : Path),
     n <> EmptyString -> fs <> [] -> Permutation fs fs' ->
     leb (REQUIRED_VARIANT_MATCHES cfg) (ofNat 0) = false ->
     exists resp resp' profile profile' message tally tally' cd cd' cs cs',
       register store (Some n) (Some fs) = Returns (resp, <[n := profile]> store) /\
       register store (Some n) (Some fs') = Returns (resp', <[n := profile']> store) /\
       find cfg (<[n := profile]> store) (Some n) (Some imagePath) =
         Returns (json (Verdict message tally cd cs
                                (DISTANCE_THRESHOLD cfg) (COSINE_THRESHOLD cfg))) /\
       find cfg (<[n := profile']> store) (Some n) (Some imagePath) =
         Returns (json (Verdict message tally' cd' cs'
                                (DISTANCE_THRESHOLD cfg) (COSINE_THRESHOLD cfg))) /\
       variantMatches tally = variantMatches tally').
Proof.
  split.
  - intros Path Buffer C.
    apply (@permuted_enrollment_verdict float JS.float_Number JSOrder.float_NumberOrder
             JSArith.float_leb_trans JSCount.float_leb_number).
  - intros Path Buffer C.
    apply (@permuted_enrollment_verdict Exact.xreal Exact.xreal_Number
             ExactOrder.xreal_NumberOrder
             ExactCount.xleb_trans ExactCount.xleb_number).
Qed.

(** X20 on a concrete case. *)
Lemma enrollment_order_irrelevant_witness :
  exists resp resp' profile profile' message tally tally' cd cd' cs cs',
    register demoStore (Some "carol"%string)
             (Some [plain [3; 4]%float; plain [0; 1]%float]) =
      Returns (resp, <["carol"%string := profile]> demoStore) /\
    register demoStore (Some "carol"%string)
             (Some [plain [0; 1]%float; plain [3; 4]%float]) =
      Returns (resp', <["carol"%string := profile']> demoStore) /\
    find defaultConfig (<["carol"%string := profile]> demoStore)
         (Some "carol"%string) (Some (plain [1; 0]%float)) =
      Returns (json (Verdict message tally cd cs
                             (DISTANCE_THRESHOLD defaultConfig)
                             (COSINE_THRESHOLD defaultConfig))) /\
    find defaultConfig (<["carol"%string := profile']> demoStore)
         (Some "carol"%string) (Some (plain [1; 0]%float)) =
      Returns (json (Verdict message tally' cd' cs'
                             (DISTANCE_THRESHOLD defaultConfig)
                             (COSINE_THRESHOLD defaultConfig))) /\
    variantMatches tally = variantMatches tally'.
Proof.
  assert (leb (REQUIRED_VARIANT_MATCHES (defaultConfig (num := float))) (ofNat 0) = false)
    as Hreq by reflexivity.
  exact (proj1 enrollment_order_irrelevant Photo (list float) demo defaultConfig
           demoStore "carol"%string
           [plain [3; 4]%float; plain [0; 1]%float]
           [plain [0; 1]%float; plain [3; 4]%float] (plain [1; 0]%float)
           ltac:(discriminate) ltac:(discriminate) (perm_swap _ _ _) Hreq).
Defined.
